(** * Staff hand-off and queueing core of the support-chat backend

    A shallow embedding of the hand-off logic of [backend/src/services]:
      - [InMemoryStaffStore] and [StaffService]
        (file [aiService.ts], lines 184-435),
      - [InMemoryQueueStore] and [QueueService] (file [queueService.ts]),
      - [InMemorySessionStore] and [SessionService]
        (file [socketService.ts], lines 454-670),
      - the event handlers of [SocketService] (file [socketService.ts],
        lines 50-409),
    followed by the properties of the hand-off logic.

    Conventions of the embedding.
      - A JavaScript [Map<string, V>] is an insertion-ordered association list
        (module [JsMap]): iteration order is observable in the source
        ([removeFromQueue] deletes the first match, [reduce] keeps the first
        minimum, the stable [sort] keeps insertion order among equal keys).
      - JavaScript numbers that hold counts and millisecond timestamps are [Z].
      - [new Date()] and [uuidv4()] read the environment: every operation that
        calls them takes the instant [now] and the generated identifier as
        arguments; one service call reads one instant.
      - [async] functions are run to completion one after the other; the
        services await every store call, so a service call is a function from
        the state before to a result and the state after.
      - The typing indicators, [staff_authenticate], the transcript export
        and the HTTP routes other than the staff statistics are not
        embedded. *)

From Stdlib Require Import ZArith QArith List String Bool Lia Permutation Sorted.
Import ListNotations.

Local Open Scope string_scope.
Local Open Scope list_scope.
Local Open Scope Z_scope.

(** ** JavaScript [Map] keyed by strings *)

Module JsMap.

Section Ops.
Variable V : Type.

Definition t := list (string * V).

Definition empty : t := [].

(** [Map.prototype.get]; [None] stands for [undefined]. *)
Fixpoint get (m : t) (k : string) : option V :=
  match m with
  | [] => None
  | (k', v) :: r => if String.eqb k' k then Some v else get r k
  end.

(** [Map.prototype.set]: an existing key keeps its position, a new key is
    appended. *)
Fixpoint set (m : t) (k : string) (v : V) : t :=
  match m with
  | [] => [(k, v)]
  | (k', v') :: r =>
      if String.eqb k' k then (k, v) :: r else (k', v') :: set r k v
  end.

(** [Map.prototype.delete]. *)
Fixpoint delete (m : t) (k : string) : t :=
  match m with
  | [] => []
  | (k', v') :: r => if String.eqb k' k then r else (k', v') :: delete r k
  end.

Definition keys (m : t) : list string := map fst m.
Definition values (m : t) : list V := map snd m.
Definition entries (m : t) : list (string * V) := m.
Definition size (m : t) : Z := Z.of_nat (List.length m).
End Ops.

Arguments empty {V}.
Arguments get {V} m k.
Arguments set {V} m k v.
Arguments delete {V} m k.
Arguments keys {V} m.
Arguments values {V} m.
Arguments entries {V} m.
Arguments size {V} m.

End JsMap.

(** ** Types ([backend/src/types/index.ts]) *)

Inductive StaffRole := agent | supervisor | admin.
Inductive StaffStatus := online | offline | busy | away.

Record StaffUser := mkStaffUser {
  s_id : string;
  s_email : string;
  s_name : string;
  s_role : StaffRole;
  s_status : StaffStatus;
  s_createdAt : Z;
  s_lastActive : Z;
  maxConcurrentChats : Z;
  currentChatCount : Z
}.

(** [StaffUser & { password: string }], the rows of the staff store. *)
Record StaffRow := mkStaffRow {
  user : StaffUser;
  password : string
}.

(** [Partial<StaffUser>]: an absent field is [None]. *)
Record PartialStaffUser := mkPartialStaffUser {
  p_id : option string;
  p_email : option string;
  p_name : option string;
  p_role : option StaffRole;
  p_status : option StaffStatus;
  p_createdAt : option Z;
  p_lastActive : option Z;
  p_maxConcurrentChats : option Z;
  p_currentChatCount : option Z
}.

Definition noUpdates : PartialStaffUser :=
  mkPartialStaffUser None None None None None None None None None.

Definition StaffStatus_eqb (a b : StaffStatus) : bool :=
  match a, b with
  | online, online | offline, offline | busy, busy | away, away => true
  | _, _ => false
  end.

Definition orElse {A} (o : option A) (d : A) : A :=
  match o with Some a => a | None => d end.

(** ** InMemoryStaffStore *)

Module StaffStore.

Definition t := JsMap.t StaffRow.

(** [createDefaultStaff]: the two rows every store starts with.  The
    identifiers and password hashes come from [uuidv4] and [bcrypt]. *)
Definition createDefaultStaff (id1 id2 hash1 hash2 : string) (now : Z) : t :=
  let defaultStaff :=
    [ mkStaffRow (mkStaffUser id1 "admin@mtom-ai.com" "Admin User" admin
                    offline now now 10 0) hash1;
      mkStaffRow (mkStaffUser id2 "agent@mtom-ai.com" "Support Agent" agent
                    offline now now 5 0) hash2 ] in
  fold_left (fun m staff => JsMap.set m (s_id (user staff)) staff)
    defaultStaff JsMap.empty.

Definition findById (st : t) (id : string) : option StaffUser :=
  match JsMap.get st id with
  | None => None
  | Some staff => Some (user staff)
  end.

(** [{ ...staff, ...updates, lastActive: new Date() }] *)
Definition applyUpdates (staff : StaffRow) (updates : PartialStaffUser)
    (now : Z) : StaffRow :=
  let u := user staff in
  mkStaffRow
    (mkStaffUser
       (orElse (p_id updates) (s_id u))
       (orElse (p_email updates) (s_email u))
       (orElse (p_name updates) (s_name u))
       (orElse (p_role updates) (s_role u))
       (orElse (p_status updates) (s_status u))
       (orElse (p_createdAt updates) (s_createdAt u))
       now
       (orElse (p_maxConcurrentChats updates) (maxConcurrentChats u))
       (orElse (p_currentChatCount updates) (currentChatCount u)))
    (password staff).

Definition updateStaff (st : t) (now : Z) (id : string)
    (updates : PartialStaffUser) : option StaffUser * t :=
  match JsMap.get st id with
  | None => (None, st)
  | Some staff =>
      let updatedStaff := applyUpdates staff updates now in
      (Some (user updatedStaff), JsMap.set st id updatedStaff)
  end.

Definition getAllStaff (st : t) : list StaffUser :=
  map user (JsMap.values st).

Definition getOnlineStaff (st : t) : list StaffUser :=
  map user
    (filter (fun staff => StaffStatus_eqb (s_status (user staff)) online)
       (JsMap.values st)).

(** The [for ... of this.staff.values()] loop of [findByEmail]. *)
Definition findByEmail (st : t) (email : string) : option StaffRow :=
  find (fun staff => String.eqb (s_email (user staff)) email) (JsMap.values st).

End StaffStore.

(** ** StaffService *)

Module StaffService.

Definition updateStatus (st : StaffStore.t) (now : Z) (staffId : string)
    (status : StaffStatus) : option StaffUser * StaffStore.t :=
  StaffStore.updateStaff st now staffId
    (mkPartialStaffUser None None None None (Some status) None None None None).

Definition getAllStaff (st : StaffStore.t) : list StaffUser :=
  StaffStore.getAllStaff st.

Definition getOnlineStaff (st : StaffStore.t) : list StaffUser :=
  StaffStore.getOnlineStaff st.

(** online and not at max capacity *)
Definition getAvailableStaff (st : StaffStore.t) : list StaffUser :=
  let onlineStaff := StaffStore.getOnlineStaff st in
  filter
    (fun staff =>
       StaffStatus_eqb (s_status staff) online
       && (currentChatCount staff <? maxConcurrentChats staff))
    onlineStaff.

Definition assignChat (st : StaffStore.t) (now : Z) (staffId : string)
    : bool * StaffStore.t :=
  match StaffStore.findById st staffId with
  | None => (false, st)
  | Some staff =>
      if currentChatCount staff >=? maxConcurrentChats staff then (false, st)
      else
        let '(_, st') :=
          StaffStore.updateStaff st now staffId
            (mkPartialStaffUser None None None None None None None None
               (Some (currentChatCount staff + 1))) in
        (true, st')
  end.

Definition unassignChat (st : StaffStore.t) (now : Z) (staffId : string)
    : bool * StaffStore.t :=
  match StaffStore.findById st staffId with
  | None => (false, st)
  | Some staff =>
      let '(_, st') :=
        StaffStore.updateStaff st now staffId
          (mkPartialStaffUser None None None None None None None None
             (Some (Z.max 0 (currentChatCount staff - 1)))) in
      (true, st')
  end.

End StaffService.

(** ** Staff sessions: login, logout and tokens

    [InMemoryStaffStore] keeps, beside the staff map, the map from tokens to
    staff identifiers.  [bcrypt.compare] and [jwt.sign] are collaborators. *)

Record StaffLoginResponse := mkStaffLoginResponse {
  lr_token : string;
  lr_user : StaffUser
}.

Module StaffAuth.

Record t := mk {
  staff : StaffStore.t;
  sessions : JsMap.t string     (* token -> staffId *)
}.

Definition createSession (a : t) (token staffId : string) : t :=
  mk (staff a) (JsMap.set (sessions a) token staffId).

Definition getStaffByToken (a : t) (token : string) : option StaffUser :=
  match JsMap.get (sessions a) token with
  | None => None
  | Some staffId =>
      if String.eqb staffId "" then None
      else StaffStore.findById (staff a) staffId
  end.

Definition deleteSession (a : t) (token : string) : t :=
  mk (staff a) (JsMap.delete (sessions a) token).

Section Login.
Variable bcryptCompare : string -> string -> bool.
Variable jwtSign : string -> string -> StaffRole -> Z -> string.

(** [login]; [inl] carries the message of the error that is thrown. *)
Definition login (a : t) (now : Z) (email pass : string)
    : (string + StaffLoginResponse) * t :=
  match StaffStore.findByEmail (staff a) email with
  | None => (inl "Invalid email or password", a)
  | Some row =>
      if negb (bcryptCompare pass (password row))
      then (inl "Invalid email or password", a)
      else
        let u := user row in
        let token := jwtSign (s_id u) (s_email u) (s_role u) now in
        let a1 := createSession a token (s_id u) in
        let '(_, st2) :=
          StaffStore.updateStaff (staff a1) now (s_id u)
            (mkPartialStaffUser None None None None (Some online) None
               (Some now) None None) in
        (inr (mkStaffLoginResponse token
                (mkStaffUser (s_id u) (s_email u) (s_name u) (s_role u) online
                   (s_createdAt u) now (maxConcurrentChats u)
                   (currentChatCount u))),
         mk st2 (sessions a1))
  end.
End Login.

Definition logout (a : t) (now : Z) (token : string) : t :=
  let a1 :=
    match getStaffByToken a token with
    | Some u =>
        mk (snd (StaffStore.updateStaff (staff a) now (s_id u)
                   (mkPartialStaffUser None None None None (Some offline) None
                      None None None)))
           (sessions a)
    | None => a
    end in
  deleteSession a1 token.

End StaffAuth.

(** ** Staff statistics ([GET /api/staff/stats], [routes/staffRoutes.ts])

    The staff part of the response; its [queueStats] field is
    [QueueService.getQueueStats]. *)

Record StaffStats := mkStaffStats {
  totalStaff : Z;
  onlineStaff : Z;
  busyStaff : Z;
  awayStaff : Z;
  totalAssignedChats : Z;
  totalCapacity : Z
}.

Definition countStatus (status : StaffStatus) (allStaff : list StaffUser) : Z :=
  Z.of_nat
    (List.length (filter (fun s => StaffStatus_eqb (s_status s) status) allStaff)).

Definition staffStats (st : StaffStore.t) : StaffStats :=
  let allStaff := StaffService.getAllStaff st in
  mkStaffStats
    (Z.of_nat (List.length allStaff))
    (countStatus online allStaff)
    (countStatus busy allStaff)
    (countStatus away allStaff)
    (fold_left (fun sum s => sum + currentChatCount s) allStaff 0)
    (fold_left (fun sum s => sum + maxConcurrentChats s) allStaff 0).

(** ** Queue and assignment types *)

Inductive Priority := low | medium | high.

Record CustomerInfo := mkCustomerInfo {
  ci_email : option string;
  ci_name : option string;
  ci_userId : option string;
  ci_company : option string;
  ci_context : list (string * string)
}.

Record ChatQueue := mkChatQueue {
  q_id : string;
  q_sessionId : string;
  priority : Priority;
  waitTime : Z;
  q_customerInfo : option CustomerInfo;
  lastMessage : option string;
  q_createdAt : Z
}.

Module AssignmentStatus.
Inductive t := assigned | active | completed.
End AssignmentStatus.

Record StaffAssignment := mkStaffAssignment {
  a_sessionId : string;
  a_staffId : string;
  assignedAt : Z;
  a_status : AssignmentStatus.t
}.

(** [Partial<StaffAssignment>] *)
Record PartialStaffAssignment := mkPartialStaffAssignment {
  pa_sessionId : option string;
  pa_staffId : option string;
  pa_assignedAt : option Z;
  pa_status : option AssignmentStatus.t
}.

(** [{ success, assignment?, error? }] *)
Record AssignResult := mkAssignResult {
  success : bool;
  assignment : option StaffAssignment;
  error : option string
}.

(** ** [Array.prototype.sort] with a comparator

    The sort of the language is stable and, for a consistent comparator,
    returns the sorted arrangement in which elements that compare equal keep
    their order; insertion from the right computes that arrangement. *)

Section ArraySort.
Context {A : Type} (compareFn : A -> A -> Z).

(** [a] may stand before [b] in the sorted array. *)
Definition comesBefore (a b : A) : Prop := compareFn a b <= 0.

Fixpoint sortedInsert (x : A) (l : list A) : list A :=
  match l with
  | [] => [x]
  | y :: r => if compareFn x y <=? 0 then x :: y :: r
              else y :: sortedInsert x r
  end.

Fixpoint Array_sort (l : list A) : list A :=
  match l with
  | [] => []
  | x :: r => sortedInsert x (Array_sort r)
  end.
End ArraySort.

(** ** InMemoryQueueStore *)

Module QueueStore.

Record t := mk {
  queue : JsMap.t ChatQueue;
  assignments : JsMap.t StaffAssignment
}.

Definition empty : t := mk JsMap.empty JsMap.empty.

Definition addToQueue (qs : t) (uuid : string) (now : Z) (sessionId : string)
    (priority : Priority) (customerInfo : option CustomerInfo)
    (lastMessage : option string) : ChatQueue * t :=
  let queueItem :=
    mkChatQueue uuid sessionId priority 0 customerInfo lastMessage now in
  (queueItem, mk (JsMap.set (queue qs) (q_id queueItem) queueItem)
                 (assignments qs)).

(** The [for ... of this.queue.entries()] loop: the first entry, in
    insertion order, whose session matches is deleted by its key. *)
Fixpoint removeLoop (q : JsMap.t ChatQueue)
    (entries : list (string * ChatQueue)) (sessionId : string)
    : bool * JsMap.t ChatQueue :=
  match entries with
  | [] => (false, q)
  | (queueId, item) :: rest =>
      if String.eqb (q_sessionId item) sessionId
      then (true, JsMap.delete q queueId)
      else removeLoop q rest sessionId
  end.

Definition removeFromQueue (qs : t) (sessionId : string) : bool * t :=
  let '(found, q') := removeLoop (queue qs) (JsMap.entries (queue qs)) sessionId in
  (found, mk q' (assignments qs)).

Definition priorityOrder (p : Priority) : Z :=
  match p with high => 3 | medium => 2 | low => 1 end.

(** The comparator of [getQueue]: priority first, then creation time. *)
Definition compareQueue (a b : ChatQueue) : Z :=
  if negb (priorityOrder (priority a) =? priorityOrder (priority b))
  then priorityOrder (priority b) - priorityOrder (priority a)
  else q_createdAt a - q_createdAt b.

Definition withWaitTime (now : Z) (item : ChatQueue) : ChatQueue :=
  mkChatQueue (q_id item) (q_sessionId item) (priority item)
    ((now - q_createdAt item) / 1000)
    (q_customerInfo item) (lastMessage item) (q_createdAt item).

Definition getQueue (qs : t) (now : Z) : list ChatQueue :=
  let items := JsMap.values (queue qs) in
  Array_sort compareQueue (map (withWaitTime now) items).

Definition getQueueLength (qs : t) : Z := JsMap.size (queue qs).

Definition getAverageWaitTime (qs : t) (now : Z) : Z :=
  let items := JsMap.values (queue qs) in
  if Z.of_nat (List.length items) =? 0 then 0
  else
    let totalWaitTime :=
      fold_left (fun sum item => sum + (now - q_createdAt item)) items 0 in
    totalWaitTime / (Z.of_nat (List.length items) * 1000).

Definition assignSession (qs : t) (now : Z) (sessionId staffId : string)
    : StaffAssignment * t :=
  let assignment :=
    mkStaffAssignment sessionId staffId now AssignmentStatus.assigned in
  (assignment, mk (queue qs) (JsMap.set (assignments qs) sessionId assignment)).

Definition getAssignment (qs : t) (sessionId : string)
    : option StaffAssignment :=
  JsMap.get (assignments qs) sessionId.

Definition updateAssignmentStatus (qs : t) (sessionId : string)
    (status : AssignmentStatus.t) : bool * t :=
  match JsMap.get (assignments qs) sessionId with
  | None => (false, qs)
  | Some assignment =>
      let assignment' :=
        mkStaffAssignment (a_sessionId assignment) (a_staffId assignment)
          (assignedAt assignment) status in
      (true, mk (queue qs) (JsMap.set (assignments qs) sessionId assignment'))
  end.

Definition getStaffAssignments (qs : t) (staffId : string)
    : list StaffAssignment :=
  filter (fun assignment => String.eqb (a_staffId assignment) staffId)
    (JsMap.values (assignments qs)).

(** [Object.assign(assignment, updates)] *)
Definition objectAssign (assignment : StaffAssignment)
    (updates : PartialStaffAssignment) : StaffAssignment :=
  mkStaffAssignment
    (orElse (pa_sessionId updates) (a_sessionId assignment))
    (orElse (pa_staffId updates) (a_staffId assignment))
    (orElse (pa_assignedAt updates) (assignedAt assignment))
    (orElse (pa_status updates) (a_status assignment)).

Definition updateAssignment (qs : t) (sessionId : string)
    (updates : PartialStaffAssignment) : bool * t :=
  match JsMap.get (assignments qs) sessionId with
  | None => (false, qs)
  | Some assignment =>
      (true, mk (queue qs)
               (JsMap.set (assignments qs) sessionId
                  (objectAssign assignment updates)))
  end.

End QueueStore.

(** ** QueueService

    The service holds its own queue store and a reference to the staff
    service; the single staff store of the process is reached through it. *)

Module QueueService.

Record t := mk {
  store : QueueStore.t;
  staffService : StaffStore.t
}.

Definition failure (msg : string) : AssignResult :=
  mkAssignResult false None (Some msg).

Definition addToQueue (qs : t) (uuid : string) (now : Z) (sessionId : string)
    (priority : Priority) (customerInfo : option CustomerInfo)
    (lastMessage : option string) : ChatQueue * t :=
  let '(item, store') :=
    QueueStore.addToQueue (store qs) uuid now sessionId priority
      customerInfo lastMessage in
  (item, mk store' (staffService qs)).

Definition removeFromQueue (qs : t) (sessionId : string) : bool * t :=
  let '(found, store') := QueueStore.removeFromQueue (store qs) sessionId in
  (found, mk store' (staffService qs)).

Definition getQueue (qs : t) (now : Z) : list ChatQueue :=
  QueueStore.getQueue (store qs) now.

Record PriorityBreakdown := mkBreakdown {
  pb_high : Z; pb_medium : Z; pb_low : Z
}.

Record QueueStats := mkQueueStats {
  length : Z;
  averageWaitTime : Z;
  priorityBreakdown : PriorityBreakdown
}.

Definition getQueueStats (qs : t) (now : Z) : QueueStats :=
  let queue := QueueStore.getQueue (store qs) now in
  let length := QueueStore.getQueueLength (store qs) in
  let averageWaitTime := QueueStore.getAverageWaitTime (store qs) now in
  let priorityBreakdown :=
    fold_left
      (fun acc item =>
         match priority item with
         | high => mkBreakdown (pb_high acc + 1) (pb_medium acc) (pb_low acc)
         | medium => mkBreakdown (pb_high acc) (pb_medium acc + 1) (pb_low acc)
         | low => mkBreakdown (pb_high acc) (pb_medium acc) (pb_low acc + 1)
         end)
      queue (mkBreakdown 0 0 0) in
  mkQueueStats length averageWaitTime priorityBreakdown.

(** [availableStaff.reduce((best, current) => ...)] without initial value:
    the fold starts from the first candidate. *)
Definition leastLoaded (first : StaffUser) (rest : list StaffUser)
    : StaffUser :=
  fold_left
    (fun best current =>
       if currentChatCount current <? currentChatCount best
       then current else best)
    rest first.

Definition assignNextChat (qs : t) (now : Z) : AssignResult * t :=
  let queue := QueueStore.getQueue (store qs) now in
  match queue with
  | [] => (failure "No chats in queue", qs)
  | nextChat :: _ =>
      let availableStaff :=
        StaffService.getAvailableStaff (staffService qs) in
      match availableStaff with
      | [] => (failure "No available staff", qs)
      | first :: rest =>
          let bestStaff := leastLoaded first rest in
          let '(ok, staff') :=
            StaffService.assignChat (staffService qs) now (s_id bestStaff) in
          if negb ok
          then (failure "Failed to assign chat to staff", mk (store qs) staff')
          else
            let '(assignment, store1) :=
              QueueStore.assignSession (store qs) now
                (q_sessionId nextChat) (s_id bestStaff) in
            let '(_, store2) :=
              QueueStore.removeFromQueue store1 (q_sessionId nextChat) in
            (mkAssignResult true (Some assignment) None, mk store2 staff')
      end
  end.

Definition assignChatToStaff (qs : t) (now : Z) (sessionId staffId : string)
    : AssignResult * t :=
  let staff := StaffService.getAllStaff (staffService qs) in
  match find (fun s => String.eqb (s_id s) staffId) staff with
  | None => (failure "Staff member not found", qs)
  | Some targetStaff =>
      if currentChatCount targetStaff >=? maxConcurrentChats targetStaff
      then (failure "Staff member at maximum capacity", qs)
      else
        let '(ok, staff') :=
          StaffService.assignChat (staffService qs) now staffId in
        if negb ok
        then (failure "Failed to assign chat to staff", mk (store qs) staff')
        else
          let '(assignment, store1) :=
            QueueStore.assignSession (store qs) now sessionId staffId in
          let '(_, store2) := QueueStore.removeFromQueue store1 sessionId in
          (mkAssignResult true (Some assignment) None, mk store2 staff')
  end.

Definition completeAssignment (qs : t) (now : Z) (sessionId : string)
    : bool * t :=
  match QueueStore.getAssignment (store qs) sessionId with
  | None => (false, qs)
  | Some assignment =>
      let '(_, store1) :=
        QueueStore.updateAssignmentStatus (store qs) sessionId
          AssignmentStatus.completed in
      let '(_, staff1) :=
        StaffService.unassignChat (staffService qs) now
          (a_staffId assignment) in
      (true, mk store1 staff1)
  end.

Record TransferResult := mkTransferResult {
  t_success : bool;
  t_error : option string
}.

Definition transferFailure (msg : string) : TransferResult :=
  mkTransferResult false (Some msg).

(** [assignment] is the object held by the store, so the two field writes
    that precede [updateAssignment] land in the store as well. *)
Definition transferChat (qs : t) (now : Z)
    (sessionId fromStaffId toStaffId : string) : TransferResult * t :=
  match QueueStore.getAssignment (store qs) sessionId with
  | None => (transferFailure "Assignment not found or staff mismatch", qs)
  | Some assignment =>
      if negb (String.eqb (a_staffId assignment) fromStaffId)
      then (transferFailure "Assignment not found or staff mismatch", qs)
      else
        let targetStaff := StaffService.getAllStaff (staffService qs) in
        match find (fun s => String.eqb (s_id s) toStaffId) targetStaff with
        | None => (transferFailure "Target staff member not found", qs)
        | Some staff =>
            if currentChatCount staff >=? maxConcurrentChats staff
            then (transferFailure "Target staff member at maximum capacity", qs)
            else
              let '(_, staff1) :=
                StaffService.unassignChat (staffService qs) now fromStaffId in
              let '(ok, staff2) :=
                StaffService.assignChat staff1 now toStaffId in
              if negb ok
              then
                let '(_, staff3) :=
                  StaffService.assignChat staff2 now fromStaffId in
                (transferFailure "Failed to assign to new staff member",
                 mk (store qs) staff3)
              else
                let updates :=
                  mkPartialStaffAssignment None (Some toStaffId) (Some now)
                    None in
                let '(_, store1) :=
                  QueueStore.updateAssignment (store qs) sessionId updates in
                let '(_, store2) :=
                  QueueStore.updateAssignment store1 sessionId updates in
                (mkTransferResult true None, mk store2 staff2)
        end
  end.

Definition getStaffAssignments (qs : t) (staffId : string)
    : list StaffAssignment :=
  QueueStore.getStaffAssignments (store qs) staffId.

Definition getSessionAssignment (qs : t) (sessionId : string)
    : option StaffAssignment :=
  QueueStore.getAssignment (store qs) sessionId.

Definition checkAndAssign (qs : t) (now : Z) : t :=
  let queueStats := getQueueStats qs now in
  if length queueStats >? 0 then
    let availableStaff :=
      StaffService.getAvailableStaff (staffService qs) in
    if Z.of_nat (List.length availableStaff) >? 0
    then snd (assignNextChat qs now)
    else qs
  else qs.

End QueueService.

(** ** Sessions and messages *)

Inductive MessageRole := role_user | role_assistant | role_system.

Record MessageMetadata := mkMessageMetadata {
  md_responseTime : option Z;
  md_tokensUsed : option Z;
  md_confidence : option Q
}.

Record ChatMessage := mkChatMessage {
  m_id : string;
  m_sessionId : string;
  content : string;
  m_role : MessageRole;
  timestamp : Z;
  metadata : option MessageMetadata
}.

Module SessionStatus.
Inductive t := active | resolved | escalated | waiting_for_staff | with_staff.
End SessionStatus.

Record ChatSession := mkChatSession {
  cs_id : string;
  userId : option string;
  cs_customerInfo : option CustomerInfo;
  messages : list ChatMessage;
  cs_status : SessionStatus.t;
  cs_createdAt : Z;
  updatedAt : Z;
  assignedStaff : option string
}.

Record AIMetadata := mkAIMetadata {
  ai_model : string;
  ai_tokensUsed : Z;
  ai_responseTime : Z
}.

Record AIResponse := mkAIResponse {
  ai_content : string;
  ai_confidence : Q;
  ai_metadata : option AIMetadata
}.

(** ** InMemorySessionStore and SessionService *)

Module SessionService.

Record t := mk {
  sessions : JsMap.t ChatSession;
  userSessions : JsMap.t (list string)
}.

Definition empty : t := mk JsMap.empty JsMap.empty.

Definition createSession (ss : t) (uuid : string) (now : Z)
    (customerInfo : option CustomerInfo) : ChatSession * t :=
  let uid := match customerInfo with
             | Some ci => ci_userId ci
             | None => None
             end in
  let session :=
    mkChatSession uuid uid customerInfo [] SessionStatus.active now now None in
  let sessions' := JsMap.set (sessions ss) (cs_id session) session in
  let userSessions' :=
    match uid with
    | Some u =>
        if String.eqb u "" then userSessions ss
        else
          let userSessionIds := orElse (JsMap.get (userSessions ss) u) [] in
          JsMap.set (userSessions ss) u (userSessionIds ++ [cs_id session])
    | None => userSessions ss
    end in
  (session, mk sessions' userSessions').

Definition getSession (ss : t) (sessionId : string) : option ChatSession :=
  JsMap.get (sessions ss) sessionId.

(** [addMessage] of the service builds the message, [addMessage] of the
    store pushes it on the session when the session exists. *)
Definition addMessage (ss : t) (uuid : string) (now : Z) (sessionId : string)
    (content : string) (role : MessageRole)
    (metadata : option MessageMetadata) : ChatMessage * t :=
  let message := mkChatMessage uuid sessionId content role now metadata in
  match JsMap.get (sessions ss) sessionId with
  | Some session =>
      let session' :=
        mkChatSession (cs_id session) (userId session)
          (cs_customerInfo session) (messages session ++ [message])
          (cs_status session) (cs_createdAt session) now
          (assignedStaff session) in
      (message, mk (JsMap.set (sessions ss) sessionId session')
                   (userSessions ss))
  | None => (message, ss)
  end.

(** The session found under [sessionId] is changed in place, then stored
    again under its own [id]. *)
Definition updateSessionStatus (ss : t) (now : Z) (sessionId : string)
    (status : SessionStatus.t) : t :=
  match getSession ss sessionId with
  | Some session =>
      let session' :=
        mkChatSession (cs_id session) (userId session)
          (cs_customerInfo session) (messages session) status
          (cs_createdAt session) now (assignedStaff session) in
      mk (JsMap.set (JsMap.set (sessions ss) sessionId session')
            (cs_id session') session')
         (userSessions ss)
  | None => ss
  end.

Definition roleName (r : MessageRole) : string :=
  match r with
  | role_user => "user"
  | role_assistant => "assistant"
  | role_system => "system"
  end.

(** [messages.slice(-limit)] for a positive [limit] *)
Definition lastN {A} (limit : nat) (l : list A) : list A :=
  skipn (List.length l - limit) l.

Definition getConversationHistory (ss : t) (sessionId : string)
    (limit : nat) : list string :=
  match getSession ss sessionId with
  | None => []
  | Some session =>
      map (fun msg => roleName (m_role msg) ++ ": " ++ content msg)%string
        (lastN limit (messages session))
  end.

Definition getUserSessions (ss : t) (user_id : string) : list ChatSession :=
  let sessionIds := orElse (JsMap.get (userSessions ss) user_id) [] in
  flat_map
    (fun id => match JsMap.get (sessions ss) id with
               | Some session => [session]
               | None => []
               end)
    sessionIds.

Definition deleteSession (ss : t) (sessionId : string) : t :=
  let userSessions' :=
    match JsMap.get (sessions ss) sessionId with
    | Some session =>
        match userId session with
        | Some u =>
            if String.eqb u "" then userSessions ss
            else
              let userSessionIds := orElse (JsMap.get (userSessions ss) u) [] in
              let filteredIds :=
                filter (fun id => negb (String.eqb id sessionId)) userSessionIds in
              JsMap.set (userSessions ss) u filteredIds
        | None => userSessions ss
        end
    | None => userSessions ss
    end in
  mk (JsMap.delete (sessions ss) sessionId) userSessions'.

Definition getAllSessions (ss : t) : list ChatSession :=
  JsMap.values (sessions ss).

Definition SessionStatus_eqb (a b : SessionStatus.t) : bool :=
  match a, b with
  | SessionStatus.active, SessionStatus.active
  | SessionStatus.resolved, SessionStatus.resolved
  | SessionStatus.escalated, SessionStatus.escalated
  | SessionStatus.waiting_for_staff, SessionStatus.waiting_for_staff
  | SessionStatus.with_staff, SessionStatus.with_staff => true
  | _, _ => false
  end.

Definition getSessionsByStatus (ss : t) (status : SessionStatus.t)
    : list ChatSession :=
  filter (fun session => SessionStatus_eqb (cs_status session) status)
    (JsMap.values (sessions ss)).

(** [getOrCreateSession]; [uuid] is used only when a session is created. *)
Definition getOrCreateSession (ss : t) (uuid : string) (now : Z)
    (sessionId : option string) (customerInfo : option CustomerInfo)
    : ChatSession * t :=
  let existing :=
    match sessionId with
    | Some id => if String.eqb id "" then None else getSession ss id
    | None => None
    end in
  match existing with
  | Some existingSession => (existingSession, ss)
  | None => createSession ss uuid now customerInfo
  end.

Record SessionStats := mkSessionStats {
  st_total : Z;
  st_active : Z;
  st_resolved : Z;
  st_escalated : Z
}.

Definition countSessions (status : SessionStatus.t) (l : list ChatSession) : Z :=
  Z.of_nat
    (List.length (filter (fun s => SessionStatus_eqb (cs_status s) status) l)).

Definition getSessionStats (ss : t) : SessionStats :=
  let allSessions := getAllSessions ss in
  mkSessionStats (Z.of_nat (List.length allSessions))
    (countSessions SessionStatus.active allSessions)
    (countSessions SessionStatus.resolved allSessions)
    (countSessions SessionStatus.escalated allSessions).

End SessionService.

(** ** SocketService: the real-time coordinator *)

Inductive SocketRole := socket_staff | socket_customer.

(** A connection with the [socket.data] fields the handlers read. *)
Record Socket := mkSocket {
  socket_id : string;
  data_role : option SocketRole;
  data_staffId : option string;
  data_sessionId : option string
}.

Inductive Target :=
| ToRoom (room : string)                        (* io.to(room) *)
| ToSocket (socketId : string)                  (* io.to(socketId), socket.emit *)
| ToRoomExcept (room : string) (sender : string). (* socket.to(room) *)

Inductive Value :=
| VString (s : string)
| VNumber (n : Z)
| VUndefined
| VStatus (s : StaffStatus)
| VMessage (m : ChatMessage)
| VAssignment (a : StaffAssignment)
| VBreakdown (b : QueueService.PriorityBreakdown).

(** What the coordinator does to the outside: events put on the wire and
    calls into the AI subsystem. *)
Inductive Effect :=
| Emit (target : Target) (event : string) (payload : list (string * Value))
| GenerateResponse (history : list ChatMessage)
    (customerInfo : option CustomerInfo) (knowledgeContext : list string).

Record World := mkWorld {
  queueService : QueueService.t;
  sessionService : SessionService.t;
  staffSockets : JsMap.t string;      (* staffId -> socketId *)
  customerSockets : JsMap.t string;   (* sessionId -> socketId *)
  effects : list Effect               (* oldest first *)
}.

(** JavaScript truthiness of an optional string. *)
Definition truthy (o : option string) : bool :=
  match o with
  | Some s => negb (String.eqb s "")
  | None => false
  end.

Definition optString (o : option string) : Value :=
  match o with Some s => VString s | None => VUndefined end.

Definition isRole (r : SocketRole) (o : option SocketRole) : bool :=
  match r, o with
  | socket_staff, Some socket_staff => true
  | socket_customer, Some socket_customer => true
  | _, _ => false
  end.

(** *** A state monad over [World] for the handlers *)

Definition Handler (A : Type) : Type := World -> A * World.

Definition ret {A} (a : A) : Handler A := fun w => (a, w).

Definition bind {A B} (c : Handler A) (k : A -> Handler B) : Handler B :=
  fun w => let '(a, w') := c w in k a w'.

Notation "x <- c ;; k" := (bind c (fun x => k))
  (at level 61, c at next level, right associativity).
Notation "c ;;; k" := (bind c (fun _ => k))
  (at level 61, right associativity).

Definition perform (e : Effect) : Handler unit :=
  fun w => (tt, mkWorld (queueService w) (sessionService w) (staffSockets w)
                  (customerSockets w) (effects w ++ [e])).

Definition emit (target : Target) (event : string)
    (payload : list (string * Value)) : Handler unit :=
  perform (Emit target event payload).

Definition onQueue {A} (f : QueueService.t -> A * QueueService.t) : Handler A :=
  fun w => let '(a, qs) := f (queueService w) in
           (a, mkWorld qs (sessionService w) (staffSockets w)
                 (customerSockets w) (effects w)).

Definition onSessions {A} (f : SessionService.t -> A * SessionService.t)
    : Handler A :=
  fun w => let '(a, ss) := f (sessionService w) in
           (a, mkWorld (queueService w) ss (staffSockets w)
                 (customerSockets w) (effects w)).

(** [this.staffService] of the coordinator is the object the queue service
    was built with. *)
Definition onStaff {A} (f : StaffStore.t -> A * StaffStore.t) : Handler A :=
  onQueue (fun qs =>
    let '(a, st) := f (QueueService.staffService qs) in
    (a, QueueService.mk (QueueService.store qs) st)).

Definition readWorld {A} (f : World -> A) : Handler A := fun w => (f w, w).

Definition sessionRoom (sessionId : string) : string :=
  ("session_" ++ sessionId)%string.

Definition run {A} (h : Handler A) (w : World) : World := snd (h w).

Section Coordinator.

(** The collaborators outside the hand-off core.  [generateResponse] is
    [None] when the call fails; [getRelevantContext] catches its own
    failures and then yields the empty list. *)
Variable generateResponse :
  list ChatMessage -> option CustomerInfo -> list string -> option AIResponse.
Variable getRelevantContext : string -> list string -> list string.

(** [broadcastQueueUpdate].  The handlers do not await it; it only reads,
    and the statistics are those of the moment of the call. *)
Definition broadcastQueueUpdate (now : Z) : Handler unit :=
  queueStats <- readWorld (fun w => QueueService.getQueueStats (queueService w) now) ;;
  emit (ToRoom "staff") "queue_updated"
    [ ("length", VNumber (QueueService.length queueStats));
      ("averageWaitTime", VNumber (QueueService.averageWaitTime queueStats));
      ("priorityBreakdown", VBreakdown (QueueService.priorityBreakdown queueStats)) ].

(** [socket.on('staff_status_update', ...)] *)
Definition staff_status_update (socket : Socket) (now : Z)
    (status : StaffStatus) : Handler unit :=
  if isRole socket_staff (data_role socket) && truthy (data_staffId socket)
  then
    let staffId := orElse (data_staffId socket) "" in
    onStaff (fun st => StaffService.updateStatus st now staffId status) ;;;
    emit (ToRoom "staff") "staff_status_changed"
      [ ("staffId", VString staffId); ("status", VStatus status) ]
  else ret tt.

(** The part of [send_message] guarded by [data.role === 'customer']. *)
Definition respondToCustomer (now : Z) (uuid : string)
    (sessionId message : string) : Handler unit :=
  session <- readWorld (fun w => SessionService.getSession (sessionService w) sessionId) ;;
  match session with
  | Some session =>
      conversationHistory <-
        readWorld (fun w =>
          SessionService.getConversationHistory (sessionService w) sessionId 5) ;;
      let knowledgeContext := getRelevantContext message conversationHistory in
      perform (GenerateResponse (messages session) (cs_customerInfo session)
                 knowledgeContext) ;;;
      match generateResponse (messages session) (cs_customerInfo session)
              knowledgeContext with
      | Some aiResponse =>
          responseMessage <-
            onSessions (fun ss =>
              SessionService.addMessage ss uuid now sessionId
                (ai_content aiResponse) role_assistant
                (Some (mkMessageMetadata
                         (option_map ai_responseTime (ai_metadata aiResponse))
                         (option_map ai_tokensUsed (ai_metadata aiResponse))
                         (Some (ai_confidence aiResponse))))) ;;
          emit (ToRoom (sessionRoom sessionId)) "new_message"
            [ ("sessionId", VString sessionId);
              ("message", VMessage responseMessage) ]
      | None =>
          errorMessage <-
            onSessions (fun ss =>
              SessionService.addMessage ss uuid now sessionId
                "Sorry, I encountered an error processing your message. Please try again."
                role_assistant None) ;;
          emit (ToRoom (sessionRoom sessionId)) "new_message"
            [ ("sessionId", VString sessionId);
              ("message", VMessage errorMessage) ]
      end
  | None => ret tt
  end.

(** [socket.on('send_message', ...)]; [isStaff] is [data.role === 'staff'],
    otherwise the role is ['customer']. *)
Definition send_message (socket : Socket) (now : Z) (uuid1 uuid2 : string)
    (sessionId message : string) (isStaff : bool) : Handler unit :=
  let messageRole := if isStaff then role_assistant else role_user in
  stored <-
    onSessions (fun ss =>
      SessionService.addMessage ss uuid1 now sessionId message messageRole None) ;;
  emit (ToRoom (sessionRoom sessionId)) "new_message"
    [ ("sessionId", VString sessionId); ("message", VMessage stored) ] ;;;
  (if negb isStaff then respondToCustomer now uuid2 sessionId message
   else ret tt) ;;;
  (if isStaff then
     emit (ToRoomExcept "staff" (socket_id socket)) "staff_message_sent"
       [ ("sessionId", VString sessionId);
         ("staffId", optString (data_staffId socket));
         ("message", VString message) ]
   else ret tt).

(** [socket.on('assign_chat', ...)] *)
Definition assign_chat (socket : Socket) (now : Z) (sessionId : string)
    (staffId : option string) : Handler unit :=
  if negb (isRole socket_staff (data_role socket)) then ret tt
  else
    result <-
      (if truthy staffId
       then onQueue (fun qs =>
              QueueService.assignChatToStaff qs now sessionId (orElse staffId ""))
       else onQueue (fun qs => QueueService.assignNextChat qs now)) ;;
    match success result, assignment result with
    | true, Some assignment =>
        onSessions (fun ss =>
          (tt, SessionService.updateSessionStatus ss now sessionId
                 SessionStatus.with_staff)) ;;;
        staffSocketId <-
          readWorld (fun w => JsMap.get (staffSockets w) (a_staffId assignment)) ;;
        (if truthy staffSocketId
         then emit (ToSocket (orElse staffSocketId "")) "chat_assigned"
                [ ("sessionId", VString sessionId);
                  ("assignment", VAssignment assignment) ]
         else ret tt) ;;;
        emit (ToRoom (sessionRoom sessionId)) "staff_joined"
          [ ("staffId", VString (a_staffId assignment));
            ("message", VString "A support agent has joined the chat") ] ;;;
        broadcastQueueUpdate now
    | _, _ =>
        emit (ToSocket (socket_id socket)) "assignment_failed"
          [ ("error", optString (error result)) ]
    end.

(** [socket.on('complete_chat', ...)] *)
Definition complete_chat (socket : Socket) (now : Z) (sessionId : string)
    : Handler unit :=
  if negb (isRole socket_staff (data_role socket)) then ret tt
  else
    onQueue (fun qs => QueueService.completeAssignment qs now sessionId) ;;;
    onSessions (fun ss =>
      (tt, SessionService.updateSessionStatus ss now sessionId
             SessionStatus.resolved)) ;;;
    emit (ToRoom (sessionRoom sessionId)) "chat_completed"
      [ ("message", VString "This chat has been marked as resolved") ] ;;;
    emit (ToSocket (socket_id socket)) "chat_completed_confirmed"
      [ ("sessionId", VString sessionId) ] ;;;
    broadcastQueueUpdate now.

(** [socket.on('request_staff', ...)] *)
Definition request_staff (socket : Socket) (now : Z) (uuid : string)
    (sessionId : string) (priority : option Priority) : Handler unit :=
  onQueue (fun qs =>
    QueueService.addToQueue qs uuid now sessionId (orElse priority medium)
      None None) ;;;
  onSessions (fun ss =>
    (tt, SessionService.updateSessionStatus ss now sessionId
           SessionStatus.waiting_for_staff)) ;;;
  emit (ToSocket (socket_id socket)) "added_to_queue"
    [ ("message",
       VString "You have been added to the support queue. An agent will be with you shortly.") ] ;;;
  broadcastQueueUpdate now ;;;
  onQueue (fun qs => (tt, QueueService.checkAndAssign qs now)).

(** [socket.on('customer_join', ...)]: the connection is registered for the
    session and its [socket.data] is filled in; the handler returns the
    connection as it is afterwards.  Room membership is not part of [World]:
    an emission is recorded with its target room. *)
Definition customer_join (socket : Socket) (sessionId : string)
    : Handler Socket :=
  fun w =>
    (mkSocket (socket_id socket) (Some socket_customer) (data_staffId socket)
       (Some sessionId),
     mkWorld (queueService w) (sessionService w) (staffSockets w)
       (JsMap.set (customerSockets w) sessionId (socket_id socket))
       (effects w)).

(** [socket.on('transfer_chat', ...)].  A staff connection without a staff
    identifier passes [undefined] as the source, which no assignment
    matches. *)
Definition transfer_chat (socket : Socket) (now : Z)
    (sessionId toStaffId : string) : Handler unit :=
  if negb (isRole socket_staff (data_role socket)) then ret tt
  else
    result <-
      onQueue (fun qs =>
        match data_staffId socket with
        | Some fromStaffId =>
            QueueService.transferChat qs now sessionId fromStaffId toStaffId
        | None =>
            (QueueService.transferFailure
               "Assignment not found or staff mismatch", qs)
        end) ;;
    if QueueService.t_success result then
      fromStaffSocket <-
        readWorld (fun w =>
          match data_staffId socket with
          | Some fromStaffId => JsMap.get (staffSockets w) fromStaffId
          | None => None
          end) ;;
      toStaffSocket <- readWorld (fun w => JsMap.get (staffSockets w) toStaffId) ;;
      (if truthy fromStaffSocket
       then emit (ToSocket (orElse fromStaffSocket "")) "chat_transferred_out"
              [ ("sessionId", VString sessionId);
                ("toStaffId", VString toStaffId) ]
       else ret tt) ;;;
      (if truthy toStaffSocket
       then emit (ToSocket (orElse toStaffSocket "")) "chat_transferred_in"
              [ ("sessionId", VString sessionId);
                ("fromStaffId", optString (data_staffId socket)) ]
       else ret tt) ;;;
      emit (ToRoom (sessionRoom sessionId)) "staff_changed"
        [ ("message",
           VString "Your chat has been transferred to another agent") ]
    else
      emit (ToSocket (socket_id socket)) "transfer_failed"
        [ ("error", optString (QueueService.t_error result)) ].

(** [socket.on('disconnect', ...)] *)
Definition disconnect (socket : Socket) (now : Z) : Handler unit :=
  (if isRole socket_staff (data_role socket) && truthy (data_staffId socket)
   then
     let staffId := orElse (data_staffId socket) "" in
     (fun w =>
        (tt, mkWorld (queueService w) (sessionService w)
               (JsMap.delete (staffSockets w) staffId) (customerSockets w)
               (effects w))) ;;;
     onStaff (fun st => StaffService.updateStatus st now staffId offline) ;;;
     emit (ToRoomExcept "staff" (socket_id socket)) "staff_offline"
       [ ("staffId", VString staffId) ]
   else ret tt) ;;;
  (if isRole socket_customer (data_role socket) && truthy (data_sessionId socket)
   then
     let sessionId := orElse (data_sessionId socket) "" in
     fun w =>
       (tt, mkWorld (queueService w) (sessionService w) (staffSockets w)
              (JsMap.delete (customerSockets w) sessionId) (effects w))
   else ret tt).

End Coordinator.

(** ** AIService: the history sent to the model ([aiService.ts]) *)

Module AIService.

Definition isSystem (msg : ChatMessage) : bool :=
  match m_role msg with role_system => true | _ => false end.

(** [formatMessagesForAI]: system messages are dropped, the last ten of the
    others are kept, each reduced to its role and content. *)
Definition formatMessagesForAI (messages : list ChatMessage)
    : list (MessageRole * string) :=
  map (fun msg => (m_role msg, content msg))
    (SessionService.lastN 10 (filter (fun msg => negb (isSystem msg)) messages)).

End AIService.

(** The number of calls into the AI subsystem among the effects. *)
Definition aiInvocations (es : list Effect) : nat :=
  List.length
    (filter (fun e => match e with GenerateResponse _ _ _ => true | _ => false end)
       es).

(** The effects a [send_message] may have: the message and the reply go to
    the room of the session, only a customer message reaches the AI
    subsystem, and only a staff message is announced to the staff room. *)
Definition messageEffect (sessionId : string) (isStaff : bool) (e : Effect)
    : Prop :=
  match e with
  | Emit (ToRoom room) event _ =>
      room = sessionRoom sessionId /\ event = "new_message"
  | Emit (ToRoomExcept room _) event _ =>
      isStaff = true /\ room = "staff" /\ event = "staff_message_sent"
  | Emit (ToSocket _) _ _ => False
  | GenerateResponse _ _ _ => isStaff = false
  end.

Definition Priority_eqb (a b : Priority) : bool :=
  match a, b with
  | low, low | medium, medium | high, high => true
  | _, _ => false
  end.

(** The number of entries of a priority. *)
Definition countPriority (p : Priority) (items : list ChatQueue) : Z :=
  Z.of_nat
    (List.length (filter (fun item => Priority_eqb (priority item) p) items)).

(** Entries that tie in the order of the queue: same priority, same
    creation instant. *)
Definition tiesWith (p : Priority) (createdAt : Z) (item : ChatQueue) : bool :=
  Priority_eqb (priority item) p && (q_createdAt item =? createdAt).

(** Identifier, load and capacity of every staff member, in store order. *)
Definition loadsOf (st : StaffStore.t) : list (string * Z * Z) :=
  map (fun u => (s_id u, currentChatCount u, maxConcurrentChats u))
    (StaffService.getAllStaff st).

(** ** Invariants and operation sequences *)

(** Representation invariant of a [Map] whose key is a field of the value. *)
Definition keyedBy {V} (key : V -> string) (m : JsMap.t V) : Prop :=
  NoDup (JsMap.keys m) /\ Forall (fun e => fst e = key (snd e)) m.

Definition staffWf (st : StaffStore.t) : Prop :=
  keyedBy (fun row => s_id (user row)) st.

(** [0 <= currentChatCount <= maxConcurrentChats] for every staff member. *)
Definition loadBounded (u : StaffUser) : Prop :=
  0 <= currentChatCount u <= maxConcurrentChats u.

Definition loadInv (st : StaffStore.t) : Prop :=
  Forall (fun row => loadBounded (user row)) (JsMap.values st).

Inductive LoadOp :=
| IncrementLoad (staffId : string)    (* StaffService.assignChat *)
| DecrementLoad (staffId : string).   (* StaffService.unassignChat *)

Definition applyLoadOp (st : StaffStore.t) (now : Z) (op : LoadOp)
    : StaffStore.t :=
  match op with
  | IncrementLoad staffId => snd (StaffService.assignChat st now staffId)
  | DecrementLoad staffId => snd (StaffService.unassignChat st now staffId)
  end.

(** The stores after each call of a sequence of timed calls. *)
Fixpoint loadTrace (st : StaffStore.t) (ops : list (Z * LoadOp))
    : list StaffStore.t :=
  match ops with
  | [] => []
  | (now, op) :: rest =>
      let st' := applyLoadOp st now op in
      st' :: loadTrace st' rest
  end.

Inductive LedgerOp :=
| Create (sessionId staffId : string)                 (* assignChatToStaff *)
| AutoCreate                                          (* assignNextChat *)
| Transfer (sessionId fromStaffId toStaffId : string) (* transferChat *)
| Complete (sessionId : string).                      (* completeAssignment *)

Definition applyLedgerOp (qs : QueueService.t) (now : Z) (op : LedgerOp)
    : QueueService.t :=
  match op with
  | Create sessionId staffId =>
      snd (QueueService.assignChatToStaff qs now sessionId staffId)
  | AutoCreate => snd (QueueService.assignNextChat qs now)
  | Transfer sessionId fromStaffId toStaffId =>
      snd (QueueService.transferChat qs now sessionId fromStaffId toStaffId)
  | Complete sessionId => snd (QueueService.completeAssignment qs now sessionId)
  end.

Definition runLedger (qs : QueueService.t) (ops : list (Z * LedgerOp))
    : QueueService.t :=
  fold_left (fun qs' op => applyLedgerOp qs' (fst op) (snd op)) ops qs.

Definition isCompleted (a : StaffAssignment) : bool :=
  match a_status a with AssignmentStatus.completed => true | _ => false end.

(** The ledger holds each assignment under the key of its session. *)
Definition ledgerKeyed (qs : QueueStore.t) : Prop :=
  keyedBy a_sessionId (QueueStore.assignments qs).

(** An assignment after [updateAssignmentStatus(sessionId, 'completed')]. *)
Definition markCompleted (a : StaffAssignment) : StaffAssignment :=
  mkStaffAssignment (a_sessionId a) (a_staffId a) (assignedAt a)
    AssignmentStatus.completed.

(** The non-completed assignments recorded for a session. *)
Definition nonCompletedFor (qs : QueueStore.t) (sessionId : string)
    : list StaffAssignment :=
  filter (fun a => String.eqb (a_sessionId a) sessionId && negb (isCompleted a))
    (JsMap.values (QueueStore.assignments qs)).

(** The number of queue entries of a session. *)
Definition occurrences (q : JsMap.t ChatQueue) (sessionId : string) : nat :=
  List.length
    (filter (fun item => String.eqb (q_sessionId item) sessionId)
       (JsMap.values q)).

(** A head of the queue in the order of the specification: no entry has a
    higher priority rank, and none of the same rank was created earlier. *)
Definition isQueueHead (h : ChatQueue) (items : list ChatQueue) : Prop :=
  forall item, In item items ->
    QueueStore.priorityOrder (priority item) <= QueueStore.priorityOrder (priority h)
    /\ (QueueStore.priorityOrder (priority item) = QueueStore.priorityOrder (priority h) ->
        q_createdAt h <= q_createdAt item).

Definition isAvailable (u : StaffUser) : bool :=
  StaffStatus_eqb (s_status u) online
  && (currentChatCount u <? maxConcurrentChats u).

(** ** Scenarios *)

Module Scenario.

Definition staffA (count : Z) (status : StaffStatus) : StaffRow :=
  mkStaffRow (mkStaffUser "A" "a@mtom-ai.com" "Agent A" agent status 0 0 5 count)
    "hashA".

Definition staffB (count max : Z) : StaffRow :=
  mkStaffRow (mkStaffUser "B" "b@mtom-ai.com" "Agent B" agent online 0 0 max count)
    "hashB".

(** The store of a fresh process and a few load changes on it. *)
Definition defaultStaff : StaffStore.t :=
  StaffStore.createDefaultStaff "id-admin" "id-agent" "hash1" "hash2" 0.

Definition loadOps : list (Z * LoadOp) :=
  [ (1, IncrementLoad "id-agent"); (2, DecrementLoad "id-agent");
    (3, DecrementLoad "id-agent"); (4, IncrementLoad "id-admin") ].

Definition staffOf (rows : list StaffRow) : StaffStore.t :=
  fold_left (fun m row => JsMap.set m (s_id (user row)) row) rows JsMap.empty.

Definition staffSocket (staffId : string) : Socket :=
  mkSocket ("socket-" ++ staffId)%string (Some socket_staff) (Some staffId) None.

Definition customerSocket (sessionId : string) : Socket :=
  mkSocket ("socket-" ++ sessionId)%string (Some socket_customer) None
    (Some sessionId).

(** A process with the given staff, one session ["S1"] created at instant 0
    and no queue entry or assignment yet. *)
Definition world0 (rows : list StaffRow) : World :=
  mkWorld (QueueService.mk QueueStore.empty (staffOf rows))
    (snd (SessionService.createSession SessionService.empty "S1" 0 None))
    JsMap.empty JsMap.empty [].

Definition cannedAI : list ChatMessage -> option CustomerInfo -> list string
    -> option AIResponse :=
  fun _ _ _ => Some (mkAIResponse "How can I help?" (8 # 10)%Q None).

Definition noContext : string -> list string -> list string :=
  fun _ _ => [].

(** Staff A takes over session S1 through [assign_chat] with an explicit
    staff identifier. *)
Definition handedOver : World :=
  run (assign_chat (staffSocket "A") 10 "S1" (Some "A"))
    (world0 [staffA 0 online]).

(** Then the customer of S1 writes. *)
Definition afterCustomerMessage : World :=
  run (send_message cannedAI noContext (customerSocket "S1") 20 "m1" "m2"
         "S1" "Are you there?" false)
    handedOver.

(** S1 assigned to A, who has two chats in progress. *)
Definition busyA : QueueService.t :=
  snd (QueueService.assignChatToStaff
         (QueueService.mk QueueStore.empty (staffOf [staffA 1 online]))
         10 "S1" "A").

(** S1 assigned to A while B waits with spare capacity. *)
Definition ownedByA : QueueService.t :=
  snd (QueueService.assignChatToStaff
         (QueueService.mk QueueStore.empty
            (staffOf [staffA 0 online; staffB 0 5]))
         10 "S1" "A").

(** S1 assigned to A while B is at capacity. *)
Definition targetFull : QueueService.t :=
  snd (QueueService.assignChatToStaff
         (QueueService.mk QueueStore.empty
            (staffOf [staffA 0 online; staffB 1 1]))
         10 "S1" "A").

(** Three sessions enqueued with priorities low, high, medium. *)
Definition threeQueued (t1 t2 t3 : Z) : QueueService.t :=
  let q0 := QueueService.mk QueueStore.empty (staffOf [staffA 0 online]) in
  let q1 := snd (QueueService.addToQueue q0 "q1" t1 "S-low" low None None) in
  let q2 := snd (QueueService.addToQueue q1 "q2" t2 "S-high" high None None) in
  snd (QueueService.addToQueue q2 "q3" t3 "S-medium" medium None None).

(** One queued session and two equally loaded agents, A stored first. *)
Definition tieQueued : QueueService.t :=
  snd (QueueService.addToQueue
         (QueueService.mk QueueStore.empty
            (staffOf [staffA 1 online; staffB 1 5]))
         "q1" 5 "S1" medium None None).

(** Session S1 asks for staff twice. *)
Definition queuedTwice : QueueService.t :=
  let q0 := QueueService.mk QueueStore.empty (staffOf [staffA 0 online]) in
  let q1 := snd (QueueService.addToQueue q0 "q1" 1 "S1" medium None None) in
  snd (QueueService.addToQueue q1 "q2" 2 "S1" medium None None).

Definition assignedSession (r : AssignResult) : option string :=
  option_map a_sessionId (assignment r).

(** The sessions taken by [n] consecutive automatic assignments. *)
Fixpoint dequeued (n : nat) (qs : QueueService.t) (now : Z)
    : list (option string) :=
  match n with
  | O => []
  | S n' =>
      let '(r, qs') := QueueService.assignNextChat qs now in
      assignedSession r :: dequeued n' qs' now
  end.

(** S1 asks for staff while A is offline; A then comes online. *)
Definition escalatedNoStaff : World :=
  run (request_staff (customerSocket "S1") 10 "q1" "S1" None)
    (world0 [staffA 0 offline]).

Definition staffCameOnline : World :=
  run (staff_status_update (staffSocket "A") 20 online) escalatedNoStaff.

(** S1 and S2 are queued, S1 first; the staff client then sends
    [assign_chat] for S2 without a staff identifier. *)
Definition twoQueued : World :=
  let w0 := world0 [staffA 0 online] in
  let w1 :=
    mkWorld (queueService w0)
      (snd (SessionService.createSession (sessionService w0) "S2" 1 None))
      (staffSockets w0) (customerSockets w0) (effects w0) in
  let enqueue sessionId uuid now w :=
    mkWorld (snd (QueueService.addToQueue (queueService w) uuid now sessionId
                    medium None None))
      (sessionService w) (staffSockets w) (customerSockets w) (effects w) in
  enqueue "S2" "q2" 6 (enqueue "S1" "q1" 5 w1).

(** A fresh staff store without tokens, a password check that accepts the
    password ["agent123"] and a token made from the staff identifier. *)
Definition authStore : StaffAuth.t :=
  StaffAuth.mk defaultStaff JsMap.empty.

Definition checkPassword (pass hash : string) : bool :=
  String.eqb pass "agent123".

Definition tokenFor (staffId email : string) (role : StaffRole) (now : Z)
    : string :=
  ("token-" ++ staffId)%string.

(** S1 asks for staff while A is online with spare capacity. *)
Definition escalatedWithStaff : World :=
  run (request_staff (customerSocket "S1") 10 "q1" "S1" None)
    (world0 [staffA 0 online]).

(** A's connection is registered, as after [staff_authenticate]. *)
Definition connectedA : World :=
  let w := handedOver in
  mkWorld (queueService w) (sessionService w)
    (JsMap.set (staffSockets w) "A" "socket-A") (customerSockets w) (effects w).

End Scenario.

(** * Properties *)

(** ** Facts about [JsMap] *)

Section JsMapFacts.
Context {V : Type}.
Implicit Types (m : JsMap.t V) (k : string) (v : V).

Lemma get_set_same m k v : JsMap.get (JsMap.set m k v) k = Some v.
Proof.
  induction m as [|[k' v'] r IH]; simpl.
  - now rewrite String.eqb_refl.
  - destruct (String.eqb k' k) eqn:E; simpl.
    + now rewrite String.eqb_refl.
    + now rewrite E.
Qed.

Lemma get_set_other m k k' v :
  k <> k' -> JsMap.get (JsMap.set m k v) k' = JsMap.get m k'.
Proof.
  intros Hne. induction m as [|[k0 v0] r IH]; simpl.
  - apply String.eqb_neq in Hne. now rewrite Hne.
  - destruct (String.eqb k0 k) eqn:E; simpl.
    + apply String.eqb_eq in E; subst k0.
      apply String.eqb_neq in Hne. now rewrite Hne.
    + now rewrite IH.
Qed.

Lemma set_stored m k v : JsMap.get m k = Some v -> JsMap.set m k v = m.
Proof.
  induction m as [|[k0 v0] r IH]; simpl; [discriminate|].
  destruct (String.eqb k0 k) eqn:E; intros H.
  - apply String.eqb_eq in E. now inversion H; subst.
  - now rewrite IH.
Qed.

Lemma get_In m k v : JsMap.get m k = Some v -> In (k, v) m.
Proof.
  induction m as [|[k0 v0] r IH]; simpl; [discriminate|].
  destruct (String.eqb k0 k) eqn:E; intros H.
  - apply String.eqb_eq in E. inversion H; subst. now left.
  - right. now apply IH.
Qed.

Lemma get_None_keys m k : JsMap.get m k = None <-> ~ In k (JsMap.keys m).
Proof.
  induction m as [|[k0 v0] r IH]; simpl; [tauto|].
  destruct (String.eqb k0 k) eqn:E.
  - apply String.eqb_eq in E. split; [discriminate | intros H; exfalso; auto].
  - apply String.eqb_neq in E. rewrite IH. tauto.
Qed.

Lemma In_get m k v :
  NoDup (JsMap.keys m) -> In (k, v) m -> JsMap.get m k = Some v.
Proof.
  induction m as [|[k0 v0] r IH]; simpl; [tauto|].
  intros Hnd [Heq | Hin].
  - inversion Heq; subst. now rewrite String.eqb_refl.
  - inversion Hnd as [|? ? Hnot Hnd']; subst.
    destruct (String.eqb k0 k) eqn:E.
    + apply String.eqb_eq in E; subst. exfalso. apply Hnot.
      change k with (fst (k, v)). now apply in_map.
    + now apply IH.
Qed.

Lemma keys_set_present m k v :
  In k (JsMap.keys m) -> JsMap.keys (JsMap.set m k v) = JsMap.keys m.
Proof.
  induction m as [|[k0 v0] r IH]; simpl; [tauto|].
  destruct (String.eqb k0 k) eqn:E; simpl; intros H.
  - apply String.eqb_eq in E. now subst.
  - apply String.eqb_neq in E. f_equal. apply IH. tauto.
Qed.

Lemma set_absent m k v :
  ~ In k (JsMap.keys m) -> JsMap.set m k v = m ++ [(k, v)].
Proof.
  induction m as [|[k0 v0] r IH]; simpl; [reflexivity|].
  intros H. destruct (String.eqb k0 k) eqn:E.
  - apply String.eqb_eq in E. tauto.
  - f_equal. apply IH. tauto.
Qed.

Lemma keys_set_NoDup m k v :
  NoDup (JsMap.keys m) -> NoDup (JsMap.keys (JsMap.set m k v)).
Proof.
  intros Hnd. destruct (in_dec string_dec k (JsMap.keys m)) as [Hin | Hout].
  - now rewrite keys_set_present.
  - rewrite set_absent by assumption. unfold JsMap.keys in *.
    rewrite map_app. simpl. apply NoDup_app; [assumption | | ].
    + constructor; [tauto | constructor].
    + intros x Hx [<- | []]. tauto.
Qed.

Lemma In_set m k v e :
  In e (JsMap.set m k v) -> e = (k, v) \/ In e m.
Proof.
  induction m as [|[k0 v0] r IH]; simpl.
  - intros [H | []]. now left.
  - destruct (String.eqb k0 k); simpl; intros [H | H]; auto.
    destruct (IH H); auto.
Qed.

Lemma Forall_set (P : string * V -> Prop) m k v :
  Forall P m -> P (k, v) -> Forall P (JsMap.set m k v).
Proof.
  intros Hm Hv. apply Forall_forall. intros e He.
  destruct (In_set _ _ _ _ He) as [-> | Hin]; [assumption|].
  now apply (proj1 (Forall_forall P m) Hm).
Qed.

Lemma Forall_values_set (P : V -> Prop) m k v :
  Forall P (JsMap.values m) -> P v -> Forall P (JsMap.values (JsMap.set m k v)).
Proof.
  unfold JsMap.values. rewrite !Forall_map. intros Hm Hv.
  now apply Forall_set.
Qed.

Lemma keyedBy_set (key : V -> string) m k v :
  keyedBy key m -> k = key v -> keyedBy key (JsMap.set m k v).
Proof.
  intros [Hnd Hk] Heq. split.
  - now apply keys_set_NoDup.
  - now apply Forall_set.
Qed.

Lemma In_delete m k e : In e (JsMap.delete m k) -> In e m.
Proof.
  induction m as [|[k0 v0] r IH]; simpl; [tauto|].
  destruct (String.eqb k0 k); simpl; intros H; [now right|].
  destruct H; auto.
Qed.

Lemma keys_delete_NoDup m k :
  NoDup (JsMap.keys m) -> NoDup (JsMap.keys (JsMap.delete m k)).
Proof.
  induction m as [|[k0 v0] r IH]; simpl; [auto|].
  intros Hnd. inversion Hnd as [|? ? Hnot Hnd']; subst.
  destruct (String.eqb k0 k); simpl; [assumption|].
  constructor; [|now apply IH].
  intros Hin. apply Hnot. unfold JsMap.keys in *.
  apply in_map_iff in Hin as [e [He Hin]].
  apply in_map_iff. exists e. split; [assumption|].
  now apply In_delete in Hin.
Qed.

(** In a map keyed by a field, looking a value up by key and searching the
    values for the field find the same entry. *)
Lemma find_keyed (key : V -> string) m k :
  Forall (fun e => fst e = key (snd e)) m ->
  find (fun v => String.eqb (key v) k) (JsMap.values m) = JsMap.get m k.
Proof.
  induction m as [|[k0 v0] r IH]; simpl; [reflexivity|].
  intros H. inversion H as [|? ? Hk Hr]; subst. simpl in Hk. subst k0.
  destruct (String.eqb (key v0) k); [reflexivity | now apply IH].
Qed.
End JsMapFacts.

(** ** Staff directory: load counting *)

Section StaffFacts.
Implicit Types (st : StaffStore.t) (staffId : string).

Lemma findById_get st staffId :
  StaffStore.findById st staffId = option_map user (JsMap.get st staffId).
Proof. unfold StaffStore.findById. now destruct (JsMap.get st staffId). Qed.

(** [assignChat], case by case. *)
Lemma assignChat_cases st now staffId :
  StaffService.assignChat st now staffId =
  match JsMap.get st staffId with
  | None => (false, st)
  | Some row =>
      if currentChatCount (user row) >=? maxConcurrentChats (user row)
      then (false, st)
      else (true,
            JsMap.set st staffId
              (StaffStore.applyUpdates row
                 (mkPartialStaffUser None None None None None None None None
                    (Some (currentChatCount (user row) + 1))) now))
  end.
Proof.
  unfold StaffService.assignChat, StaffStore.findById, StaffStore.updateStaff.
  destruct (JsMap.get st staffId) as [row|]; [|reflexivity].
  now destruct (currentChatCount (user row) >=? maxConcurrentChats (user row)).
Qed.

Lemma unassignChat_cases st now staffId :
  StaffService.unassignChat st now staffId =
  match JsMap.get st staffId with
  | None => (false, st)
  | Some row =>
      (true,
       JsMap.set st staffId
         (StaffStore.applyUpdates row
            (mkPartialStaffUser None None None None None None None None
               (Some (Z.max 0 (currentChatCount (user row) - 1)))) now))
  end.
Proof.
  unfold StaffService.unassignChat, StaffStore.findById, StaffStore.updateStaff.
  now destruct (JsMap.get st staffId) as [row|].
Qed.

Lemma get_loadBounded st staffId row :
  loadInv st -> JsMap.get st staffId = Some row -> loadBounded (user row).
Proof.
  intros Hinv Hget. apply get_In in Hget.
  unfold loadInv in Hinv. rewrite Forall_forall in Hinv.
  apply Hinv. unfold JsMap.values.
  change row with (snd (staffId, row)). now apply in_map.
Qed.

Lemma assignChat_loadInv st now staffId :
  loadInv st -> loadInv (snd (StaffService.assignChat st now staffId)).
Proof.
  intros Hinv. rewrite assignChat_cases.
  destruct (JsMap.get st staffId) as [row|] eqn:Hget; [|assumption].
  destruct (currentChatCount (user row) >=? maxConcurrentChats (user row)) eqn:Hfull;
    [assumption|].
  simpl. apply Forall_values_set; [assumption|].
  pose proof (get_loadBounded _ _ _ Hinv Hget) as Hb.
  unfold loadBounded in *. simpl. lia.
Qed.

Lemma unassignChat_loadInv st now staffId :
  loadInv st -> loadInv (snd (StaffService.unassignChat st now staffId)).
Proof.
  intros Hinv. rewrite unassignChat_cases.
  destruct (JsMap.get st staffId) as [row|] eqn:Hget; [|assumption].
  simpl. apply Forall_values_set; [assumption|].
  pose proof (get_loadBounded _ _ _ Hinv Hget) as Hb.
  unfold loadBounded in *. simpl. lia.
Qed.

Lemma updateStatus_loadInv st now staffId status :
  loadInv st -> loadInv (snd (StaffService.updateStatus st now staffId status)).
Proof.
  intros Hinv. unfold StaffService.updateStatus, StaffStore.updateStaff.
  destruct (JsMap.get st staffId) as [row|] eqn:Hget; [|assumption].
  simpl. apply Forall_values_set; [assumption|].
  exact (get_loadBounded _ _ _ Hinv Hget).
Qed.

Lemma applyLoadOp_loadInv st now op :
  loadInv st -> loadInv (applyLoadOp st now op).
Proof.
  destruct op; simpl; [apply assignChat_loadInv | apply unassignChat_loadInv].
Qed.

(** The staff every store starts with is within bounds. *)
Lemma createDefaultStaff_loadInv id1 id2 hash1 hash2 now :
  loadInv (StaffStore.createDefaultStaff id1 id2 hash1 hash2 now).
Proof.
  unfold StaffStore.createDefaultStaff. simpl.
  rewrite String.eqb_sym.
  destruct (String.eqb id2 id1); repeat constructor; simpl; lia.
Qed.

(** The staff every store starts with is keyed by identifier. *)
Lemma createDefaultStaff_staffWf id1 id2 hash1 hash2 now :
  id1 <> id2 ->
  staffWf (StaffStore.createDefaultStaff id1 id2 hash1 hash2 now).
Proof.
  intros Hne. unfold StaffStore.createDefaultStaff. simpl.
  apply String.eqb_neq in Hne. rewrite Hne. split; simpl.
  - apply String.eqb_neq in Hne.
    repeat constructor; simpl; intuition congruence.
  - repeat constructor.
Qed.

Lemma updateStaff_keyed st now staffId updates :
  p_id updates = None ->
  staffWf st -> staffWf (snd (StaffStore.updateStaff st now staffId updates)).
Proof.
  intros Hid Hwf. unfold StaffStore.updateStaff.
  destruct (JsMap.get st staffId) as [row|] eqn:Hget; [|assumption].
  simpl. apply keyedBy_set; [assumption|].
  simpl. rewrite Hid. simpl.
  destruct Hwf as [_ Hk]. rewrite Forall_forall in Hk.
  exact (Hk _ (get_In _ _ _ Hget)).
Qed.

Lemma updateStatus_staffWf st now staffId status :
  staffWf st -> staffWf (snd (StaffService.updateStatus st now staffId status)).
Proof.
  intros Hwf. unfold StaffService.updateStatus.
  now apply updateStaff_keyed.
Qed.

Lemma assignChat_staffWf st now staffId :
  staffWf st -> staffWf (snd (StaffService.assignChat st now staffId)).
Proof.
  intros Hwf. unfold StaffService.assignChat.
  destruct (StaffStore.findById st staffId) as [staff|]; [|assumption].
  destruct (currentChatCount staff >=? maxConcurrentChats staff); [assumption|].
  match goal with
  | |- context [StaffStore.updateStaff st now staffId ?u] =>
      pose proof (updateStaff_keyed st now staffId u eq_refl Hwf) as H;
      destruct (StaffStore.updateStaff st now staffId u)
  end.
  exact H.
Qed.

Lemma unassignChat_staffWf st now staffId :
  staffWf st -> staffWf (snd (StaffService.unassignChat st now staffId)).
Proof.
  intros Hwf. unfold StaffService.unassignChat.
  destruct (StaffStore.findById st staffId) as [staff|]; [|assumption].
  match goal with
  | |- context [StaffStore.updateStaff st now staffId ?u] =>
      pose proof (updateStaff_keyed st now staffId u eq_refl Hwf) as H;
      destruct (StaffStore.updateStaff st now staffId u)
  end.
  exact H.
Qed.
End StaffFacts.

(** C5.  Starting from a staff store within bounds (such as the one the
    process creates), after every call of any sequence of [assignChat]
    (incrementLoad) and [unassignChat] (decrementLoad) calls, for any staff
    members, every staff member satisfies
    [0 <= currentChatCount <= maxConcurrentChats]; [assignChat] on a member
    whose count has reached the maximum returns [false] and leaves the store
    as it was, and the count [unassignChat] leaves is never below zero. *)
Theorem load_count_bounded (st : StaffStore.t) (ops : list (Z * LoadOp)) :
  loadInv st ->
  Forall loadInv (loadTrace st ops)
  /\ (forall now staffId staff,
        StaffStore.findById st staffId = Some staff ->
        maxConcurrentChats staff <= currentChatCount staff ->
        StaffService.assignChat st now staffId = (false, st))
  /\ (forall now staffId staff',
        StaffStore.findById (snd (StaffService.unassignChat st now staffId)) staffId
          = Some staff' ->
        0 <= currentChatCount staff').
Proof.
  intros Hinv. split; [|split].
  - revert st Hinv. induction ops as [|[now op] rest IH]; intros st Hinv; simpl.
    + constructor.
    + pose proof (applyLoadOp_loadInv st now op Hinv) as Hstep.
      constructor; [assumption | now apply IH].
  - intros now staffId staff Hfind Hfull.
    unfold StaffService.assignChat. rewrite Hfind.
    destruct (currentChatCount staff >=? maxConcurrentChats staff) eqn:E;
      [reflexivity | lia].
  - intros now staffId staff'. rewrite unassignChat_cases, findById_get.
    destruct (JsMap.get st staffId) as [row|] eqn:Hget; simpl.
    + rewrite get_set_same. simpl. intros H; inversion H; subst; simpl. lia.
    + rewrite Hget. discriminate.
Qed.

Lemma load_count_bounded_witness :
  loadInv Scenario.defaultStaff
  /\ Forall loadInv (loadTrace Scenario.defaultStaff Scenario.loadOps).
Proof.
  assert (H : loadInv Scenario.defaultStaff)
    by (repeat constructor; simpl; lia).
  split; [exact H | exact (proj1 (load_count_bounded _ Scenario.loadOps H))].
Defined.

(** ** The queue: ordering *)

Section SortFacts.
Context {A : Type} (compareFn : A -> A -> Z).

Local Abbreviation before := (comesBefore compareFn).

Hypothesis before_trans : forall a b c, before a b -> before b c -> before a c.
Hypothesis before_total : forall a b, 0 < compareFn a b -> before b a.

Lemma In_sortedInsert x y l :
  In y (sortedInsert compareFn x l) <-> y = x \/ In y l.
Proof.
  induction l as [|z r IH]; simpl.
  - intuition.
  - destruct (compareFn x z <=? 0); simpl; [intuition|].
    rewrite IH. intuition.
Qed.

Lemma In_Array_sort y l : In y (Array_sort compareFn l) <-> In y l.
Proof.
  induction l as [|x r IH]; simpl; [tauto|].
  rewrite In_sortedInsert, IH. intuition.
Qed.

Lemma length_sortedInsert x l :
  List.length (sortedInsert compareFn x l) = S (List.length l).
Proof.
  induction l as [|z r IH]; simpl; [reflexivity|].
  destruct (compareFn x z <=? 0); simpl; [reflexivity | now rewrite IH].
Qed.

Lemma length_Array_sort l :
  List.length (Array_sort compareFn l) = List.length l.
Proof.
  induction l as [|x r IH]; simpl; [reflexivity|].
  now rewrite length_sortedInsert, IH.
Qed.

Lemma sortedInsert_perm x l : Permutation (sortedInsert compareFn x l) (x :: l).
Proof.
  induction l as [|z r IH]; simpl; [reflexivity|].
  destruct (compareFn x z <=? 0); [reflexivity|].
  rewrite IH. apply perm_swap.
Qed.

(** The sort rearranges the array. *)
Lemma Array_sort_perm l : Permutation (Array_sort compareFn l) l.
Proof.
  induction l as [|x r IH]; simpl; [reflexivity|].
  rewrite sortedInsert_perm. now constructor.
Qed.

Lemma sortedInsert_sorted x l :
  StronglySorted before l -> StronglySorted before (sortedInsert compareFn x l).
Proof.
  induction 1 as [|z r Hr IH Hz]; simpl.
  - repeat constructor.
  - destruct (compareFn x z <=? 0) eqn:E.
    + apply Z.leb_le in E.
      constructor; [now constructor|].
      constructor; [exact E|].
      rewrite Forall_forall in *. intros y Hy.
      apply before_trans with z; [exact E | now apply Hz].
    + apply Z.leb_gt in E.
      constructor; [exact IH|].
      rewrite Forall_forall in *. intros y Hy.
      apply In_sortedInsert in Hy as [-> | Hy];
        [now apply before_total | now apply Hz].
Qed.

Lemma Array_sort_sorted l : StronglySorted before (Array_sort compareFn l).
Proof.
  induction l as [|x r IH]; simpl; [constructor | now apply sortedInsert_sorted].
Qed.

(** The first element of the sorted array comes before every other one. *)
Lemma Array_sort_head l h rest :
  Array_sort compareFn l = h :: rest ->
  In h l /\ forall y, In y l -> y = h \/ before h y.
Proof.
  intros Hs. split.
  - apply In_Array_sort. rewrite Hs. now left.
  - intros y Hy. apply In_Array_sort in Hy. rewrite Hs in Hy.
    destruct Hy as [-> | Hy]; [now left | right].
    pose proof (Array_sort_sorted l) as Hsorted. rewrite Hs in Hsorted.
    inversion Hsorted as [|? ? _ Hall]; subst.
    rewrite Forall_forall in Hall. now apply Hall.
Qed.
End SortFacts.

Section QueueOrder.
Import QueueStore.

Lemma compareQueue_before a b :
  compareQueue a b <= 0 <->
  priorityOrder (priority b) < priorityOrder (priority a)
  \/ (priorityOrder (priority a) = priorityOrder (priority b)
      /\ q_createdAt a <= q_createdAt b).
Proof.
  unfold compareQueue.
  destruct (priorityOrder (priority a) =? priorityOrder (priority b)) eqn:E; simpl.
  - apply Z.eqb_eq in E. lia.
  - apply Z.eqb_neq in E. lia.
Qed.

Lemma compareQueue_trans a b c :
  compareQueue a b <= 0 -> compareQueue b c <= 0 -> compareQueue a c <= 0.
Proof. rewrite !compareQueue_before. lia. Qed.

Lemma compareQueue_total a b : 0 < compareQueue a b -> compareQueue b a <= 0.
Proof.
  intros H. apply compareQueue_before.
  assert (~ compareQueue a b <= 0) as Hn by lia.
  rewrite compareQueue_before in Hn. lia.
Qed.

Lemma getQueue_length qs now :
  List.length (getQueue qs now) = List.length (queue qs).
Proof.
  unfold getQueue, JsMap.values.
  now rewrite length_Array_sort, !length_map.
Qed.

Lemma getQueue_head qs now h rest :
  getQueue qs now = h :: rest ->
  (exists item, In item (JsMap.values (queue qs)) /\ h = withWaitTime now item)
  /\ isQueueHead h (JsMap.values (queue qs)).
Proof.
  unfold getQueue. intros Hs.
  destruct (Array_sort_head compareQueue compareQueue_trans compareQueue_total
              _ _ _ Hs) as [Hin Hmin].
  split.
  - apply in_map_iff in Hin as [item [<- Hitem]]. now exists item.
  - intros item Hitem.
    assert (In (withWaitTime now item)
              (map (withWaitTime now) (JsMap.values (queue qs))))
      as Hin' by now apply in_map.
    destruct (Hmin _ Hin') as [<- | Hb]; simpl; [lia|].
    apply compareQueue_before in Hb. simpl in Hb. lia.
Qed.
End QueueOrder.

(** ** Automatic assignment *)

Section AutoAssign.
Import QueueService.

Lemma leastLoaded_cons best current rest :
  leastLoaded best (current :: rest) =
  leastLoaded
    (if currentChatCount current <? currentChatCount best then current else best)
    rest.
Proof. reflexivity. Qed.

Lemma leastLoaded_split_gen rest : forall pre best post,
  (forall s, In s pre -> currentChatCount best < currentChatCount s) ->
  (forall s, In s post -> currentChatCount best <= currentChatCount s) ->
  exists pre' post',
    pre ++ best :: post ++ rest = pre' ++ leastLoaded best rest :: post'
    /\ (forall s, In s pre' ->
          currentChatCount (leastLoaded best rest) < currentChatCount s)
    /\ (forall s, In s post' ->
          currentChatCount (leastLoaded best rest) <= currentChatCount s).
Proof.
  induction rest as [|current rest IH]; intros pre best post Hpre Hpost.
  - exists pre, post. rewrite app_nil_r. auto.
  - rewrite leastLoaded_cons.
    destruct (currentChatCount current <? currentChatCount best) eqn:E.
    + apply Z.ltb_lt in E.
      destruct (IH (pre ++ best :: post) current []) as (pre' & post' & Heq & H1 & H2).
      * intros s Hs. apply in_app_or in Hs as [Hs | [<- | Hs]];
          [specialize (Hpre _ Hs) | | specialize (Hpost _ Hs)]; lia.
      * intros s [].
      * exists pre', post'. split; [|split]; try assumption.
        rewrite <- Heq. simpl. now rewrite <- app_assoc.
    + apply Z.ltb_ge in E.
      destruct (IH pre best (post ++ [current])) as (pre' & post' & Heq & H1 & H2).
      * assumption.
      * intros s Hs. apply in_app_or in Hs as [Hs | [<- | []]];
          [now apply Hpost | lia].
      * exists pre', post'. split; [|split]; try assumption.
        rewrite <- Heq. now rewrite <- app_assoc.
Qed.

(** [reduce] returns the first candidate of minimal load. *)
Lemma leastLoaded_split first rest :
  exists pre post,
    first :: rest = pre ++ leastLoaded first rest :: post
    /\ (forall s, In s pre ->
          currentChatCount (leastLoaded first rest) < currentChatCount s)
    /\ (forall s, In s post ->
          currentChatCount (leastLoaded first rest) <= currentChatCount s).
Proof.
  destruct (leastLoaded_split_gen rest [] first []) as (pre & post & Heq & H);
    [intros s [] | intros s [] |].
  exists pre, post. split; [exact Heq | exact H].
Qed.

(** What a successful [assignNextChat] did. *)
Lemma assignNextChat_success qs now r qs' :
  assignNextChat qs now = (r, qs') -> success r = true ->
  exists nextChat rest first others,
    QueueStore.getQueue (store qs) now = nextChat :: rest
    /\ StaffService.getAvailableStaff (staffService qs) = first :: others
    /\ StaffService.assignChat (staffService qs) now
         (s_id (leastLoaded first others)) = (true, staffService qs')
    /\ r = mkAssignResult true
             (Some (mkStaffAssignment (q_sessionId nextChat)
                      (s_id (leastLoaded first others)) now
                      AssignmentStatus.assigned))
             None
    /\ store qs' =
         snd (QueueStore.removeFromQueue
                (snd (QueueStore.assignSession (store qs) now
                        (q_sessionId nextChat) (s_id (leastLoaded first others))))
                (q_sessionId nextChat)).
Proof.
  unfold assignNextChat. intros Hrun Hok.
  destruct (QueueStore.getQueue (store qs) now) as [|nextChat rest] eqn:Hq.
  { inversion Hrun; subst. discriminate. }
  destruct (StaffService.getAvailableStaff (staffService qs))
    as [|first others] eqn:Hav.
  { inversion Hrun; subst. discriminate. }
  destruct (StaffService.assignChat (staffService qs) now
              (s_id (leastLoaded first others))) as [ok staff'] eqn:Hassign.
  destruct ok; simpl in Hrun.
  - destruct (QueueStore.removeFromQueue _ _) as [found store2] eqn:Hrem in Hrun.
    inversion Hrun; subst. simpl.
    exists nextChat, rest, first, others.
    repeat split; try reflexivity; try assumption.
    unfold QueueStore.assignSession. cbn [snd].
    now rewrite Hrem.
  - inversion Hrun; subst. discriminate.
Qed.
End AutoAssign.

(** C6.  The sorted queue has as many entries as the queue; its first entry
    is a queue entry (with its wait time filled in) such that no entry has a
    higher priority rank (high = 3, medium = 2, low = 1) and no entry of the
    same rank was enqueued earlier; a successful [assignNextChat] assigns the
    session of that first entry; and after enqueuing three sessions with
    priorities low, high, medium in that order, three automatic assignments
    take them in the order high, medium, low. *)
Theorem queue_head_order :
  (forall qs now,
      List.length (QueueStore.getQueue qs now)
      = List.length (QueueStore.queue qs))
  /\ (forall qs now h rest,
        QueueStore.getQueue qs now = h :: rest ->
        (exists item, In item (JsMap.values (QueueStore.queue qs))
                      /\ h = QueueStore.withWaitTime now item)
        /\ isQueueHead h (JsMap.values (QueueStore.queue qs)))
  /\ (forall qs now r qs',
        QueueService.assignNextChat qs now = (r, qs') -> success r = true ->
        exists h rest a,
          QueueStore.getQueue (QueueService.store qs) now = h :: rest
          /\ assignment r = Some a
          /\ a_sessionId a = q_sessionId h)
  /\ (forall t1 t2 t3 now,
        Scenario.dequeued 3 (Scenario.threeQueued t1 t2 t3) now
        = [Some "S-high"; Some "S-medium"; Some "S-low"]).
Proof.
  split; [exact getQueue_length|].
  split; [exact getQueue_head|].
  split.
  - intros qs now r qs' Hrun Hok.
    destruct (assignNextChat_success _ _ _ _ Hrun Hok)
      as (nextChat & rest & first & others & Hq & _ & _ & -> & _).
    exists nextChat, rest. eexists.
    split; [exact Hq|]. split; reflexivity.
  - intros t1 t2 t3 now. vm_compute. reflexivity.
Qed.

Lemma queue_head_order_witness :
  exists h rest,
    QueueStore.getQueue (QueueService.store (Scenario.threeQueued 1 2 3)) 10
    = h :: rest
    /\ q_sessionId h = "S-high"
    /\ isQueueHead h
         (JsMap.values
            (QueueStore.queue (QueueService.store (Scenario.threeQueued 1 2 3)))).
Proof.
  eexists. eexists. split; [vm_compute; reflexivity|].
  split; [reflexivity|].
  refine (proj2 (proj1 (proj2 queue_head_order) _ 10 _ _ _)).
  vm_compute. reflexivity.
Defined.

(** ** Candidate pool and least-loaded routing *)

Lemma filter_map_filter {A B} (p : B -> bool) (q : A -> bool) (f : A -> B) l :
  (forall x, p (f x) = true -> q x = true) ->
  filter p (map f (filter q l)) = filter p (map f l).
Proof.
  intros Hpq. induction l as [|x r IH]; simpl; [reflexivity|].
  destruct (q x) eqn:Hq; simpl; rewrite IH; [reflexivity|].
  destruct (p (f x)) eqn:Hp; [|reflexivity].
  rewrite (Hpq _ Hp) in Hq. discriminate.
Qed.

Lemma getAvailableStaff_filter st :
  StaffService.getAvailableStaff st
  = filter isAvailable (StaffService.getAllStaff st).
Proof.
  unfold StaffService.getAvailableStaff, StaffStore.getOnlineStaff,
    StaffService.getAllStaff, StaffStore.getAllStaff.
  apply (filter_map_filter isAvailable).
  intros row H. unfold isAvailable in H.
  now apply andb_true_iff in H as [H _].
Qed.

(** A candidate of a well-formed store can always take one more chat. *)
Lemma assignChat_available st now s :
  staffWf st -> In s (StaffService.getAvailableStaff st) ->
  fst (StaffService.assignChat st now (s_id s)) = true.
Proof.
  intros [Hnd Hkey] Hin. rewrite getAvailableStaff_filter in Hin.
  apply filter_In in Hin as [Hin Hav].
  unfold StaffService.getAllStaff, StaffStore.getAllStaff, JsMap.values in Hin.
  apply in_map_iff in Hin as [row [<- Hin]].
  apply in_map_iff in Hin as [[k row'] [Hrow Hin]]. simpl in Hrow. subst row'.
  rewrite Forall_forall in Hkey. pose proof (Hkey _ Hin) as Hk. simpl in Hk.
  subst k. rewrite assignChat_cases, (In_get _ _ _ Hnd Hin).
  unfold isAvailable in Hav. apply andb_true_iff in Hav as [_ Hlt].
  apply Z.ltb_lt in Hlt.
  destruct (currentChatCount (user row) >=? maxConcurrentChats (user row)) eqn:E;
    [lia | reflexivity].
Qed.

(** C9.  The candidate pool of automatic assignment is exactly the staff
    members, in store order, with status online and
    [currentChatCount < maxConcurrentChats]; a successful [assignNextChat]
    assigns to a candidate of minimum [currentChatCount], namely the first
    such candidate in store order (the deterministic tie-break); with a
    nonempty queue it succeeds whenever the pool of a well-formed store is
    nonempty and reports 'No available staff' when the pool is empty. *)
Theorem auto_assign_least_loaded :
  (forall st,
      StaffService.getAvailableStaff st
      = filter isAvailable (StaffService.getAllStaff st))
  /\ (forall qs now r qs',
        QueueService.assignNextChat qs now = (r, qs') -> success r = true ->
        exists a pre best post,
          assignment r = Some a
          /\ a_staffId a = s_id best
          /\ StaffService.getAvailableStaff (QueueService.staffService qs)
             = pre ++ best :: post
          /\ (forall s, In s pre -> currentChatCount best < currentChatCount s)
          /\ (forall s, In s post -> currentChatCount best <= currentChatCount s))
  /\ (forall qs now,
        staffWf (QueueService.staffService qs) ->
        QueueStore.queue (QueueService.store qs) <> [] ->
        StaffService.getAvailableStaff (QueueService.staffService qs) <> [] ->
        success (fst (QueueService.assignNextChat qs now)) = true)
  /\ (forall qs now,
        QueueStore.queue (QueueService.store qs) <> [] ->
        StaffService.getAvailableStaff (QueueService.staffService qs) = [] ->
        QueueService.assignNextChat qs now
        = (QueueService.failure "No available staff", qs)).
Proof.
  split; [exact getAvailableStaff_filter|].
  split; [|split].
  - intros qs now r qs' Hrun Hok.
    destruct (assignNextChat_success _ _ _ _ Hrun Hok)
      as (nextChat & rest & first & others & _ & Hav & _ & -> & _).
    destruct (leastLoaded_split first others) as (pre & post & Heq & Hpre & Hpost).
    eexists. exists pre, (QueueService.leastLoaded first others), post.
    rewrite Hav. repeat split; assumption.
  - intros qs now Hwf Hq Hav. unfold QueueService.assignNextChat.
    pose proof (getQueue_length (QueueService.store qs) now) as Hlen.
    destruct (QueueStore.getQueue (QueueService.store qs) now)
      as [|nextChat rest].
    { destruct (QueueStore.queue (QueueService.store qs)); [tauto | discriminate]. }
    destruct (StaffService.getAvailableStaff (QueueService.staffService qs))
      as [|first others] eqn:Hpool; [tauto|].
    destruct (leastLoaded_split first others) as (pre & post & Heq & _).
    assert (In (QueueService.leastLoaded first others)
              (StaffService.getAvailableStaff (QueueService.staffService qs)))
      as Hin by (rewrite Hpool, Heq; apply in_elt).
    pose proof (assignChat_available _ now _ Hwf Hin) as Hok.
    destruct (StaffService.assignChat (QueueService.staffService qs) now
                (s_id (QueueService.leastLoaded first others))) as [ok staff'].
    simpl in Hok. subst ok. simpl.
    now destruct (QueueStore.removeFromQueue _ _).
  - intros qs now Hq Hav. unfold QueueService.assignNextChat.
    pose proof (getQueue_length (QueueService.store qs) now) as Hlen.
    destruct (QueueStore.getQueue (QueueService.store qs) now)
      as [|nextChat rest].
    { destruct (QueueStore.queue (QueueService.store qs)); [tauto | discriminate]. }
    now rewrite Hav.
Qed.

Lemma auto_assign_least_loaded_witness :
  exists a pre best post,
    assignment (fst (QueueService.assignNextChat Scenario.tieQueued 10)) = Some a
    /\ a_staffId a = s_id best
    /\ StaffService.getAvailableStaff (QueueService.staffService Scenario.tieQueued)
       = pre ++ best :: post
    /\ (forall s, In s pre -> currentChatCount best < currentChatCount s)
    /\ (forall s, In s post -> currentChatCount best <= currentChatCount s).
Proof.
  refine (proj1 (proj2 auto_assign_least_loaded) Scenario.tieQueued 10 _
            (snd (QueueService.assignNextChat Scenario.tieQueued 10)) _ _).
  - vm_compute. reflexivity.
  - vm_compute. reflexivity.
Defined.

(** ** The assignment ledger *)

Section LedgerFacts.
Import QueueService.

Lemma find_map {A B} (p : B -> bool) (f : A -> B) l :
  find p (map f l) = option_map f (find (fun x => p (f x)) l).
Proof.
  induction l as [|x r IH]; simpl; [reflexivity|].
  now destruct (p (f x)).
Qed.

(** In a well-formed store, searching all staff by identifier is the lookup
    by key. *)
Lemma find_staff st staffId :
  staffWf st ->
  find (fun s => String.eqb (s_id s) staffId) (StaffService.getAllStaff st)
  = StaffStore.findById st staffId.
Proof.
  intros [_ Hkey].
  unfold StaffService.getAllStaff, StaffStore.getAllStaff.
  rewrite find_map, findById_get.
  now rewrite (find_keyed (fun row => s_id (user row)) st staffId Hkey).
Qed.

(** Once the target passed the capacity check of [transferChat], taking the
    chat from the source cannot make the increment on the target fail. *)
Lemma transfer_increment_succeeds st now fromStaffId toStaffId target :
  loadInv st ->
  StaffStore.findById st toStaffId = Some target ->
  currentChatCount target < maxConcurrentChats target ->
  fst (StaffService.assignChat
         (snd (StaffService.unassignChat st now fromStaffId)) now toStaffId)
  = true.
Proof.
  intros Hinv Hfind Hlt. rewrite findById_get in Hfind.
  destruct (JsMap.get st toStaffId) as [row|] eqn:Hto; [|discriminate].
  simpl in Hfind. inversion Hfind; subst target.
  rewrite unassignChat_cases.
  destruct (JsMap.get st fromStaffId) as [rowF|] eqn:Hfrom; simpl.
  - rewrite assignChat_cases.
    destruct (string_dec fromStaffId toStaffId) as [-> | Hne].
    + rewrite get_set_same. simpl.
      rewrite Hto in Hfrom. inversion Hfrom; subst rowF.
      pose proof (get_loadBounded _ _ _ Hinv Hto) as Hb. unfold loadBounded in Hb.
      destruct (Z.max 0 (currentChatCount (user row) - 1)
                >=? maxConcurrentChats (user row)) eqn:E; [lia | reflexivity].
    + rewrite get_set_other by assumption. rewrite Hto.
      destruct (currentChatCount (user row) >=? maxConcurrentChats (user row)) eqn:E;
        [lia | reflexivity].
  - rewrite assignChat_cases, Hto.
    destruct (currentChatCount (user row) >=? maxConcurrentChats (user row)) eqn:E;
      [lia | reflexivity].
Qed.
End LedgerFacts.

(** C7.  In a well-formed staff store within bounds, [transferChat] fails
    with 'Assignment not found or staff mismatch' when the current
    assignment's staff member differs from [fromStaffId], fails with 'Target
    staff member at maximum capacity' when the owner matches and the target
    is at capacity, and every failing transfer leaves the assignment records,
    the queue and all load counts exactly as they were, so the source staff
    member still holds the chat. *)
Theorem transferChat_failure_atomic
    (qs : QueueService.t) (now : Z) (sessionId fromStaffId toStaffId : string) :
  staffWf (QueueService.staffService qs) ->
  loadInv (QueueService.staffService qs) ->
  (forall a,
      QueueStore.getAssignment (QueueService.store qs) sessionId = Some a ->
      a_staffId a <> fromStaffId ->
      fst (QueueService.transferChat qs now sessionId fromStaffId toStaffId)
      = QueueService.transferFailure "Assignment not found or staff mismatch")
  /\ (forall a target,
        QueueStore.getAssignment (QueueService.store qs) sessionId = Some a ->
        a_staffId a = fromStaffId ->
        StaffStore.findById (QueueService.staffService qs) toStaffId = Some target ->
        maxConcurrentChats target <= currentChatCount target ->
        fst (QueueService.transferChat qs now sessionId fromStaffId toStaffId)
        = QueueService.transferFailure "Target staff member at maximum capacity")
  /\ (QueueService.t_success
        (fst (QueueService.transferChat qs now sessionId fromStaffId toStaffId))
      = false ->
      snd (QueueService.transferChat qs now sessionId fromStaffId toStaffId) = qs).
Proof.
  intros Hwf Hinv. unfold QueueService.transferChat.
  rewrite (find_staff _ toStaffId Hwf).
  split; [|split].
  - intros a Ha Hne. rewrite Ha.
    apply String.eqb_neq in Hne. now rewrite Hne.
  - intros a target Ha Heq Hfind Hfull. rewrite Ha, Hfind.
    apply String.eqb_eq in Heq. rewrite Heq. simpl.
    destruct (currentChatCount target >=? maxConcurrentChats target) eqn:E;
      [reflexivity | lia].
  - destruct (QueueStore.getAssignment (QueueService.store qs) sessionId)
      as [a|]; [|reflexivity].
    destruct (String.eqb (a_staffId a) fromStaffId); [|reflexivity]. simpl.
    destruct (StaffStore.findById (QueueService.staffService qs) toStaffId)
      as [target|] eqn:Hfind; [|reflexivity].
    destruct (currentChatCount target >=? maxConcurrentChats target) eqn:E;
      [reflexivity|].
    rewrite Z.geb_leb in E. apply Z.leb_gt in E.
    pose proof (transfer_increment_succeeds _ now fromStaffId toStaffId _
                  Hinv Hfind E) as Hok.
    destruct (StaffService.unassignChat (QueueService.staffService qs) now
                fromStaffId) as [b1 staff1].
    simpl in Hok.
    destruct (StaffService.assignChat staff1 now toStaffId) as [ok staff2].
    simpl in Hok. subst ok. simpl.
    destruct (QueueStore.updateAssignment (QueueService.store qs) sessionId _)
      as [b2 store1].
    destruct (QueueStore.updateAssignment store1 sessionId _) as [b3 store2].
    simpl. discriminate.
Qed.

Lemma transferChat_failure_atomic_witness :
  staffWf (QueueService.staffService Scenario.targetFull)
  /\ loadInv (QueueService.staffService Scenario.targetFull)
  /\ fst (QueueService.transferChat Scenario.targetFull 20 "S1" "A" "B")
     = QueueService.transferFailure "Target staff member at maximum capacity"
  /\ snd (QueueService.transferChat Scenario.targetFull 20 "S1" "A" "B")
     = Scenario.targetFull.
Proof.
  assert (Hwf : staffWf (QueueService.staffService Scenario.targetFull)).
  { split; simpl.
    - repeat constructor; simpl; intuition discriminate.
    - repeat constructor. }
  assert (Hinv : loadInv (QueueService.staffService Scenario.targetFull))
    by (repeat constructor; simpl; lia).
  pose proof (transferChat_failure_atomic Scenario.targetFull 20 "S1" "A" "B"
                Hwf Hinv) as (_ & Hcap & Hatomic).
  split; [exact Hwf|]. split; [exact Hinv|]. split.
  - eapply Hcap; [reflexivity | reflexivity | reflexivity | simpl; lia].
  - apply Hatomic. reflexivity.
Defined.

Section CompletionFacts.
Import QueueService.

(** [completeAssignment] on a session that has an assignment. *)
Lemma completeAssignment_found qs now sessionId a :
  QueueStore.getAssignment (store qs) sessionId = Some a ->
  completeAssignment qs now sessionId
  = (true,
     mk (QueueStore.mk (QueueStore.queue (store qs))
           (JsMap.set (QueueStore.assignments (store qs)) sessionId
              (markCompleted a)))
        (snd (StaffService.unassignChat (staffService qs) now (a_staffId a)))).
Proof.
  intros Ha. unfold completeAssignment. rewrite Ha.
  unfold QueueStore.updateAssignmentStatus.
  unfold QueueStore.getAssignment in Ha. rewrite Ha.
  now destruct (StaffService.unassignChat (staffService qs) now (a_staffId a)).
Qed.

Lemma unassignChat_count st now staffId row :
  JsMap.get st staffId = Some row ->
  exists row',
    JsMap.get (snd (StaffService.unassignChat st now staffId)) staffId = Some row'
    /\ currentChatCount (user row') = Z.max 0 (currentChatCount (user row) - 1).
Proof.
  intros Hget. rewrite unassignChat_cases, Hget. simpl.
  rewrite get_set_same. eexists. split; reflexivity.
Qed.

(** A transfer that passes the checks is carried out, whatever the status
    of the assignment. *)
Lemma transferChat_carried_out qs now sessionId fromStaffId toStaffId a target :
  staffWf (staffService qs) -> loadInv (staffService qs) ->
  QueueStore.getAssignment (store qs) sessionId = Some a ->
  a_staffId a = fromStaffId ->
  StaffStore.findById (staffService qs) toStaffId = Some target ->
  currentChatCount target < maxConcurrentChats target ->
  fst (transferChat qs now sessionId fromStaffId toStaffId)
    = mkTransferResult true None
  /\ QueueStore.getAssignment
       (store (snd (transferChat qs now sessionId fromStaffId toStaffId)))
       sessionId
     = Some (mkStaffAssignment (a_sessionId a) toStaffId now (a_status a)).
Proof.
  intros Hwf Hinv Ha Hfrom Hfind Hlt. unfold transferChat.
  rewrite (find_staff _ toStaffId Hwf), Ha, Hfind.
  apply String.eqb_eq in Hfrom. rewrite Hfrom. simpl.
  destruct (currentChatCount target >=? maxConcurrentChats target) eqn:E; [lia|].
  pose proof (transfer_increment_succeeds _ now fromStaffId toStaffId _
                Hinv Hfind Hlt) as Hok.
  destruct (StaffService.unassignChat (staffService qs) now fromStaffId)
    as [b1 staff1].
  simpl in Hok.
  destruct (StaffService.assignChat staff1 now toStaffId) as [ok staff2].
  simpl in Hok. subst ok. simpl.
  unfold QueueStore.updateAssignment.
  unfold QueueStore.getAssignment in Ha. rewrite Ha.
  simpl. rewrite get_set_same. simpl.
  split; [reflexivity|].
  unfold QueueStore.getAssignment. simpl. now rewrite get_set_same.
Qed.
End CompletionFacts.

(** C2, counterexample.  A holds two chats and S1 is assigned to A: one
    completion of S1 leaves A with one chat, a second completion of the same
    session leaves A with none, so the load is decremented twice. *)
Lemma completion_twice_decrements_twice :
  option_map currentChatCount
    (StaffStore.findById (QueueService.staffService Scenario.busyA) "A")
  = Some 2
  /\ option_map currentChatCount
       (StaffStore.findById
          (QueueService.staffService
             (snd (QueueService.completeAssignment Scenario.busyA 20 "S1")))
          "A")
     = Some 1
  /\ option_map currentChatCount
       (StaffStore.findById
          (QueueService.staffService
             (snd (QueueService.completeAssignment
                     (snd (QueueService.completeAssignment Scenario.busyA 20 "S1"))
                     30 "S1")))
          "A")
     = Some 0.
Proof. repeat split; vm_compute; reflexivity. Qed.

(** C2, as the code has it.  For a session with an assignment to a known
    staff member, [completeAssignment] returns [true] on the first call and
    on a repeated call; the assignment ends 'completed' and the second call
    leaves the assignment records unchanged; but each call decrements the
    staff member's [currentChatCount] by one, floored at zero, so after two
    calls the count is [max 0 (max 0 (c - 1) - 1)].  A later [transferChat]
    of a completed session whose owner and target pass the checks is carried
    out like any other transfer. *)
Theorem completeAssignment_repeated
    (qs : QueueService.t) (now1 now2 : Z) (sessionId : string)
    (a : StaffAssignment) (row : StaffRow) :
  QueueStore.getAssignment (QueueService.store qs) sessionId = Some a ->
  JsMap.get (QueueService.staffService qs) (a_staffId a) = Some row ->
  fst (QueueService.completeAssignment qs now1 sessionId) = true
  /\ fst (QueueService.completeAssignment
            (snd (QueueService.completeAssignment qs now1 sessionId))
            now2 sessionId) = true
  /\ QueueStore.getAssignment
       (QueueService.store (snd (QueueService.completeAssignment qs now1 sessionId)))
       sessionId
     = Some (markCompleted a)
  /\ QueueService.store
       (snd (QueueService.completeAssignment
               (snd (QueueService.completeAssignment qs now1 sessionId))
               now2 sessionId))
     = QueueService.store (snd (QueueService.completeAssignment qs now1 sessionId))
  /\ option_map currentChatCount
       (StaffStore.findById
          (QueueService.staffService
             (snd (QueueService.completeAssignment qs now1 sessionId)))
          (a_staffId a))
     = Some (Z.max 0 (currentChatCount (user row) - 1))
  /\ option_map currentChatCount
       (StaffStore.findById
          (QueueService.staffService
             (snd (QueueService.completeAssignment
                     (snd (QueueService.completeAssignment qs now1 sessionId))
                     now2 sessionId)))
          (a_staffId a))
     = Some (Z.max 0 (Z.max 0 (currentChatCount (user row) - 1) - 1))
  /\ (forall now3 toStaffId target,
        staffWf (QueueService.staffService qs) ->
        loadInv (QueueService.staffService qs) ->
        a_status a = AssignmentStatus.completed ->
        StaffStore.findById (QueueService.staffService qs) toStaffId = Some target ->
        currentChatCount target < maxConcurrentChats target ->
        fst (QueueService.transferChat qs now3 sessionId (a_staffId a) toStaffId)
        = QueueService.mkTransferResult true None).
Proof.
  intros Ha Hrow.
  pose proof (completeAssignment_found qs now1 sessionId a Ha) as H1.
  destruct (QueueService.completeAssignment qs now1 sessionId) as [ok1 qs1].
  injection H1 as Hok1 Hqs1. cbn [fst snd].
  assert (Ha1 : QueueStore.getAssignment (QueueService.store qs1) sessionId
                = Some (markCompleted a)).
  { rewrite Hqs1. unfold QueueStore.getAssignment. simpl. apply get_set_same. }
  rewrite (completeAssignment_found qs1 now2 sessionId _ Ha1).
  cbn [fst snd QueueService.store QueueService.staffService].
  rewrite Hqs1.
  cbn [fst snd QueueService.store QueueService.staffService].
  destruct (unassignChat_count _ now1 _ _ Hrow) as (row1 & Hget1 & Hc1).
  destruct (unassignChat_count _ now2 _ _ Hget1) as (row2 & Hget2 & Hc2).
  repeat split.
  - exact Hok1.
  - unfold QueueStore.getAssignment. simpl. apply get_set_same.
  - cbn [QueueStore.queue QueueStore.assignments]. f_equal.
    apply set_stored. apply get_set_same.
  - rewrite findById_get, Hget1. simpl. now rewrite Hc1.
  - rewrite findById_get. cbn [markCompleted a_staffId].
    rewrite Hget2. simpl. now rewrite Hc2, Hc1.
  - intros now3 toStaffId target Hwf Hinv _ Hfind Hlt.
    now destruct (transferChat_carried_out qs now3 sessionId (a_staffId a)
                    toStaffId a target Hwf Hinv Ha eq_refl Hfind Hlt).
Qed.

Lemma completeAssignment_repeated_witness :
  fst (QueueService.completeAssignment Scenario.busyA 20 "S1") = true
  /\ fst (QueueService.completeAssignment
            (snd (QueueService.completeAssignment Scenario.busyA 20 "S1"))
            30 "S1") = true.
Proof.
  pose proof (completeAssignment_repeated Scenario.busyA 20 30 "S1"
                (mkStaffAssignment "S1" "A" 10 AssignmentStatus.assigned)
                (mkStaffRow
                   (mkStaffUser "A" "a@mtom-ai.com" "Agent A" agent online
                      0 10 5 2) "hashA")
                eq_refl eq_refl) as (H1 & H2 & _).
  split; [exact H1 | exact H2].
Defined.

(** ** The ledger is keyed by session *)

Section LedgerKeyed.
Import QueueService.

Lemma removeFromQueue_assignments qs sessionId :
  QueueStore.assignments (snd (QueueStore.removeFromQueue qs sessionId))
  = QueueStore.assignments qs.
Proof.
  unfold QueueStore.removeFromQueue.
  now destruct (QueueStore.removeLoop _ _ _).
Qed.

Lemma assignSession_keyed qs now sessionId staffId :
  ledgerKeyed qs ->
  ledgerKeyed (snd (QueueStore.assignSession qs now sessionId staffId)).
Proof. intros H. simpl. now apply keyedBy_set. Qed.

Lemma removeFromQueue_keyed qs sessionId :
  ledgerKeyed qs -> ledgerKeyed (snd (QueueStore.removeFromQueue qs sessionId)).
Proof. unfold ledgerKeyed. now rewrite removeFromQueue_assignments. Qed.

Lemma stored_session qs sessionId a :
  ledgerKeyed qs ->
  JsMap.get (QueueStore.assignments qs) sessionId = Some a ->
  sessionId = a_sessionId a.
Proof.
  intros [_ Hk] Hget. rewrite Forall_forall in Hk.
  exact (Hk _ (get_In _ _ _ Hget)).
Qed.

Lemma updateAssignmentStatus_keyed qs sessionId status :
  ledgerKeyed qs ->
  ledgerKeyed (snd (QueueStore.updateAssignmentStatus qs sessionId status)).
Proof.
  intros H. unfold QueueStore.updateAssignmentStatus.
  destruct (JsMap.get (QueueStore.assignments qs) sessionId) as [a|] eqn:Hget;
    [|assumption].
  simpl. apply keyedBy_set; [assumption|]. simpl.
  now apply stored_session with qs.
Qed.

Lemma updateAssignment_keyed qs sessionId updates :
  pa_sessionId updates = None ->
  ledgerKeyed qs ->
  ledgerKeyed (snd (QueueStore.updateAssignment qs sessionId updates)).
Proof.
  intros Hnone H. unfold QueueStore.updateAssignment.
  destruct (JsMap.get (QueueStore.assignments qs) sessionId) as [a|] eqn:Hget;
    [|assumption].
  simpl. apply keyedBy_set; [assumption|]. simpl. rewrite Hnone. simpl.
  now apply stored_session with qs.
Qed.

Lemma assignNextChat_keyed qs now :
  ledgerKeyed (store qs) -> ledgerKeyed (store (snd (assignNextChat qs now))).
Proof.
  intros H. unfold assignNextChat.
  destruct (QueueStore.getQueue (store qs) now) as [|nextChat rest]; [assumption|].
  destruct (StaffService.getAvailableStaff (staffService qs)) as [|first others];
    [assumption|].
  destruct (StaffService.assignChat _ _ _) as [[|] staff']; simpl; [|assumption].
  pose proof (removeFromQueue_keyed _ (q_sessionId nextChat)
                (assignSession_keyed (store qs) now (q_sessionId nextChat)
                   (s_id (leastLoaded first others)) H)) as Hk.
  simpl in Hk. now destruct (QueueStore.removeFromQueue _ _).
Qed.

Lemma assignChatToStaff_keyed qs now sessionId staffId :
  ledgerKeyed (store qs) ->
  ledgerKeyed (store (snd (assignChatToStaff qs now sessionId staffId))).
Proof.
  intros H. unfold assignChatToStaff.
  destruct (find _ _) as [targetStaff|]; [|assumption].
  destruct (currentChatCount targetStaff >=? maxConcurrentChats targetStaff);
    [assumption|].
  destruct (StaffService.assignChat _ _ _) as [[|] staff']; simpl; [|assumption].
  pose proof (removeFromQueue_keyed _ sessionId
                (assignSession_keyed (store qs) now sessionId staffId H)) as Hk.
  simpl in Hk. now destruct (QueueStore.removeFromQueue _ _).
Qed.

Lemma completeAssignment_keyed qs now sessionId :
  ledgerKeyed (store qs) ->
  ledgerKeyed (store (snd (completeAssignment qs now sessionId))).
Proof.
  intros H. unfold completeAssignment.
  destruct (QueueStore.getAssignment (store qs) sessionId) as [a|]; [|assumption].
  pose proof (updateAssignmentStatus_keyed (store qs) sessionId
                AssignmentStatus.completed H) as Hk.
  destruct (QueueStore.updateAssignmentStatus _ _ _) as [b store1].
  now destruct (StaffService.unassignChat _ _ _).
Qed.

Lemma transferChat_keyed qs now sessionId fromStaffId toStaffId :
  ledgerKeyed (store qs) ->
  ledgerKeyed (store (snd (transferChat qs now sessionId fromStaffId toStaffId))).
Proof.
  intros H. unfold transferChat.
  destruct (QueueStore.getAssignment (store qs) sessionId) as [a|]; [|assumption].
  destruct (negb _); [assumption|].
  destruct (find _ _) as [staff|]; [|assumption].
  destruct (currentChatCount staff >=? maxConcurrentChats staff); [assumption|].
  destruct (StaffService.unassignChat _ _ _) as [b1 staff1].
  destruct (StaffService.assignChat staff1 now toStaffId) as [[|] staff2]; simpl.
  - pose proof (updateAssignment_keyed (store qs) sessionId
                  (mkPartialStaffAssignment None (Some toStaffId) (Some now) None)
                  eq_refl H) as Hk1.
    destruct (QueueStore.updateAssignment (store qs) sessionId _) as [b2 store1].
    pose proof (updateAssignment_keyed store1 sessionId
                  (mkPartialStaffAssignment None (Some toStaffId) (Some now) None)
                  eq_refl Hk1) as Hk2.
    now destruct (QueueStore.updateAssignment store1 sessionId _).
  - now destruct (StaffService.assignChat staff2 now fromStaffId).
Qed.

Lemma runLedger_keyed ops : forall qs,
  ledgerKeyed (store qs) -> ledgerKeyed (store (runLedger qs ops)).
Proof.
  induction ops as [|[now op] rest IH]; intros qs H; [exact H|].
  unfold runLedger. simpl. apply IH.
  destruct op; simpl;
    [ apply assignChatToStaff_keyed | apply assignNextChat_keyed
    | apply transferChat_keyed | apply completeAssignment_keyed ];
    exact H.
Qed.

Lemma filter_none {A} (q : A -> bool) l :
  (forall y, In y l -> q y = false) -> filter q l = [].
Proof.
  induction l as [|x r IH]; simpl; intros H; [reflexivity|].
  rewrite (H x) by now left. apply IH. intros y Hy. apply H. now right.
Qed.

Lemma filter_key_unique {A} (f : A -> string) (p : A -> bool) k l :
  NoDup (map f l) ->
  (List.length (filter (fun x => String.eqb (f x) k && p x) l) <= 1)%nat.
Proof.
  induction l as [|x r IH]; simpl; intros Hnd; [lia|].
  inversion Hnd as [|? ? Hnot Hnd']; subst.
  destruct (String.eqb (f x) k) eqn:E; simpl; [|now apply IH].
  apply String.eqb_eq in E.
  assert (filter (fun y => String.eqb (f y) k && p y) r = []) as Hnone.
  { apply filter_none.
    intros y Hy. destruct (String.eqb (f y) k) eqn:Ey; [|reflexivity].
    apply String.eqb_eq in Ey. exfalso. apply Hnot.
    rewrite E, <- Ey. now apply in_map. }
  destruct (p x); simpl; rewrite Hnone; simpl; lia.
Qed.

Lemma keyed_one_per_session qs sessionId :
  ledgerKeyed qs -> (List.length (nonCompletedFor qs sessionId) <= 1)%nat.
Proof.
  intros [Hnd Hk]. unfold nonCompletedFor.
  apply (filter_key_unique a_sessionId (fun a => negb (isCompleted a))).
  unfold JsMap.values. rewrite map_map.
  replace (map (fun e => a_sessionId (snd e)) (QueueStore.assignments qs))
    with (JsMap.keys (QueueStore.assignments qs)); [assumption|].
  unfold JsMap.keys. apply map_ext_in. intros e He.
  rewrite Forall_forall in Hk. now apply Hk.
Qed.

(** [assignChatToStaff] when the target exists and has spare capacity. *)
Lemma assignChatToStaff_carried_out qs now sessionId staffId target :
  staffWf (staffService qs) ->
  StaffStore.findById (staffService qs) staffId = Some target ->
  currentChatCount target < maxConcurrentChats target ->
  fst (assignChatToStaff qs now sessionId staffId)
    = mkAssignResult true
        (Some (mkStaffAssignment sessionId staffId now AssignmentStatus.assigned))
        None
  /\ QueueStore.getAssignment
       (store (snd (assignChatToStaff qs now sessionId staffId))) sessionId
     = Some (mkStaffAssignment sessionId staffId now AssignmentStatus.assigned)
  /\ option_map currentChatCount
       (StaffStore.findById
          (staffService (snd (assignChatToStaff qs now sessionId staffId)))
          staffId)
     = Some (currentChatCount target + 1)
  /\ (forall other, other <> staffId ->
        StaffStore.findById
          (staffService (snd (assignChatToStaff qs now sessionId staffId))) other
        = StaffStore.findById (staffService qs) other).
Proof.
  intros Hwf Hfind Hlt. unfold assignChatToStaff.
  rewrite (find_staff _ staffId Hwf), Hfind.
  destruct (currentChatCount target >=? maxConcurrentChats target) eqn:E; [lia|].
  rewrite assignChat_cases. rewrite findById_get in Hfind.
  destruct (JsMap.get (staffService qs) staffId) as [row|] eqn:Hget;
    [|discriminate].
  simpl in Hfind. injection Hfind as Hrow. rewrite Hrow, E. simpl.
  pose proof (removeFromQueue_assignments
                (snd (QueueStore.assignSession (store qs) now sessionId staffId))
                sessionId) as Hsame.
  simpl in Hsame.
  destruct (QueueStore.removeFromQueue _ _) as [found store2]. simpl in *.
  repeat split.
  - unfold QueueStore.getAssignment. rewrite Hsame. apply get_set_same.
  - rewrite findById_get, get_set_same. reflexivity.
  - intros other Hother. rewrite !findById_get.
    now rewrite get_set_other by congruence.
Qed.
End LedgerKeyed.

(** C3, counterexample.  S1 is assigned to A and not completed; creating
    an assignment of S1 to B succeeds, the ledger then records B, and both A
    and B count the chat. *)
Lemma create_for_other_staff_succeeds :
  option_map a_staffId
    (QueueStore.getAssignment (QueueService.store Scenario.ownedByA) "S1")
  = Some "A"
  /\ List.length (nonCompletedFor (QueueService.store Scenario.ownedByA) "S1")
     = 1%nat
  /\ success (fst (QueueService.assignChatToStaff Scenario.ownedByA 20 "S1" "B"))
     = true
  /\ option_map a_staffId
       (QueueStore.getAssignment
          (QueueService.store
             (snd (QueueService.assignChatToStaff Scenario.ownedByA 20 "S1" "B")))
          "S1")
     = Some "B"
  /\ map currentChatCount
       (StaffService.getAllStaff
          (QueueService.staffService
             (snd (QueueService.assignChatToStaff Scenario.ownedByA 20 "S1" "B"))))
     = [1; 1].
Proof. repeat split; vm_compute; reflexivity. Qed.

(** C3, as the code has it.  Creating an assignment ([assignChatToStaff])
    never fails because the session already has one: whenever the target
    staff member exists and is below capacity the call succeeds, the ledger
    record of the session is replaced by a new 'assigned' record for the
    target, the target's load grows by one (also when the target already
    owns the session) and every other staff member's load is unchanged.
    The ledger is keyed by session, so after any sequence of create,
    automatic create, transfer and complete operations it holds at most one
    non-completed assignment per session. *)
Theorem create_replaces_assignment :
  (forall qs now sessionId staffId target,
      staffWf (QueueService.staffService qs) ->
      StaffStore.findById (QueueService.staffService qs) staffId = Some target ->
      currentChatCount target < maxConcurrentChats target ->
      fst (QueueService.assignChatToStaff qs now sessionId staffId)
        = mkAssignResult true
            (Some (mkStaffAssignment sessionId staffId now
                     AssignmentStatus.assigned))
            None
      /\ QueueStore.getAssignment
           (QueueService.store
              (snd (QueueService.assignChatToStaff qs now sessionId staffId)))
           sessionId
         = Some (mkStaffAssignment sessionId staffId now AssignmentStatus.assigned)
      /\ option_map currentChatCount
           (StaffStore.findById
              (QueueService.staffService
                 (snd (QueueService.assignChatToStaff qs now sessionId staffId)))
              staffId)
         = Some (currentChatCount target + 1)
      /\ (forall other, other <> staffId ->
            StaffStore.findById
              (QueueService.staffService
                 (snd (QueueService.assignChatToStaff qs now sessionId staffId)))
              other
            = StaffStore.findById (QueueService.staffService qs) other))
  /\ (forall qs ops sessionId,
        ledgerKeyed (QueueService.store qs) ->
        ledgerKeyed (QueueService.store (runLedger qs ops))
        /\ (List.length
              (nonCompletedFor (QueueService.store (runLedger qs ops)) sessionId)
            <= 1)%nat).
Proof.
  split.
  - exact assignChatToStaff_carried_out.
  - intros qs ops sessionId H.
    pose proof (runLedger_keyed ops qs H) as Hk.
    split; [exact Hk | now apply keyed_one_per_session].
Qed.

Lemma create_replaces_assignment_witness :
  fst (QueueService.assignChatToStaff Scenario.ownedByA 20 "S1" "B")
  = mkAssignResult true
      (Some (mkStaffAssignment "S1" "B" 20 AssignmentStatus.assigned)) None.
Proof.
  assert (Hwf : staffWf (QueueService.staffService Scenario.ownedByA)).
  { split; simpl.
    - repeat constructor; simpl; intuition discriminate.
    - repeat constructor. }
  refine (proj1 (proj1 create_replaces_assignment Scenario.ownedByA 20 "S1" "B"
                   (user (Scenario.staffB 0 5)) Hwf _ _)).
  - reflexivity.
  - simpl. lia.
Defined.

(** ** The queue: entries per session *)

Section QueueEntries.

Lemma occurrences_app q1 q2 sessionId :
  occurrences (q1 ++ q2) sessionId
  = (occurrences q1 sessionId + occurrences q2 sessionId)%nat.
Proof.
  unfold occurrences, JsMap.values.
  now rewrite map_app, filter_app, length_app.
Qed.

Lemma removeLoop_find q entries sessionId :
  QueueStore.removeLoop q entries sessionId
  = match find (fun e => String.eqb (q_sessionId (snd e)) sessionId) entries with
    | Some e => (true, JsMap.delete q (fst e))
    | None => (false, q)
    end.
Proof.
  induction entries as [|[queueId item] rest IH]; simpl; [reflexivity|].
  now destruct (String.eqb (q_sessionId item) sessionId).
Qed.

Lemma occurrences_delete q k item sessionId :
  JsMap.get q k = Some item ->
  occurrences q sessionId
  = ((if String.eqb (q_sessionId item) sessionId then 1 else 0)
     + occurrences (JsMap.delete q k) sessionId)%nat.
Proof.
  induction q as [|[k0 v0] r IH]; simpl; [discriminate|].
  destruct (String.eqb k0 k) eqn:E; intros Hget.
  - injection Hget as ->. unfold occurrences. simpl.
    now destruct (String.eqb (q_sessionId item) sessionId).
  - specialize (IH Hget). unfold occurrences in *. simpl.
    destruct (String.eqb (q_sessionId v0) sessionId); simpl; lia.
Qed.

Lemma occurrences_none q sessionId :
  find (fun e => String.eqb (q_sessionId (snd e)) sessionId) q = None ->
  occurrences q sessionId = 0%nat.
Proof.
  intros Hnone. unfold occurrences. rewrite filter_none; [reflexivity|].
  intros item Hin. unfold JsMap.values in Hin.
  apply in_map_iff in Hin as [e [<- He]].
  exact (find_none _ _ Hnone e He).
Qed.
End QueueEntries.

(** C4, counterexample.  Session S1 is enqueued twice: both calls store an
    entry and the queue then holds two entries of S1. *)
Lemma enqueue_present_session_adds_entry :
  occurrences (QueueStore.queue (QueueService.store Scenario.queuedTwice)) "S1"
  = 2%nat
  /\ map q_sessionId
       (QueueService.getQueue Scenario.queuedTwice 10) = ["S1"; "S1"].
Proof. split; vm_compute; reflexivity. Qed.

(** C4, as the code has it.  [addToQueue] never fails and performs no
    membership check: with a newly generated entry identifier it appends one
    entry for the session, also when the session is already queued, so the
    number of entries of that session grows by one (other sessions keep
    theirs) and a session identifier can appear more than once.
    [removeFromQueue] takes one entry of the session away when there is one
    and reports whether it did. *)
Theorem addToQueue_always_adds
    (qs : QueueService.t) (uuid : string) (now : Z) (sessionId : string)
    (p : Priority) (customerInfo : option CustomerInfo)
    (lastMessage : option string) :
  NoDup (JsMap.keys (QueueStore.queue (QueueService.store qs))) ->
  ~ In uuid (JsMap.keys (QueueStore.queue (QueueService.store qs))) ->
  fst (QueueService.addToQueue qs uuid now sessionId p customerInfo lastMessage)
    = mkChatQueue uuid sessionId p 0 customerInfo lastMessage now
  /\ NoDup (JsMap.keys
              (QueueStore.queue
                 (QueueService.store
                    (snd (QueueService.addToQueue qs uuid now sessionId p
                            customerInfo lastMessage)))))
  /\ (forall s,
        occurrences
          (QueueStore.queue
             (QueueService.store
                (snd (QueueService.addToQueue qs uuid now sessionId p
                        customerInfo lastMessage)))) s
        = ((if String.eqb sessionId s then 1 else 0)
           + occurrences (QueueStore.queue (QueueService.store qs)) s)%nat)
  /\ (forall s,
        fst (QueueService.removeFromQueue qs s)
          = negb (Nat.eqb (occurrences (QueueStore.queue (QueueService.store qs)) s) 0)
        /\ occurrences
             (QueueStore.queue
                (QueueService.store (snd (QueueService.removeFromQueue qs s)))) s
           = pred (occurrences (QueueStore.queue (QueueService.store qs)) s)).
Proof.
  intros Hnd Hfresh. split; [reflexivity|].
  unfold QueueService.addToQueue, QueueStore.addToQueue. simpl.
  split; [now apply keys_set_NoDup|]. split.
  - intros s. rewrite set_absent by assumption.
    rewrite occurrences_app. unfold occurrences at 2. simpl.
    destruct (String.eqb sessionId s); simpl; lia.
  - intros s.
    unfold QueueService.removeFromQueue, QueueStore.removeFromQueue.
    rewrite removeLoop_find. unfold JsMap.entries.
    destruct (find _ (QueueStore.queue (QueueService.store qs)))
      as [[k item]|] eqn:Hfind; simpl.
    + destruct (find_some _ _ Hfind) as [Hin Hs]. simpl in Hs.
      pose proof (occurrences_delete _ _ _ s (In_get _ _ _ Hnd Hin)) as Hocc.
      rewrite Hs in Hocc. rewrite Hocc. simpl. split; reflexivity.
    + rewrite (occurrences_none _ _ Hfind). split; reflexivity.
Qed.

Lemma addToQueue_always_adds_witness :
  occurrences
    (QueueStore.queue
       (QueueService.store
          (snd (QueueService.addToQueue Scenario.queuedTwice "q3" 3 "S1" low
                  None None)))) "S1"
  = 3%nat.
Proof.
  assert (Hnd : NoDup (JsMap.keys
                         (QueueStore.queue
                            (QueueService.store Scenario.queuedTwice)))).
  { simpl. repeat constructor; simpl; intuition discriminate. }
  assert (Hfresh : ~ In "q3" (JsMap.keys
                                (QueueStore.queue
                                   (QueueService.store Scenario.queuedTwice)))).
  { simpl. intuition discriminate. }
  destruct (addToQueue_always_adds Scenario.queuedTwice "q3" 3 "S1" low None None
              Hnd Hfresh) as (_ & _ & Hocc & _).
  rewrite (Hocc "S1"). reflexivity.
Defined.

(** ** The coordinator *)

Section CoordinatorFacts.

Lemma aiInvocations_app l1 l2 :
  aiInvocations (l1 ++ l2) = (aiInvocations l1 + aiInvocations l2)%nat.
Proof. unfold aiInvocations. now rewrite filter_app, length_app. Qed.

Lemma aiInvocations_emit target event payload :
  aiInvocations [Emit target event payload] = 0%nat.
Proof. reflexivity. Qed.

Lemma aiInvocations_call history customerInfo knowledgeContext :
  aiInvocations [GenerateResponse history customerInfo knowledgeContext] = 1%nat.
Proof. reflexivity. Qed.

Lemma addMessage_getSession ss uuid now sessionId text role md :
  SessionService.getSession
    (snd (SessionService.addMessage ss uuid now sessionId text role md)) sessionId
  = match SessionService.getSession ss sessionId with
    | Some session =>
        Some (mkChatSession (cs_id session) (userId session)
                (cs_customerInfo session)
                (messages session
                 ++ [mkChatMessage uuid sessionId text role now md])
                (cs_status session) (cs_createdAt session) now
                (assignedStaff session))
    | None => None
    end.
Proof.
  unfold SessionService.addMessage, SessionService.getSession.
  destruct (JsMap.get (SessionService.sessions ss) sessionId) eqn:Hget; simpl.
  - apply get_set_same.
  - exact Hget.
Qed.

Lemma updateSessionStatus_getSession ss now sessionId status session :
  SessionService.getSession ss sessionId = Some session ->
  option_map cs_status
    (SessionService.getSession
       (SessionService.updateSessionStatus ss now sessionId status) sessionId)
  = Some status.
Proof.
  intros Hget. unfold SessionService.updateSessionStatus. rewrite Hget.
  unfold SessionService.getSession. simpl.
  destruct (string_dec (cs_id session) sessionId) as [-> | Hne].
  - now rewrite get_set_same.
  - rewrite get_set_other by assumption. now rewrite get_set_same.
Qed.
End CoordinatorFacts.

(** C1, counterexample.  Staff member A has taken over session S1, whose
    status is 'with_staff'; the next customer message on S1 still reaches the
    AI subsystem once. *)
Lemma with_staff_message_invokes_ai :
  option_map cs_status
    (SessionService.getSession (sessionService Scenario.handedOver) "S1")
  = Some SessionStatus.with_staff
  /\ aiInvocations (effects Scenario.handedOver) = 0%nat
  /\ aiInvocations (effects Scenario.afterCustomerMessage) = 1%nat.
Proof. repeat split; vm_compute; reflexivity. Qed.

(** C1, as the code has it.  The [send_message] handler does not read the
    session's status: a customer message invokes the AI subsystem exactly
    once whenever the session exists (so also when its status is
    'with_staff') and not at all when the session is unknown; a staff
    message never invokes it.  The message itself is sent to the room of the
    session, and nothing is sent to an individual connection. *)
Theorem customer_message_invokes_ai
    (generateResponse :
       list ChatMessage -> option CustomerInfo -> list string -> option AIResponse)
    (getRelevantContext : string -> list string -> list string)
    (socket : Socket) (now : Z) (uuid1 uuid2 sessionId message : string)
    (isStaff : bool) (w : World) :
  aiInvocations
    (effects (run (send_message generateResponse getRelevantContext socket now
                     uuid1 uuid2 sessionId message isStaff) w))
  = (aiInvocations (effects w)
     + (if isStaff then 0
        else match SessionService.getSession (sessionService w) sessionId with
             | Some _ => 1
             | None => 0
             end))%nat
  /\ In (Emit (ToRoom (sessionRoom sessionId)) "new_message"
           [ ("sessionId", VString sessionId);
             ("message",
              VMessage (mkChatMessage uuid1 sessionId message
                          (if isStaff then role_assistant else role_user)
                          now None)) ])
        (effects (run (send_message generateResponse getRelevantContext socket
                         now uuid1 uuid2 sessionId message isStaff) w))
  /\ exists added,
       effects (run (send_message generateResponse getRelevantContext socket
                       now uuid1 uuid2 sessionId message isStaff) w)
       = effects w ++ added
       /\ Forall (messageEffect sessionId isStaff) added.
Proof.
  unfold run, send_message, bind, onSessions, emit, perform, ret.
  pose proof (addMessage_getSession (sessionService w) uuid1 now sessionId message
                (if isStaff then role_assistant else role_user) None) as Hafter.
  destruct (SessionService.addMessage (sessionService w) uuid1 now sessionId
              message (if isStaff then role_assistant else role_user) None)
    as [stored ss1] eqn:Hadd.
  assert (Hstored : stored = mkChatMessage uuid1 sessionId message
                               (if isStaff then role_assistant else role_user)
                               now None).
  { unfold SessionService.addMessage in Hadd.
    destruct (JsMap.get _ _) in Hadd; now inversion Hadd. }
  subst stored. simpl in Hafter.
  destruct isStaff; simpl.
  - rewrite !aiInvocations_app, !aiInvocations_emit. split; [lia|]. split.
    + apply in_or_app. left. apply in_or_app. right. now left.
    + eexists. split; [rewrite <- !app_assoc; reflexivity|].
      repeat constructor.
  - unfold respondToCustomer, bind, readWorld, perform, onSessions, emit, ret.
    simpl. rewrite Hafter.
    destruct (SessionService.getSession (sessionService w) sessionId)
      as [session|]; simpl.
    + destruct (generateResponse _ _ _) as [aiResponse|]; simpl;
        destruct (SessionService.addMessage ss1 _ _ _ _ _ _) as [reply ss2];
        simpl;
        rewrite !aiInvocations_app, !aiInvocations_emit, aiInvocations_call;
        (split; [lia|]); (split;
          [ do 2 (apply in_or_app; left); apply in_or_app; right; now left
          | eexists; split; [rewrite <- !app_assoc; reflexivity|];
            repeat constructor ]).
    + rewrite !aiInvocations_app, !aiInvocations_emit. split; [lia|]. split.
      * apply in_or_app. right. now left.
      * eexists. split; [reflexivity|]. repeat constructor.
Qed.

Section TriggerFacts.
Import QueueService.

Lemma get_Some_key {V} (m : JsMap.t V) k v :
  JsMap.get m k = Some v -> In k (JsMap.keys m).
Proof.
  intros H. apply get_In in H. unfold JsMap.keys.
  change k with (fst (k, v)). now apply in_map.
Qed.

(** Completion touches neither the queue nor the set of recorded sessions. *)
Lemma completeAssignment_queue qs now sessionId :
  QueueStore.queue (store (snd (completeAssignment qs now sessionId)))
    = QueueStore.queue (store qs)
  /\ JsMap.keys
       (QueueStore.assignments (store (snd (completeAssignment qs now sessionId))))
     = JsMap.keys (QueueStore.assignments (store qs)).
Proof.
  unfold completeAssignment.
  destruct (QueueStore.getAssignment (store qs) sessionId) as [a|] eqn:Ha;
    [|split; reflexivity].
  unfold QueueStore.updateAssignmentStatus.
  unfold QueueStore.getAssignment in Ha. rewrite Ha.
  destruct (StaffService.unassignChat _ _ _) as [b staff1]. simpl.
  split; [reflexivity|].
  apply keys_set_present. now apply get_Some_key with a.
Qed.
End TriggerFacts.

(** C8, counterexample.  S1 asks for staff while A, the only staff
    member, is offline: S1 is queued with status 'waiting_for_staff'.  A then
    sends [staff_status_update] with 'online' and becomes an available
    candidate, yet S1 is still queued and has no assignment. *)
Lemma online_staff_leaves_queue_pending :
  option_map cs_status
    (SessionService.getSession (sessionService Scenario.escalatedNoStaff) "S1")
  = Some SessionStatus.waiting_for_staff
  /\ map q_sessionId
       (QueueService.getQueue (queueService Scenario.escalatedNoStaff) 10)
     = ["S1"]
  /\ map s_id
       (StaffService.getAvailableStaff
          (QueueService.staffService (queueService Scenario.staffCameOnline)))
     = ["A"]
  /\ map q_sessionId
       (QueueService.getQueue (queueService Scenario.staffCameOnline) 20)
     = ["S1"]
  /\ QueueService.getSessionAssignment
       (queueService Scenario.staffCameOnline) "S1"
     = None.
Proof. repeat split; vm_compute; reflexivity. Qed.

(** C8, as the code has it.  The automatic assignment routine runs on an
    escalation request: [request_staff] enqueues the session and then calls
    [checkAndAssign].  It does not run when a staff member changes status or
    completes a chat: [staff_status_update] leaves the queue and the ledger
    as they were, and [complete_chat] only completes the assignment of its
    session, leaving the queue and the set of sessions with an assignment as
    they were.  A session queued while no staff was available therefore
    stays queued when a staff member comes online. *)
Theorem auto_assign_triggers :
  (forall socket now uuid sessionId p w,
      queueService (run (request_staff socket now uuid sessionId p) w)
      = QueueService.checkAndAssign
          (snd (QueueService.addToQueue (queueService w) uuid now sessionId
                  (orElse p medium) None None))
          now)
  /\ (forall socket now status w,
        QueueService.store
          (queueService (run (staff_status_update socket now status) w))
        = QueueService.store (queueService w))
  /\ (forall socket now sessionId w,
        queueService (run (complete_chat socket now sessionId) w)
        = (if isRole socket_staff (data_role socket)
           then snd (QueueService.completeAssignment (queueService w) now sessionId)
           else queueService w)
        /\ QueueStore.queue
             (QueueService.store
                (queueService (run (complete_chat socket now sessionId) w)))
           = QueueStore.queue (QueueService.store (queueService w))
        /\ JsMap.keys
             (QueueStore.assignments
                (QueueService.store
                   (queueService (run (complete_chat socket now sessionId) w))))
           = JsMap.keys
               (QueueStore.assignments (QueueService.store (queueService w)))).
Proof.
  split; [|split].
  - intros socket now uuid sessionId p w.
    unfold run, request_staff, broadcastQueueUpdate, bind, onQueue, onSessions,
      emit, perform, readWorld, ret.
    simpl. reflexivity.
  - intros socket now status w.
    unfold run, staff_status_update.
    destruct (isRole socket_staff (data_role socket) && truthy (data_staffId socket));
      [|reflexivity].
    unfold bind, onStaff, onQueue, emit, perform.
    destruct (StaffService.updateStatus _ _ _ _) as [u st']. reflexivity.
  - intros socket now sessionId w.
    assert (Hrun : queueService (run (complete_chat socket now sessionId) w)
                   = (if isRole socket_staff (data_role socket)
                      then snd (QueueService.completeAssignment (queueService w)
                                  now sessionId)
                      else queueService w)).
    { unfold run, complete_chat.
      destruct (isRole socket_staff (data_role socket)); [|reflexivity].
      unfold broadcastQueueUpdate, bind, onQueue, onSessions, emit, perform,
        readWorld, ret.
      simpl.
      now destruct (QueueService.completeAssignment (queueService w) now sessionId). }
    split; [exact Hrun|]. rewrite Hrun.
    destruct (isRole socket_staff (data_role socket)); [|split; reflexivity].
    apply completeAssignment_queue.
Qed.

(** C10.  When a staff connection sends [assign_chat] without a staff
    identifier and automatic assignment succeeds, the assignment that is
    recorded is for the session of the current queue head, while the handler
    sets the status 'with_staff' on the session named in the event and sends
    'staff_joined' to that session's room; if the event names a session
    other than the queue head, the session marked and notified is not the
    session of the new assignment. *)
Theorem assign_chat_auto_marks_event_session
    (socket : Socket) (now : Z) (sessionId : string) (staffId : option string)
    (w : World) (r : AssignResult) (qs' : QueueService.t) :
  isRole socket_staff (data_role socket) = true ->
  truthy staffId = false ->
  QueueService.assignNextChat (queueService w) now = (r, qs') ->
  success r = true ->
  exists h rest a,
    QueueStore.getQueue (QueueService.store (queueService w)) now = h :: rest
    /\ assignment r = Some a
    /\ a_sessionId a = q_sessionId h
    /\ queueService (run (assign_chat socket now sessionId staffId) w) = qs'
    /\ QueueService.getSessionAssignment qs' (q_sessionId h) = Some a
    /\ sessionService (run (assign_chat socket now sessionId staffId) w)
       = SessionService.updateSessionStatus (sessionService w) now sessionId
           SessionStatus.with_staff
    /\ (forall session,
          SessionService.getSession (sessionService w) sessionId = Some session ->
          option_map cs_status
            (SessionService.getSession
               (sessionService (run (assign_chat socket now sessionId staffId) w))
               sessionId)
          = Some SessionStatus.with_staff)
    /\ In (Emit (ToRoom (sessionRoom sessionId)) "staff_joined"
             [ ("staffId", VString (a_staffId a));
               ("message", VString "A support agent has joined the chat") ])
          (effects (run (assign_chat socket now sessionId staffId) w))
    /\ (sessionId <> q_sessionId h -> a_sessionId a <> sessionId).
Proof.
  intros Hrole Hauto Hrun Hok.
  destruct (assignNextChat_success _ _ _ _ Hrun Hok)
    as (nextChat & rest & first & others & Hq & _ & _ & Hr & Hstore).
  exists nextChat, rest. eexists.
  split; [exact Hq|]. split; [rewrite Hr; reflexivity|].
  split; [reflexivity|].
  assert (Hworld :
    queueService (run (assign_chat socket now sessionId staffId) w) = qs'
    /\ sessionService (run (assign_chat socket now sessionId staffId) w)
       = SessionService.updateSessionStatus (sessionService w) now sessionId
           SessionStatus.with_staff
    /\ In (Emit (ToRoom (sessionRoom sessionId)) "staff_joined"
             [ ("staffId", VString (s_id (QueueService.leastLoaded first others)));
               ("message", VString "A support agent has joined the chat") ])
          (effects (run (assign_chat socket now sessionId staffId) w))).
  { remember (run (assign_chat socket now sessionId staffId) w) as w' eqn:Hw'.
    unfold run, assign_chat in Hw'. rewrite Hrole, Hauto in Hw'.
    cbn [negb] in Hw'. unfold bind at 1, onQueue at 1 in Hw'.
    cbv beta iota in Hw'. rewrite Hrun, Hr in Hw'. simpl in Hw'.
    unfold broadcastQueueUpdate, bind, onSessions, emit, perform, readWorld, ret
      in Hw'.
    simpl in Hw'.
    destruct (truthy (JsMap.get (staffSockets w)
                        (s_id (QueueService.leastLoaded first others))));
      simpl in Hw'; subst w'; simpl; repeat split; try reflexivity.
    - apply in_or_app. left. apply in_or_app. right. now left.
    - apply in_or_app. left. apply in_or_app. right. now left. }
  destruct Hworld as (Hqs & Hss & Hemit).
  split; [exact Hqs|]. split.
  { unfold QueueService.getSessionAssignment, QueueStore.getAssignment.
    rewrite Hstore, removeFromQueue_assignments. simpl. apply get_set_same. }
  split; [exact Hss|]. split.
  { intros session Hs. rewrite Hss.
    now apply updateSessionStatus_getSession with session. }
  split; [exact Hemit|].
  simpl. congruence.
Qed.

Lemma assign_chat_auto_marks_event_session_witness :
  exists h rest a,
    QueueStore.getQueue (QueueService.store (queueService Scenario.twoQueued)) 30
    = h :: rest
    /\ assignment (fst (QueueService.assignNextChat
                          (queueService Scenario.twoQueued) 30)) = Some a
    /\ a_sessionId a = q_sessionId h
    /\ queueService
         (run (assign_chat (Scenario.staffSocket "A") 30 "S2" None)
            Scenario.twoQueued)
       = snd (QueueService.assignNextChat (queueService Scenario.twoQueued) 30)
    /\ QueueService.getSessionAssignment
         (snd (QueueService.assignNextChat (queueService Scenario.twoQueued) 30))
         (q_sessionId h)
       = Some a
    /\ sessionService
         (run (assign_chat (Scenario.staffSocket "A") 30 "S2" None)
            Scenario.twoQueued)
       = SessionService.updateSessionStatus (sessionService Scenario.twoQueued)
           30 "S2" SessionStatus.with_staff
    /\ (forall session,
          SessionService.getSession (sessionService Scenario.twoQueued) "S2"
          = Some session ->
          option_map cs_status
            (SessionService.getSession
               (sessionService
                  (run (assign_chat (Scenario.staffSocket "A") 30 "S2" None)
                     Scenario.twoQueued))
               "S2")
          = Some SessionStatus.with_staff)
    /\ In (Emit (ToRoom (sessionRoom "S2")) "staff_joined"
             [ ("staffId", VString (a_staffId a));
               ("message", VString "A support agent has joined the chat") ])
          (effects
             (run (assign_chat (Scenario.staffSocket "A") 30 "S2" None)
                Scenario.twoQueued))
    /\ ("S2" <> q_sessionId h -> a_sessionId a <> "S2").
Proof.
  apply (assign_chat_auto_marks_event_session (Scenario.staffSocket "A") 30 "S2"
           None Scenario.twoQueued).
  - reflexivity.
  - reflexivity.
  - vm_compute. reflexivity.
  - vm_compute. reflexivity.
Defined.

(** * Further properties of the services *)

(** ** The queue as a whole *)

Section QueueSnapshot.
Import QueueStore.

Lemma Permutation_filter_length {A} (p : A -> bool) l l' :
  Permutation l l' -> List.length (filter p l) = List.length (filter p l').
Proof.
  induction 1 as [|x l l' _ IH|x y l|l l' l'' _ IH1 _ IH2]; simpl.
  - reflexivity.
  - destruct (p x); simpl; now rewrite IH.
  - destruct (p x), (p y); reflexivity.
  - now rewrite IH1.
Qed.

Lemma countPriority_getQueue p qs now :
  countPriority p (getQueue qs now) = countPriority p (JsMap.values (queue qs)).
Proof.
  unfold countPriority, getQueue. f_equal.
  rewrite (Permutation_filter_length _ _ _ (Array_sort_perm compareQueue _)).
  induction (JsMap.values (queue qs)) as [|item r IH]; simpl; [reflexivity|].
  destruct (Priority_eqb (priority item) p); simpl; now rewrite IH.
Qed.

Lemma breakdown_counts items : forall acc,
  fold_left
    (fun acc item =>
       match priority item with
       | high => QueueService.mkBreakdown (QueueService.pb_high acc + 1)
                   (QueueService.pb_medium acc) (QueueService.pb_low acc)
       | medium => QueueService.mkBreakdown (QueueService.pb_high acc)
                     (QueueService.pb_medium acc + 1) (QueueService.pb_low acc)
       | low => QueueService.mkBreakdown (QueueService.pb_high acc)
                  (QueueService.pb_medium acc) (QueueService.pb_low acc + 1)
       end)
    items acc
  = QueueService.mkBreakdown
      (QueueService.pb_high acc + countPriority high items)
      (QueueService.pb_medium acc + countPriority medium items)
      (QueueService.pb_low acc + countPriority low items).
Proof.
  induction items as [|item r IH]; intros acc; simpl.
  - destruct acc. unfold countPriority. simpl. f_equal; lia.
  - rewrite IH. unfold countPriority. simpl.
    destruct (priority item); simpl; f_equal; lia.
Qed.

Lemma countPriority_total items :
  countPriority high items + countPriority medium items + countPriority low items
  = Z.of_nat (List.length items).
Proof.
  unfold countPriority. induction items as [|item r IH]; [reflexivity|].
  cbn [filter List.length].
  destruct (priority item); cbn [Priority_eqb List.length];
    rewrite ?Nat2Z.inj_succ; lia.
Qed.
End QueueSnapshot.

(** X1.  The statistics of the queue are consistent: the length is the
    number of entries [getQueue] returns, every component of the priority
    breakdown is the number of queued entries of that priority, and the
    three components add up to the length. *)
Theorem queue_stats_consistent (qs : QueueService.t) (now : Z) :
  QueueService.length (QueueService.getQueueStats qs now)
  = Z.of_nat (List.length (QueueService.getQueue qs now))
  /\ QueueService.priorityBreakdown (QueueService.getQueueStats qs now)
     = QueueService.mkBreakdown
         (countPriority high (JsMap.values (QueueStore.queue (QueueService.store qs))))
         (countPriority medium (JsMap.values (QueueStore.queue (QueueService.store qs))))
         (countPriority low (JsMap.values (QueueStore.queue (QueueService.store qs))))
  /\ QueueService.pb_high
       (QueueService.priorityBreakdown (QueueService.getQueueStats qs now))
     + QueueService.pb_medium
         (QueueService.priorityBreakdown (QueueService.getQueueStats qs now))
     + QueueService.pb_low
         (QueueService.priorityBreakdown (QueueService.getQueueStats qs now))
     = QueueService.length (QueueService.getQueueStats qs now).
Proof.
  assert (Hb : QueueService.priorityBreakdown (QueueService.getQueueStats qs now)
               = QueueService.mkBreakdown
                   (countPriority high
                      (JsMap.values (QueueStore.queue (QueueService.store qs))))
                   (countPriority medium
                      (JsMap.values (QueueStore.queue (QueueService.store qs))))
                   (countPriority low
                      (JsMap.values (QueueStore.queue (QueueService.store qs))))).
  { unfold QueueService.getQueueStats. simpl.
    rewrite breakdown_counts. simpl.
    now rewrite !countPriority_getQueue. }
  split; [|split].
  - unfold QueueService.getQueueStats, QueueService.getQueue. simpl.
    unfold QueueStore.getQueueLength, JsMap.size.
    now rewrite getQueue_length.
  - exact Hb.
  - rewrite Hb. simpl. rewrite countPriority_total.
    unfold QueueService.getQueueStats. simpl.
    unfold QueueStore.getQueueLength, JsMap.size, JsMap.values.
    now rewrite length_map.
Qed.

Section AverageWait.
Import QueueStore.

Lemma fold_wait_bounds now bound items : forall acc,
  (forall item, In item items -> 0 <= now - q_createdAt item <= bound) ->
  acc
  <= fold_left (fun sum item => sum + (now - q_createdAt item)) items acc
  <= acc + Z.of_nat (List.length items) * bound.
Proof.
  induction items as [|item r IH]; intros acc H; [simpl; lia|].
  cbn [fold_left]. change (List.length (item :: r)) with (S (List.length r)).
  rewrite Nat2Z.inj_succ.
  assert (Hr : forall i, In i r -> 0 <= now - q_createdAt i <= bound)
    by (intros i Hi; apply H; now right).
  specialize (IH (acc + (now - q_createdAt item)) Hr).
  pose proof (H item (or_introl eq_refl)). lia.
Qed.
End AverageWait.

(** X2.  The average wait of an empty queue is 0; when every entry has
    waited between 0 and [bound] milliseconds, the average wait, in whole
    seconds, lies between 0 and [bound / 1000]. *)
Theorem average_wait_bounds (qs : QueueStore.t) (now bound : Z) :
  0 <= bound ->
  (forall item, In item (JsMap.values (QueueStore.queue qs)) ->
     0 <= now - q_createdAt item <= bound) ->
  0 <= QueueStore.getAverageWaitTime qs now <= bound / 1000
  /\ (QueueStore.queue qs = [] -> QueueStore.getAverageWaitTime qs now = 0).
Proof.
  intros Hbound Hall. unfold QueueStore.getAverageWaitTime.
  destruct (JsMap.values (QueueStore.queue qs)) as [|item r] eqn:Hv.
  - simpl. split; [|reflexivity]. split; [lia|]. now apply Z.div_pos.
  - split.
    + destruct (Z.of_nat (List.length (item :: r)) =? 0) eqn:E.
      { apply Z.eqb_eq in E. simpl in E. lia. }
      pose proof (fold_wait_bounds now bound (item :: r) 0 Hall) as [Hlo Hhi].
      set (n := Z.of_nat (List.length (item :: r))) in *.
      assert (0 < n) by (unfold n; simpl; lia).
      split.
      * apply Z.div_pos; lia.
      * replace (bound / 1000) with ((n * bound) / (n * 1000))
          by (apply Z.div_mul_cancel_l; lia).
        apply Z.div_le_mono; lia.
    + intros Hq. unfold JsMap.values in Hv. rewrite Hq in Hv. discriminate.
Qed.

Lemma average_wait_bounds_witness :
  0 <= QueueStore.getAverageWaitTime
         (QueueService.store (Scenario.threeQueued 1000 2000 3000)) 5000
    <= 4000 / 1000.
Proof.
  refine (proj1 (average_wait_bounds
                   (QueueService.store (Scenario.threeQueued 1000 2000 3000))
                   5000 4000 _ _)).
  - lia.
  - simpl. intros item [<- | [<- | [<- | []]]]; simpl; lia.
Defined.

(** X3.  [getQueue] is a snapshot of the whole queue: it returns every
    queued entry exactly once (a rearrangement of the entries with their wait
    time filled in), in the order of the comparator, and the wait time of
    each entry is the whole number of seconds since it was created, which is
    not negative for an entry created at or before [now]. *)
Theorem getQueue_sorted_snapshot (qs : QueueStore.t) (now : Z) :
  Permutation (QueueStore.getQueue qs now)
    (map (QueueStore.withWaitTime now) (JsMap.values (QueueStore.queue qs)))
  /\ StronglySorted (comesBefore QueueStore.compareQueue)
       (QueueStore.getQueue qs now)
  /\ Forall
       (fun item =>
          waitTime item = (now - q_createdAt item) / 1000
          /\ (q_createdAt item <= now -> 0 <= waitTime item))
       (QueueStore.getQueue qs now).
Proof.
  split; [apply Array_sort_perm|].
  split; [apply Array_sort_sorted;
          [exact compareQueue_trans | exact compareQueue_total]|].
  apply Forall_forall. intros item Hin. unfold QueueStore.getQueue in Hin.
  apply (proj1 (In_Array_sort QueueStore.compareQueue _ _)) in Hin.
  apply in_map_iff in Hin as [item0 [<- _]]. simpl.
  split; [reflexivity|]. intros Hle. apply Z.div_pos; lia.
Qed.

Section Stability.
Context {A : Type} (compareFn : A -> A -> Z) (p : A -> bool).
Hypothesis tie : forall a b, p a = true -> p b = true -> compareFn a b <= 0.

Lemma filter_sortedInsert x l :
  filter p (sortedInsert compareFn x l) = filter p (x :: l).
Proof.
  induction l as [|y r IH]; [reflexivity|].
  cbn [sortedInsert].
  destruct (compareFn x y <=? 0) eqn:E; [reflexivity|].
  apply Z.leb_gt in E.
  cbn [filter] in *. rewrite IH.
  destruct (p x) eqn:Hx, (p y) eqn:Hy; try reflexivity.
  specialize (tie x y Hx Hy). lia.
Qed.

(** Elements that tie with one another keep their order through the sort. *)
Lemma filter_Array_sort l : filter p (Array_sort compareFn l) = filter p l.
Proof.
  induction l as [|x r IH]; [reflexivity|].
  cbn [Array_sort]. rewrite filter_sortedInsert.
  cbn [filter]. now rewrite IH.
Qed.
End Stability.

(** X4.  Entries that tie in the order of the queue (same priority, same
    creation instant) come out of [getQueue] in the order in which they were
    put into the queue. *)
Theorem getQueue_fifo_among_ties
    (qs : QueueStore.t) (now : Z) (p : Priority) (createdAt : Z) :
  filter (tiesWith p createdAt) (QueueStore.getQueue qs now)
  = map (QueueStore.withWaitTime now)
      (filter (tiesWith p createdAt) (JsMap.values (QueueStore.queue qs))).
Proof.
  unfold QueueStore.getQueue.
  rewrite (filter_Array_sort QueueStore.compareQueue (tiesWith p createdAt)).
  - induction (JsMap.values (QueueStore.queue qs)) as [|item r IH];
      [reflexivity|].
    cbn [map filter]. rewrite IH.
    change (tiesWith p createdAt (QueueStore.withWaitTime now item))
      with (tiesWith p createdAt item).
    now destruct (tiesWith p createdAt item).
  - intros a b Ha Hb. unfold tiesWith in Ha, Hb.
    apply andb_true_iff in Ha as [Ha1 Ha2]. apply andb_true_iff in Hb as [Hb1 Hb2].
    apply Z.eqb_eq in Ha2, Hb2. apply compareQueue_before.
    right. split; [|lia].
    destruct (priority a), (priority b), p; simpl in *; congruence.
Qed.

Section CheckAndAssign.
Import QueueService.

Lemma getQueue_nil_iff qs now :
  QueueStore.getQueue qs now = [] <-> QueueStore.queue qs = [].
Proof.
  pose proof (getQueue_length qs now) as Hlen.
  destruct (QueueStore.getQueue qs now), (QueueStore.queue qs);
    simpl in Hlen; split; intros; congruence.
Qed.

Lemma assignNextChat_nothing_to_do qs now :
  QueueStore.getQueue (store qs) now = []
  \/ StaffService.getAvailableStaff (staffService qs) = [] ->
  snd (assignNextChat qs now) = qs.
Proof.
  intros H. unfold assignNextChat.
  destruct (QueueStore.getQueue (store qs) now) as [|nextChat rest];
    [reflexivity|].
  destruct H as [H | H]; [discriminate|]. now rewrite H.
Qed.
End CheckAndAssign.

(** X5.  [checkAndAssign] leaves the services exactly as one call of
    [assignNextChat] does: its own tests of the queue length and of the
    available staff change nothing, and with an empty queue or without
    available staff the services are left untouched. *)
Theorem checkAndAssign_is_assignNextChat (qs : QueueService.t) (now : Z) :
  QueueService.checkAndAssign qs now = snd (QueueService.assignNextChat qs now)
  /\ (QueueStore.queue (QueueService.store qs) = []
      \/ StaffService.getAvailableStaff (QueueService.staffService qs) = [] ->
      QueueService.checkAndAssign qs now = qs).
Proof.
  assert (Hmain : QueueService.checkAndAssign qs now
                  = snd (QueueService.assignNextChat qs now)
                  /\ (QueueStore.getQueue (QueueService.store qs) now = []
                      \/ StaffService.getAvailableStaff
                           (QueueService.staffService qs) = [] ->
                      snd (QueueService.assignNextChat qs now) = qs)).
  { split; [|apply assignNextChat_nothing_to_do].
    unfold QueueService.checkAndAssign, QueueService.getQueueStats.
    cbn [QueueService.length].
    unfold QueueStore.getQueueLength, JsMap.size.
    pose proof (getQueue_length (QueueService.store qs) now) as Hlen.
    destruct (Z.of_nat (List.length (QueueStore.queue (QueueService.store qs)))
              >? 0) eqn:Elen.
    - destruct (Z.of_nat
                  (List.length
                     (StaffService.getAvailableStaff
                        (QueueService.staffService qs))) >? 0) eqn:Eav;
        [reflexivity|].
      symmetry. apply assignNextChat_nothing_to_do. right.
      destruct (StaffService.getAvailableStaff (QueueService.staffService qs));
        [reflexivity | simpl in Eav; discriminate].
    - symmetry. apply assignNextChat_nothing_to_do. left.
      apply getQueue_nil_iff.
      destruct (QueueStore.queue (QueueService.store qs));
        [reflexivity | simpl in Elen; discriminate]. }
  destruct Hmain as [Heq Hnone]. split; [exact Heq|].
  intros H. rewrite Heq. apply Hnone.
  destruct H as [H | H]; [left; now apply getQueue_nil_iff | now right].
Qed.

Lemma checkAndAssign_is_assignNextChat_witness :
  QueueService.checkAndAssign (queueService Scenario.escalatedNoStaff) 10
  = queueService Scenario.escalatedNoStaff.
Proof.
  apply (proj2 (checkAndAssign_is_assignNextChat
                  (queueService Scenario.escalatedNoStaff) 10)).
  right. reflexivity.
Defined.

(** ** Load accounting *)

Section Totals.
Variable f : StaffUser -> Z.

Lemma fold_add_shift (l : list StaffUser) : forall acc,
  fold_left (fun sum s => sum + f s) l acc
  = acc + fold_left (fun sum s => sum + f s) l 0.
Proof.
  induction l as [|s r IH]; intros acc; simpl; [lia|].
  rewrite IH. symmetry. rewrite IH. lia.
Qed.

Lemma total_set (st : StaffStore.t) k row row' :
  JsMap.get st k = Some row ->
  fold_left (fun sum s => sum + f s)
    (StaffService.getAllStaff (JsMap.set st k row')) 0
  = fold_left (fun sum s => sum + f s) (StaffService.getAllStaff st) 0
    - f (user row) + f (user row').
Proof.
  unfold StaffService.getAllStaff, StaffStore.getAllStaff, JsMap.values.
  induction st as [|[k0 row0] r IH]; simpl; [discriminate|].
  destruct (String.eqb k0 k) eqn:E; intros Hget; simpl.
  - injection Hget as ->.
    rewrite fold_add_shift. symmetry. rewrite fold_add_shift. lia.
  - rewrite fold_add_shift, (IH Hget). symmetry. rewrite fold_add_shift. lia.
Qed.

Lemma total_bounds (g : StaffUser -> Z) (l : list StaffUser) :
  Forall (fun s => f s <= g s) l ->
  fold_left (fun sum s => sum + f s) l 0
  <= fold_left (fun sum s => sum + g s) l 0.
Proof.
  assert (Hshift : forall r acc,
            fold_left (fun sum s => sum + g s) r acc
            = acc + fold_left (fun sum s => sum + g s) r 0).
  { induction r as [|a r IH]; intros acc; simpl; [lia|].
    rewrite IH. symmetry. rewrite IH. lia. }
  induction 1 as [|s r Hs _ IH]; simpl; [lia|].
  rewrite fold_add_shift, Hshift. lia.
Qed.
End Totals.

Section LoadAccounting.

Lemma assignChat_total st now staffId :
  fst (StaffService.assignChat st now staffId) = true ->
  totalAssignedChats (staffStats (snd (StaffService.assignChat st now staffId)))
    = totalAssignedChats (staffStats st) + 1
  /\ totalCapacity (staffStats (snd (StaffService.assignChat st now staffId)))
     = totalCapacity (staffStats st).
Proof.
  rewrite assignChat_cases.
  destruct (JsMap.get st staffId) as [row|] eqn:Hget; [|discriminate].
  destruct (currentChatCount (user row) >=? maxConcurrentChats (user row));
    [discriminate|].
  intros _. cbn [snd staffStats totalAssignedChats totalCapacity].
  rewrite (total_set currentChatCount st staffId row _ Hget).
  rewrite (total_set maxConcurrentChats st staffId row _ Hget).
  simpl. split; lia.
Qed.

Lemma unassignChat_total st now staffId :
  totalAssignedChats (staffStats (snd (StaffService.unassignChat st now staffId)))
    = totalAssignedChats (staffStats st)
      - match StaffStore.findById st staffId with
        | Some u => currentChatCount u - Z.max 0 (currentChatCount u - 1)
        | None => 0
        end
  /\ totalCapacity (staffStats (snd (StaffService.unassignChat st now staffId)))
     = totalCapacity (staffStats st).
Proof.
  rewrite unassignChat_cases, findById_get.
  destruct (JsMap.get st staffId) as [row|] eqn:Hget; simpl; [|split; lia].
  rewrite (total_set currentChatCount st staffId row _ Hget).
  rewrite (total_set maxConcurrentChats st staffId row _ Hget).
  simpl. split; lia.
Qed.

Lemma assignChat_others st now staffId other :
  other <> staffId ->
  StaffStore.findById (snd (StaffService.assignChat st now staffId)) other
  = StaffStore.findById st other.
Proof.
  intros Hne. rewrite assignChat_cases.
  destruct (JsMap.get st staffId) as [row|]; [|reflexivity].
  destruct (currentChatCount (user row) >=? maxConcurrentChats (user row));
    [reflexivity|].
  simpl. rewrite !findById_get. now rewrite get_set_other by congruence.
Qed.

Lemma In_key_get {V} (m : JsMap.t V) k :
  In k (JsMap.keys m) -> exists v, JsMap.get m k = Some v.
Proof.
  intros Hin. destruct (JsMap.get m k) as [v|] eqn:Hget; [now exists v|].
  apply get_None_keys in Hget. contradiction.
Qed.

Lemma length_delete {V} (m : JsMap.t V) k v :
  JsMap.get m k = Some v ->
  S (List.length (JsMap.delete m k)) = List.length m.
Proof.
  induction m as [|[k0 v0] r IH]; simpl; [discriminate|].
  destruct (String.eqb k0 k); intros H; [reflexivity|].
  simpl. now rewrite IH.
Qed.

(** Removing a session that has an entry shortens the queue by one. *)
Lemma removeFromQueue_present qs sessionId item :
  In item (JsMap.values (QueueStore.queue qs)) ->
  q_sessionId item = sessionId ->
  fst (QueueStore.removeFromQueue qs sessionId) = true
  /\ QueueStore.getQueueLength (snd (QueueStore.removeFromQueue qs sessionId))
     = QueueStore.getQueueLength qs - 1.
Proof.
  intros Hin Hs. unfold QueueStore.removeFromQueue.
  rewrite removeLoop_find. unfold JsMap.entries.
  destruct (find (fun e => String.eqb (q_sessionId (snd e)) sessionId)
              (QueueStore.queue qs)) as [[k found]|] eqn:Hfind.
  - simpl. split; [reflexivity|].
    destruct (find_some _ _ Hfind) as [He _].
    assert (In k (JsMap.keys (QueueStore.queue qs))) as Hk.
    { unfold JsMap.keys. change k with (fst (k, found)). now apply in_map. }
    destruct (In_key_get _ _ Hk) as [v Hget].
    pose proof (length_delete _ _ _ Hget) as Hl.
    unfold QueueStore.getQueueLength, JsMap.size. cbn [QueueStore.queue]. lia.
  - exfalso. unfold JsMap.values in Hin.
    apply in_map_iff in Hin as [e [He Hin]].
    pose proof (find_none _ _ Hfind e Hin) as Hno. simpl in Hno.
    rewrite He, Hs, String.eqb_refl in Hno. discriminate.
Qed.
End LoadAccounting.

(** X6.  Automatic assignment accounts for what it does.  When it fails the
    services are exactly as before.  When it succeeds the assignment it
    returns is the one recorded for its session, the queue is one entry
    shorter, the total of the staff loads is one higher and the total
    capacity is unchanged. *)
Theorem assignNextChat_accounting (qs : QueueService.t) (now : Z) :
  (success (fst (QueueService.assignNextChat qs now)) = false ->
   snd (QueueService.assignNextChat qs now) = qs)
  /\ (success (fst (QueueService.assignNextChat qs now)) = true ->
      exists a,
        assignment (fst (QueueService.assignNextChat qs now)) = Some a
        /\ QueueService.getSessionAssignment
             (snd (QueueService.assignNextChat qs now)) (a_sessionId a)
           = Some a
        /\ QueueStore.getQueueLength
             (QueueService.store (snd (QueueService.assignNextChat qs now)))
           = QueueStore.getQueueLength (QueueService.store qs) - 1
        /\ totalAssignedChats
             (staffStats
                (QueueService.staffService
                   (snd (QueueService.assignNextChat qs now))))
           = totalAssignedChats (staffStats (QueueService.staffService qs)) + 1
        /\ totalCapacity
             (staffStats
                (QueueService.staffService
                   (snd (QueueService.assignNextChat qs now))))
           = totalCapacity (staffStats (QueueService.staffService qs))).
Proof.
  split.
  - unfold QueueService.assignNextChat.
    destruct (QueueStore.getQueue (QueueService.store qs) now)
      as [|nextChat rest]; [reflexivity|].
    destruct (StaffService.getAvailableStaff (QueueService.staffService qs))
      as [|first others]; [reflexivity|].
    rewrite assignChat_cases.
    destruct (JsMap.get (QueueService.staffService qs)
                (s_id (QueueService.leastLoaded first others))) as [row|].
    + destruct (currentChatCount (user row) >=? maxConcurrentChats (user row)).
      * simpl. now destruct qs.
      * simpl. destruct (QueueStore.removeFromQueue _ _). discriminate.
    + simpl. now destruct qs.
  - intros Hok.
    destruct (QueueService.assignNextChat qs now) as [r qs'] eqn:Hrun.
    simpl in Hok. cbn [fst snd].
    destruct (assignNextChat_success _ _ _ _ Hrun Hok)
      as (nextChat & rest & first & others & Hq & _ & Hassign & Hr & Hstore).
    eexists. split; [rewrite Hr; reflexivity|]. cbn [a_sessionId].
    assert (Hfst : fst (StaffService.assignChat (QueueService.staffService qs) now
                          (s_id (QueueService.leastLoaded first others))) = true)
      by now rewrite Hassign.
    pose proof (assignChat_total _ _ _ Hfst) as [Htot Hcap].
    rewrite Hassign in Htot, Hcap. simpl in Htot, Hcap.
    split; [|split; [|split; assumption]].
    + unfold QueueService.getSessionAssignment, QueueStore.getAssignment.
      rewrite Hstore, removeFromQueue_assignments. simpl. apply get_set_same.
    + rewrite Hstore.
      destruct (getQueue_head _ _ _ _ Hq) as [[item [Hitem ->]] _].
      pose proof (removeFromQueue_present
                    (snd (QueueStore.assignSession (QueueService.store qs) now
                            (q_sessionId (QueueStore.withWaitTime now item))
                            (s_id (QueueService.leastLoaded first others))))
                    (q_sessionId (QueueStore.withWaitTime now item)) item
                    Hitem eq_refl) as [_ Hlen].
      exact Hlen.
Qed.

Lemma assignNextChat_accounting_witness :
  exists a,
    assignment (fst (QueueService.assignNextChat Scenario.tieQueued 10)) = Some a
    /\ QueueService.getSessionAssignment
         (snd (QueueService.assignNextChat Scenario.tieQueued 10)) (a_sessionId a)
       = Some a
    /\ QueueStore.getQueueLength
         (QueueService.store (snd (QueueService.assignNextChat Scenario.tieQueued 10)))
       = QueueStore.getQueueLength (QueueService.store Scenario.tieQueued) - 1
    /\ totalAssignedChats
         (staffStats
            (QueueService.staffService
               (snd (QueueService.assignNextChat Scenario.tieQueued 10))))
       = totalAssignedChats
           (staffStats (QueueService.staffService Scenario.tieQueued)) + 1
    /\ totalCapacity
         (staffStats
            (QueueService.staffService
               (snd (QueueService.assignNextChat Scenario.tieQueued 10))))
       = totalCapacity (staffStats (QueueService.staffService Scenario.tieQueued)).
Proof.
  apply (proj2 (assignNextChat_accounting Scenario.tieQueued 10)).
  vm_compute. reflexivity.
Defined.

Section LedgerStaff.
Import QueueService.

(** Whatever [assignChat] and [unassignChat] preserve on the staff store,
    the ledger operations preserve. *)
Lemma ledger_op_staff (P : StaffStore.t -> Prop) :
  (forall st now staffId, P st -> P (snd (StaffService.assignChat st now staffId))) ->
  (forall st now staffId, P st -> P (snd (StaffService.unassignChat st now staffId))) ->
  forall qs now op,
    P (staffService qs) -> P (staffService (applyLedgerOp qs now op)).
Proof.
  intros Hinc Hdec qs now op H. destruct op as [sid staffId| |sid from to|sid]; simpl.
  - unfold assignChatToStaff.
    destruct (find _ _) as [target|]; [|exact H].
    destruct (currentChatCount target >=? maxConcurrentChats target); [exact H|].
    pose proof (Hinc _ now staffId H) as H1.
    destruct (StaffService.assignChat (staffService qs) now staffId) as [[|] st'];
      simpl in *; [|exact H1].
    now destruct (QueueStore.removeFromQueue _ _).
  - unfold assignNextChat.
    destruct (QueueStore.getQueue (store qs) now) as [|nextChat rest]; [exact H|].
    destruct (StaffService.getAvailableStaff (staffService qs))
      as [|first others]; [exact H|].
    pose proof (Hinc _ now (s_id (leastLoaded first others)) H) as H1.
    destruct (StaffService.assignChat _ _ _) as [[|] st']; simpl in *;
      [|exact H1].
    now destruct (QueueStore.removeFromQueue _ _).
  - unfold transferChat.
    destruct (QueueStore.getAssignment (store qs) sid) as [a|]; [|exact H].
    destruct (negb _); [exact H|].
    destruct (find _ _) as [target|]; [|exact H].
    destruct (currentChatCount target >=? maxConcurrentChats target); [exact H|].
    pose proof (Hdec _ now from H) as H1.
    destruct (StaffService.unassignChat (staffService qs) now from) as [b1 st1].
    simpl in H1. pose proof (Hinc _ now to H1) as H2.
    destruct (StaffService.assignChat st1 now to) as [[|] st2]; simpl in *.
    + destruct (QueueStore.updateAssignment (store qs) sid _) as [b2 s1].
      now destruct (QueueStore.updateAssignment s1 sid _).
    + pose proof (Hinc _ now from H2) as H3.
      now destruct (StaffService.assignChat st2 now from).
  - unfold completeAssignment.
    destruct (QueueStore.getAssignment (store qs) sid) as [a|]; [|exact H].
    destruct (QueueStore.updateAssignmentStatus _ _ _) as [b s1].
    pose proof (Hdec _ now (a_staffId a) H) as H1.
    now destruct (StaffService.unassignChat _ _ _).
Qed.

Lemma loadInv_totals st :
  loadInv st ->
  0 <= totalAssignedChats (staffStats st) <= totalCapacity (staffStats st).
Proof.
  intros Hinv. simpl.
  assert (Hall : Forall loadBounded (StaffService.getAllStaff st)).
  { unfold StaffService.getAllStaff, StaffStore.getAllStaff.
    now apply Forall_map. }
  split.
  - assert (Hz : forall l : list StaffUser,
              fold_left (fun sum (_ : StaffUser) => sum + 0) l 0 = 0).
    { induction l as [|a l IH]; simpl; [reflexivity | exact IH]. }
    assert (HF : Forall (fun s => (fun _ : StaffUser => 0) s <= currentChatCount s)
                   (StaffService.getAllStaff st)).
    { eapply Forall_impl; [|exact Hall].
      intros s Hs. unfold loadBounded in Hs. simpl. lia. }
    pose proof (total_bounds (fun _ => 0) currentChatCount _ HF) as Hb.
    cbv beta in Hb. rewrite Hz in Hb. exact Hb.
  - apply total_bounds. eapply Forall_impl; [|exact Hall].
    intros s Hs. unfold loadBounded in Hs. lia.
Qed.

(** The staff store after a successful transfer. *)
Lemma transferChat_success_staff qs now sessionId fromStaffId toStaffId :
  t_success (fst (transferChat qs now sessionId fromStaffId toStaffId)) = true ->
  fst (StaffService.assignChat
         (snd (StaffService.unassignChat (staffService qs) now fromStaffId))
         now toStaffId) = true
  /\ staffService (snd (transferChat qs now sessionId fromStaffId toStaffId))
     = snd (StaffService.assignChat
              (snd (StaffService.unassignChat (staffService qs) now fromStaffId))
              now toStaffId).
Proof.
  unfold transferChat.
  destruct (QueueStore.getAssignment (store qs) sessionId) as [a|];
    [|discriminate].
  destruct (negb _); [discriminate|].
  destruct (find _ _) as [target|]; [|discriminate].
  destruct (currentChatCount target >=? maxConcurrentChats target);
    [discriminate|].
  destruct (StaffService.unassignChat (staffService qs) now fromStaffId)
    as [b1 st1].
  cbn [snd].
  destruct (StaffService.assignChat st1 now toStaffId) as [[|] st2]; simpl.
  - destruct (QueueStore.updateAssignment (store qs) sessionId _) as [b2 s1].
    destruct (QueueStore.updateAssignment s1 sessionId _). simpl. auto.
  - destruct (StaffService.assignChat st2 now fromStaffId). discriminate.
Qed.
End LedgerStaff.

(** X7.  Starting from a well-formed staff store within bounds, after any
    sequence of create, automatic create, transfer and complete operations
    the staff store is still keyed by staff identifier, every staff member
    still satisfies [0 <= currentChatCount <= maxConcurrentChats], and the
    total load does not exceed the total capacity. *)
Theorem ledger_ops_keep_loads_bounded
    (qs : QueueService.t) (ops : list (Z * LedgerOp)) :
  staffWf (QueueService.staffService qs) ->
  loadInv (QueueService.staffService qs) ->
  staffWf (QueueService.staffService (runLedger qs ops))
  /\ loadInv (QueueService.staffService (runLedger qs ops))
  /\ 0 <= totalAssignedChats
            (staffStats (QueueService.staffService (runLedger qs ops)))
       <= totalCapacity
            (staffStats (QueueService.staffService (runLedger qs ops))).
Proof.
  intros Hwf Hinv.
  assert (H : staffWf (QueueService.staffService (runLedger qs ops))
              /\ loadInv (QueueService.staffService (runLedger qs ops))).
  { revert qs Hwf Hinv. induction ops as [|[now op] rest IH]; intros qs Hwf Hinv.
    - split; assumption.
    - unfold runLedger. simpl. apply IH.
      + apply (ledger_op_staff staffWf); [|  |exact Hwf].
        * intros st n i. apply assignChat_staffWf.
        * intros st n i. apply unassignChat_staffWf.
      + apply (ledger_op_staff loadInv); [|  |exact Hinv].
        * intros st n i. apply assignChat_loadInv.
        * intros st n i. apply unassignChat_loadInv. }
  destruct H as [H1 H2]. split; [exact H1|]. split; [exact H2|].
  now apply loadInv_totals.
Qed.

Lemma ledger_ops_keep_loads_bounded_witness :
  loadInv
    (QueueService.staffService
       (runLedger Scenario.tieQueued
          [ (10, AutoCreate); (11, Create "S2" "B"); (12, Transfer "S1" "A" "B");
            (13, Complete "S1"); (14, Complete "S1") ])).
Proof.
  assert (Hwf : staffWf (QueueService.staffService Scenario.tieQueued)).
  { split; simpl.
    - repeat constructor; simpl; intuition discriminate.
    - repeat constructor. }
  assert (Hinv : loadInv (QueueService.staffService Scenario.tieQueued))
    by (repeat constructor; simpl; lia).
  exact (proj1 (proj2 (ledger_ops_keep_loads_bounded Scenario.tieQueued _
                         Hwf Hinv))).
Defined.

(** X8.  A successful transfer moves one unit of load: the total of the
    staff loads after it is the total before, plus one for the target, minus
    what [unassignChat] took from the source (one when the source has a
    positive count, nothing when its count is zero or the source is
    unknown).  In particular the total load is conserved whenever the source
    has at least one chat, and the total capacity never changes. *)
Theorem transferChat_moves_load
    (qs : QueueService.t) (now : Z) (sessionId fromStaffId toStaffId : string) :
  QueueService.t_success
    (fst (QueueService.transferChat qs now sessionId fromStaffId toStaffId))
  = true ->
  totalAssignedChats
    (staffStats
       (QueueService.staffService
          (snd (QueueService.transferChat qs now sessionId fromStaffId toStaffId))))
  = totalAssignedChats (staffStats (QueueService.staffService qs)) + 1
    - match StaffStore.findById (QueueService.staffService qs) fromStaffId with
      | Some u => currentChatCount u - Z.max 0 (currentChatCount u - 1)
      | None => 0
      end
  /\ totalCapacity
       (staffStats
          (QueueService.staffService
             (snd (QueueService.transferChat qs now sessionId fromStaffId toStaffId))))
     = totalCapacity (staffStats (QueueService.staffService qs))
  /\ (forall u,
        StaffStore.findById (QueueService.staffService qs) fromStaffId = Some u ->
        1 <= currentChatCount u ->
        totalAssignedChats
          (staffStats
             (QueueService.staffService
                (snd (QueueService.transferChat qs now sessionId fromStaffId
                        toStaffId))))
        = totalAssignedChats (staffStats (QueueService.staffService qs))).
Proof.
  intros Hok.
  destruct (transferChat_success_staff _ _ _ _ _ Hok) as [Hinc Hst].
  pose proof (assignChat_total _ _ _ Hinc) as [Htot Hcap].
  pose proof (unassignChat_total (QueueService.staffService qs) now fromStaffId)
    as [Htot1 Hcap1].
  rewrite Hst.
  assert (Hsum : totalAssignedChats
                   (staffStats
                      (snd (StaffService.assignChat
                              (snd (StaffService.unassignChat
                                      (QueueService.staffService qs) now fromStaffId))
                              now toStaffId)))
                 = totalAssignedChats (staffStats (QueueService.staffService qs)) + 1
                   - match StaffStore.findById (QueueService.staffService qs)
                             fromStaffId with
                     | Some u => currentChatCount u - Z.max 0 (currentChatCount u - 1)
                     | None => 0
                     end) by lia.
  split; [exact Hsum|]. split; [lia|].
  intros u Hu Hpos. rewrite Hsum, Hu. lia.
Qed.

Lemma transferChat_moves_load_witness :
  totalAssignedChats
    (staffStats
       (QueueService.staffService
          (snd (QueueService.transferChat Scenario.ownedByA 20 "S1" "A" "B"))))
  = totalAssignedChats (staffStats (QueueService.staffService Scenario.ownedByA)).
Proof.
  refine (proj2 (proj2 (transferChat_moves_load Scenario.ownedByA 20 "S1" "A" "B" _))
            _ _ _).
  - reflexivity.
  - reflexivity.
  - simpl. lia.
Defined.

(** ** Staff directory: presence and statistics *)

Section StaffDirectory.

Lemma staff_by_id st staffId s :
  staffWf st ->
  (In s (StaffService.getAllStaff st) /\ s_id s = staffId
   <-> StaffStore.findById st staffId = Some s).
Proof.
  intros [Hnd Hkey]. rewrite Forall_forall in Hkey. split.
  - intros [Hin Hid].
    unfold StaffService.getAllStaff, StaffStore.getAllStaff, JsMap.values in Hin.
    apply in_map_iff in Hin as [row [<- Hin]].
    apply in_map_iff in Hin as [[k row'] [Hrow Hin]]. simpl in Hrow. subst row'.
    pose proof (Hkey _ Hin) as Hk. simpl in Hk. subst k.
    rewrite findById_get, <- Hid, (In_get _ _ _ Hnd Hin). reflexivity.
  - rewrite findById_get.
    destruct (JsMap.get st staffId) as [row|] eqn:Hget; [|discriminate].
    simpl. intros H. injection H as <-.
    pose proof (get_In _ _ _ Hget) as Hin. split.
    + unfold StaffService.getAllStaff, StaffStore.getAllStaff, JsMap.values.
      apply in_map. change row with (snd (staffId, row)). now apply in_map.
    + symmetry. exact (Hkey _ Hin).
Qed.

Lemma map_values_set {V B} (g : V -> B) (m : JsMap.t V) k old new :
  JsMap.get m k = Some old -> g new = g old ->
  map g (JsMap.values (JsMap.set m k new)) = map g (JsMap.values m).
Proof.
  unfold JsMap.values. induction m as [|[k0 v0] r IH]; simpl; [discriminate|].
  destruct (String.eqb k0 k); intros Hget Hg; simpl.
  - injection Hget as ->. now rewrite Hg.
  - now rewrite IH.
Qed.

Lemma countStatus_partition (l : list StaffUser) :
  Z.of_nat (List.length l)
  = countStatus online l + countStatus busy l + countStatus away l
    + countStatus offline l.
Proof.
  unfold countStatus. induction l as [|s r IH]; [reflexivity|].
  cbn [filter List.length].
  destruct (s_status s); cbn [StaffStatus_eqb List.length];
    rewrite ?Nat2Z.inj_succ; lia.
Qed.
End StaffDirectory.

(** X9.  Changing the status of a known staff member changes nothing but the
    status and the time of last activity: identifiers, loads and capacities
    are as before.  Afterwards the member is a candidate for automatic
    assignment exactly when the new status is 'online' and the load is below
    the capacity, and the candidacy of every other member is unchanged.  For
    an unknown identifier nothing happens and the result is [null]. *)
Theorem updateStatus_availability
    (st : StaffStore.t) (now : Z) (staffId : string) (status : StaffStatus) :
  staffWf st ->
  (StaffStore.findById st staffId = None ->
   StaffService.updateStatus st now staffId status = (None, st))
  /\ (forall u,
        StaffStore.findById st staffId = Some u ->
        loadsOf (snd (StaffService.updateStatus st now staffId status)) = loadsOf st
        /\ ((exists s,
               In s (StaffService.getAvailableStaff
                       (snd (StaffService.updateStatus st now staffId status)))
               /\ s_id s = staffId)
            <-> status = online /\ currentChatCount u < maxConcurrentChats u)
        /\ (forall s, s_id s <> staffId ->
              (In s (StaffService.getAvailableStaff
                       (snd (StaffService.updateStatus st now staffId status)))
               <-> In s (StaffService.getAvailableStaff st)))).
Proof.
  intros Hwf.
  pose proof (updateStatus_staffWf st now staffId status Hwf) as Hwf'.
  unfold StaffService.updateStatus, StaffStore.updateStaff in *.
  rewrite findById_get.
  destruct (JsMap.get st staffId) as [row|] eqn:Hget; simpl;
    split; try discriminate; try reflexivity.
  intros u Hu. injection Hu as <-. simpl in Hwf'.
  assert (Hid : s_id (user row) = staffId).
  { destruct Hwf as [_ Hkey]. rewrite Forall_forall in Hkey.
    symmetry. exact (Hkey _ (get_In _ _ _ Hget)). }
  split; [|split].
  - unfold loadsOf, StaffService.getAllStaff, StaffStore.getAllStaff.
    rewrite !map_map.
    now apply map_values_set with row.
  - rewrite getAvailableStaff_filter. split.
    + intros (s & Hin & Hs). apply filter_In in Hin as [Hin Hav].
      pose proof (proj1 (staff_by_id _ staffId s Hwf') (conj Hin Hs)) as Hf.
      rewrite findById_get, get_set_same in Hf. simpl in Hf.
      injection Hf as <-. unfold isAvailable in Hav. simpl in Hav.
      apply andb_true_iff in Hav as [Hon Hlt]. apply Z.ltb_lt in Hlt.
      split; [now destruct status | exact Hlt].
    + intros [-> Hlt].
      eexists. split.
      * apply filter_In. split.
        -- apply (proj2 (staff_by_id _ staffId _ Hwf')).
           rewrite findById_get, get_set_same. reflexivity.
        -- unfold isAvailable. simpl. now apply Z.ltb_lt.
      * exact Hid.
  - intros s Hs. rewrite !getAvailableStaff_filter, !filter_In.
    assert (Hiff : In s (StaffService.getAllStaff
                           (JsMap.set st staffId
                              (StaffStore.applyUpdates row
                                 (mkPartialStaffUser None None None None
                                    (Some status) None None None None) now)))
                   <-> In s (StaffService.getAllStaff st)).
    { split; intros Hin.
      - apply (staff_by_id _ (s_id s) s Hwf).
        assert (H := proj1 (staff_by_id _ (s_id s) s Hwf') (conj Hin eq_refl)).
        rewrite findById_get, get_set_other in H by congruence.
        now rewrite findById_get.
      - apply (staff_by_id _ (s_id s) s Hwf').
        assert (H := proj1 (staff_by_id _ (s_id s) s Hwf) (conj Hin eq_refl)).
        rewrite findById_get, get_set_other by congruence.
        now rewrite findById_get in H. }
    now rewrite Hiff.
Qed.

Lemma updateStatus_availability_witness :
  (exists s,
     In s (StaffService.getAvailableStaff
             (snd (StaffService.updateStatus Scenario.defaultStaff 5 "id-agent"
                     online)))
     /\ s_id s = "id-agent").
Proof.
  assert (Hwf : staffWf Scenario.defaultStaff).
  { split; simpl.
    - repeat constructor; simpl; intuition discriminate.
    - repeat constructor. }
  destruct (updateStatus_availability Scenario.defaultStaff 5 "id-agent" online Hwf)
    as [_ H].
  destruct (H _ eq_refl) as (_ & Hiff & _).
  apply Hiff. split; [reflexivity | simpl; lia].
Defined.

(** X10.  In the staff statistics the numbers of online, busy and away
    members together with the offline ones make up the total staff (offline
    members are not reported); and in a store within bounds the total of
    assigned chats lies between 0 and the total capacity. *)
Theorem staff_stats_consistent (st : StaffStore.t) :
  totalStaff (staffStats st)
  = onlineStaff (staffStats st) + busyStaff (staffStats st)
    + awayStaff (staffStats st)
    + countStatus offline (StaffService.getAllStaff st)
  /\ (loadInv st ->
      0 <= totalAssignedChats (staffStats st) <= totalCapacity (staffStats st)).
Proof.
  split; [apply countStatus_partition | apply loadInv_totals].
Qed.

Lemma staff_stats_consistent_witness :
  0 <= totalAssignedChats (staffStats Scenario.defaultStaff)
    <= totalCapacity (staffStats Scenario.defaultStaff).
Proof.
  apply (proj2 (staff_stats_consistent Scenario.defaultStaff)).
  repeat constructor; simpl; lia.
Defined.

(** X11.  With a well-formed staff store, a manual assignment succeeds
    exactly when the target staff member exists and is below capacity.  It
    fails with 'Staff member not found' for an unknown identifier and with
    'Staff member at maximum capacity' for a full one, and a failed
    assignment leaves the queue, the ledger and the staff store untouched. *)
Theorem assignChatToStaff_outcomes
    (qs : QueueService.t) (now : Z) (sessionId staffId : string) :
  staffWf (QueueService.staffService qs) ->
  (StaffStore.findById (QueueService.staffService qs) staffId = None ->
   QueueService.assignChatToStaff qs now sessionId staffId
   = (QueueService.failure "Staff member not found", qs))
  /\ (forall u,
        StaffStore.findById (QueueService.staffService qs) staffId = Some u ->
        maxConcurrentChats u <= currentChatCount u ->
        QueueService.assignChatToStaff qs now sessionId staffId
        = (QueueService.failure "Staff member at maximum capacity", qs))
  /\ (success (fst (QueueService.assignChatToStaff qs now sessionId staffId)) = true
      <-> exists u,
            StaffStore.findById (QueueService.staffService qs) staffId = Some u
            /\ currentChatCount u < maxConcurrentChats u)
  /\ (success (fst (QueueService.assignChatToStaff qs now sessionId staffId)) = false ->
      snd (QueueService.assignChatToStaff qs now sessionId staffId) = qs).
Proof.
  intros Hwf.
  assert (Hnone : StaffStore.findById (QueueService.staffService qs) staffId = None ->
                  QueueService.assignChatToStaff qs now sessionId staffId
                  = (QueueService.failure "Staff member not found", qs)).
  { intros H. unfold QueueService.assignChatToStaff.
    now rewrite (find_staff _ staffId Hwf), H. }
  assert (Hfull : forall u,
            StaffStore.findById (QueueService.staffService qs) staffId = Some u ->
            maxConcurrentChats u <= currentChatCount u ->
            QueueService.assignChatToStaff qs now sessionId staffId
            = (QueueService.failure "Staff member at maximum capacity", qs)).
  { intros u H Hle. unfold QueueService.assignChatToStaff.
    rewrite (find_staff _ staffId Hwf), H.
    destruct (currentChatCount u >=? maxConcurrentChats u) eqn:E;
      [reflexivity | lia]. }
  split; [exact Hnone|]. split; [exact Hfull|].
  destruct (StaffStore.findById (QueueService.staffService qs) staffId)
    as [u|] eqn:Hfind.
  - destruct (Z_lt_le_dec (currentChatCount u) (maxConcurrentChats u)) as [Hlt | Hle].
    + destruct (assignChatToStaff_carried_out qs now sessionId staffId u
                  Hwf Hfind Hlt) as (Hr & _).
      rewrite Hr. simpl. split.
      * split; [intros _; now exists u | reflexivity].
      * discriminate.
    + rewrite (Hfull u eq_refl Hle). simpl. split; [|reflexivity].
      split; [discriminate|]. intros (u' & Hu' & Hlt). injection Hu' as <-. lia.
  - rewrite (Hnone eq_refl). simpl. split; [|reflexivity].
    split; [discriminate|]. intros (u' & Hu' & _). discriminate.
Qed.

Lemma assignChatToStaff_outcomes_witness :
  QueueService.assignChatToStaff Scenario.targetFull 20 "S2" "B"
  = (QueueService.failure "Staff member at maximum capacity", Scenario.targetFull).
Proof.
  assert (Hwf : staffWf (QueueService.staffService Scenario.targetFull)).
  { split; simpl.
    - repeat constructor; simpl; intuition discriminate.
    - repeat constructor. }
  refine (proj1 (proj2 (assignChatToStaff_outcomes Scenario.targetFull 20 "S2" "B"
                          Hwf)) (user (Scenario.staffB 1 1)) _ _).
  - reflexivity.
  - simpl. lia.
Defined.

(** ** Ledger listing and queue removal *)

Section Listing.

Lemma keyed_get_value {V} (key : V -> string) (m : JsMap.t V) v :
  keyedBy key m -> In v (JsMap.values m) -> JsMap.get m (key v) = Some v.
Proof.
  intros [Hnd Hkey] Hin. rewrite Forall_forall in Hkey.
  unfold JsMap.values in Hin. apply in_map_iff in Hin as [[k v'] [Hv Hin]].
  simpl in Hv. subst v'. pose proof (Hkey _ Hin) as Hk. simpl in Hk. subst k.
  now apply In_get.
Qed.
End Listing.

(** X12.  With the ledger keyed by session, the assignments listed for a
    staff member are exactly the ledger records that name that member, a
    session is listed for at most one staff member, and completing a
    session does not take it off its owner's list: the record stays, marked
    'completed'. *)
Theorem staff_assignments_listing (qs : QueueService.t) :
  ledgerKeyed (QueueService.store qs) ->
  (forall staffId a,
      In a (QueueService.getStaffAssignments qs staffId)
      <-> QueueService.getSessionAssignment qs (a_sessionId a) = Some a
          /\ a_staffId a = staffId)
  /\ (forall staff1 staff2 a1 a2,
        In a1 (QueueService.getStaffAssignments qs staff1) ->
        In a2 (QueueService.getStaffAssignments qs staff2) ->
        a_sessionId a1 = a_sessionId a2 ->
        a1 = a2 /\ staff1 = staff2)
  /\ (forall now sessionId a,
        QueueService.getSessionAssignment qs sessionId = Some a ->
        In (markCompleted a)
          (QueueService.getStaffAssignments
             (snd (QueueService.completeAssignment qs now sessionId))
             (a_staffId a))).
Proof.
  intros Hk.
  assert (Hlist : forall staffId a,
            In a (QueueService.getStaffAssignments qs staffId)
            <-> QueueService.getSessionAssignment qs (a_sessionId a) = Some a
                /\ a_staffId a = staffId).
  { intros staffId a.
    unfold QueueService.getStaffAssignments, QueueStore.getStaffAssignments,
      QueueService.getSessionAssignment, QueueStore.getAssignment.
    rewrite filter_In, String.eqb_eq. split; intros [H1 H2]; split; auto.
    - now apply (keyed_get_value a_sessionId).
    - apply get_In in H1. unfold JsMap.values.
      change a with (snd (a_sessionId a, a)). now apply in_map. }
  split; [exact Hlist|]. split.
  - intros staff1 staff2 a1 a2 H1 H2 Hs.
    apply Hlist in H1 as [G1 <-]. apply Hlist in H2 as [G2 <-].
    rewrite Hs, G2 in G1. injection G1 as ->. auto.
  - intros now sessionId a Ha.
    unfold QueueService.getSessionAssignment in Ha.
    rewrite (completeAssignment_found qs now sessionId a Ha). cbn [snd].
    unfold QueueService.getStaffAssignments, QueueStore.getStaffAssignments.
    cbn [QueueService.store QueueStore.assignments].
    apply filter_In. split.
    + pose proof (get_set_same (QueueStore.assignments (QueueService.store qs))
                    sessionId (markCompleted a)) as Hget.
      apply get_In in Hget. unfold JsMap.values.
      change (markCompleted a) with (snd (sessionId, markCompleted a)).
      now apply in_map.
    + simpl. apply String.eqb_refl.
Qed.

Lemma staff_assignments_listing_witness :
  In (markCompleted (mkStaffAssignment "S1" "A" 10 AssignmentStatus.assigned))
    (QueueService.getStaffAssignments
       (snd (QueueService.completeAssignment Scenario.ownedByA 20 "S1")) "A").
Proof.
  assert (Hk : ledgerKeyed (QueueService.store Scenario.ownedByA)).
  { split; simpl.
    - repeat constructor; simpl; intuition discriminate.
    - repeat constructor. }
  exact (proj2 (proj2 (staff_assignments_listing Scenario.ownedByA Hk))
           20 "S1" (mkStaffAssignment "S1" "A" 10 AssignmentStatus.assigned)
           eq_refl).
Defined.

(** X13.  Removing a session from the queue touches nothing else: the
    ledger is unchanged and so is the number of entries of every other
    session.  When the session has no entry the call returns [false] and
    the store is exactly as before; when it has one the queue is one entry
    shorter. *)
Theorem removeFromQueue_effect (qs : QueueStore.t) (sessionId : string) :
  NoDup (JsMap.keys (QueueStore.queue qs)) ->
  QueueStore.assignments (snd (QueueStore.removeFromQueue qs sessionId))
    = QueueStore.assignments qs
  /\ (forall other, other <> sessionId ->
        occurrences (QueueStore.queue (snd (QueueStore.removeFromQueue qs sessionId)))
          other
        = occurrences (QueueStore.queue qs) other)
  /\ (occurrences (QueueStore.queue qs) sessionId = 0%nat ->
      QueueStore.removeFromQueue qs sessionId = (false, qs))
  /\ (occurrences (QueueStore.queue qs) sessionId <> 0%nat ->
      fst (QueueStore.removeFromQueue qs sessionId) = true
      /\ QueueStore.getQueueLength (snd (QueueStore.removeFromQueue qs sessionId))
         = QueueStore.getQueueLength qs - 1).
Proof.
  intros Hnd. split; [apply removeFromQueue_assignments|].
  unfold QueueStore.removeFromQueue. rewrite removeLoop_find.
  unfold JsMap.entries.
  destruct (find (fun e => String.eqb (q_sessionId (snd e)) sessionId)
              (QueueStore.queue qs)) as [[k item]|] eqn:Hfind; simpl.
  - destruct (find_some _ _ Hfind) as [Hin Hs]. simpl in Hs.
    pose proof (In_get _ _ _ Hnd Hin) as Hget.
    split; [|split].
    + intros other Hne.
      rewrite (occurrences_delete _ _ _ other Hget).
      apply String.eqb_eq in Hs. subst sessionId.
      apply not_eq_sym, String.eqb_neq in Hne. now rewrite Hne.
    + intros Hzero. rewrite (occurrences_delete _ _ _ sessionId Hget), Hs in Hzero.
      discriminate.
    + intros _. split; [reflexivity|].
      pose proof (length_delete _ _ _ Hget) as Hl.
      unfold QueueStore.getQueueLength, JsMap.size. cbn [QueueStore.queue]. lia.
  - split; [reflexivity|]. split.
    + intros _. now destruct qs.
    + intros Hne. exfalso. apply Hne. now apply occurrences_none.
Qed.

Lemma removeFromQueue_effect_witness :
  fst (QueueStore.removeFromQueue (QueueService.store Scenario.queuedTwice) "S1")
  = true
  /\ QueueStore.getQueueLength
       (snd (QueueStore.removeFromQueue (QueueService.store Scenario.queuedTwice)
               "S1"))
     = QueueStore.getQueueLength (QueueService.store Scenario.queuedTwice) - 1.
Proof.
  refine (proj2 (proj2 (proj2 (removeFromQueue_effect
                                 (QueueService.store Scenario.queuedTwice) "S1" _)))
            _).
  - simpl. repeat constructor; simpl; intuition discriminate.
  - vm_compute. discriminate.
Defined.

(** ** Sessions *)

Section SessionFacts.
Import SessionService.

Lemma lastN_length {A} limit (l : list A) :
  List.length (lastN limit l) = Nat.min limit (List.length l).
Proof. unfold lastN. rewrite length_skipn. lia. Qed.

Lemma lastN_snoc {A} limit (l : list A) x :
  (0 < limit)%nat -> exists kept, lastN limit (l ++ [x]) = kept ++ [x].
Proof.
  intros Hpos. unfold lastN. rewrite length_app. simpl.
  rewrite skipn_app.
  replace (List.length l + 1 - limit - List.length l)%nat with 0%nat by lia.
  simpl. now eexists.
Qed.

Lemma get_delete_same {V} (m : JsMap.t V) k :
  NoDup (JsMap.keys m) -> JsMap.get (JsMap.delete m k) k = None.
Proof.
  induction m as [|[k0 v0] r IH]; simpl; [reflexivity|].
  intros Hnd. inversion Hnd as [|? ? Hnot Hnd']; subst.
  destruct (String.eqb k0 k) eqn:E.
  - apply String.eqb_eq in E. subst. now apply get_None_keys.
  - simpl. rewrite E. now apply IH.
Qed.

Lemma get_delete_other {V} (m : JsMap.t V) k k' :
  k <> k' -> JsMap.get (JsMap.delete m k) k' = JsMap.get m k'.
Proof.
  intros Hne. induction m as [|[k0 v0] r IH]; simpl; [reflexivity|].
  destruct (String.eqb k0 k) eqn:E; simpl.
  - apply String.eqb_eq in E. subst k0.
    apply String.eqb_neq in Hne. now rewrite Hne.
  - now rewrite IH.
Qed.

Lemma countSessions_partition (l : list ChatSession) :
  Z.of_nat (List.length l)
  = countSessions SessionStatus.active l + countSessions SessionStatus.resolved l
    + countSessions SessionStatus.escalated l
    + countSessions SessionStatus.waiting_for_staff l
    + countSessions SessionStatus.with_staff l.
Proof.
  unfold countSessions. induction l as [|s r IH]; [reflexivity|].
  cbn [filter List.length].
  destruct (cs_status s); cbn [SessionStatus_eqb List.length];
    rewrite ?Nat2Z.inj_succ; lia.
Qed.
End SessionFacts.



(** X15.  The statistics of the sessions count only three of the five
    statuses: the total is the number of active, resolved and escalated
    sessions plus the sessions that wait for staff or are with staff, which
    no component reports. *)
Theorem session_stats_partition (ss : SessionService.t) :
  SessionService.st_total (SessionService.getSessionStats ss)
  = SessionService.st_active (SessionService.getSessionStats ss)
    + SessionService.st_resolved (SessionService.getSessionStats ss)
    + SessionService.st_escalated (SessionService.getSessionStats ss)
    + Z.of_nat (List.length
                  (SessionService.getSessionsByStatus ss
                     SessionStatus.waiting_for_staff))
    + Z.of_nat (List.length
                  (SessionService.getSessionsByStatus ss SessionStatus.with_staff)).
Proof. apply countSessions_partition. Qed.

(** X16.  Life cycle of a session in a store keyed by session identifier.
    A created session is stored under its identifier, is active and has no
    messages, and is listed for its user when it has one; every
    other session is as before.  Deleting it makes the identifier unknown
    again, leaves every other session as it is and takes the session off
    the list of its user. *)
Theorem session_create_delete
    (ss : SessionService.t) (uuid : string) (now : Z)
    (customerInfo : option CustomerInfo) :
  keyedBy cs_id (SessionService.sessions ss) ->
  SessionService.getSession
    (snd (SessionService.createSession ss uuid now customerInfo)) uuid
  = Some (fst (SessionService.createSession ss uuid now customerInfo))
  /\ fst (SessionService.createSession ss uuid now customerInfo)
     = mkChatSession uuid
         (match customerInfo with Some ci => ci_userId ci | None => None end)
         customerInfo [] SessionStatus.active now now None
  /\ keyedBy cs_id
       (SessionService.sessions
          (snd (SessionService.createSession ss uuid now customerInfo)))
  /\ (forall other, other <> uuid ->
        SessionService.getSession
          (snd (SessionService.createSession ss uuid now customerInfo)) other
        = SessionService.getSession ss other)
  /\ (forall ci u,
        customerInfo = Some ci -> ci_userId ci = Some u -> u <> "" ->
        In (fst (SessionService.createSession ss uuid now customerInfo))
          (SessionService.getUserSessions
             (snd (SessionService.createSession ss uuid now customerInfo)) u))
  /\ SessionService.getSession
       (SessionService.deleteSession
          (snd (SessionService.createSession ss uuid now customerInfo)) uuid)
       uuid
     = None
  /\ (forall other, other <> uuid ->
        SessionService.getSession
          (SessionService.deleteSession
             (snd (SessionService.createSession ss uuid now customerInfo)) uuid)
          other
        = SessionService.getSession ss other)
  /\ (forall u s,
        In s (SessionService.getUserSessions
                (SessionService.deleteSession
                   (snd (SessionService.createSession ss uuid now customerInfo))
                   uuid)
                u) ->
        cs_id s <> uuid).
Proof.
  intros Hk.
  assert (Hk1 : keyedBy cs_id
                  (SessionService.sessions
                     (snd (SessionService.createSession ss uuid now customerInfo)))).
  { simpl. now apply keyedBy_set. }
  split; [unfold SessionService.getSession; simpl; apply get_set_same|].
  split; [reflexivity|]. split; [exact Hk1|]. split.
  { intros other Hne. unfold SessionService.getSession. simpl.
    now rewrite get_set_other by congruence. }
  split.
  { intros ci u -> Hu Hne. unfold SessionService.getUserSessions. simpl.
    rewrite Hu. apply String.eqb_neq in Hne. rewrite Hne. simpl.
    rewrite get_set_same. simpl.
    apply in_flat_map. exists uuid. split; [apply in_or_app; right; now left|].
    rewrite get_set_same. now left. }
  split.
  { unfold SessionService.getSession, SessionService.deleteSession.
    cbn [SessionService.sessions]. apply get_delete_same. apply Hk1. }
  split.
  { intros other Hne. unfold SessionService.getSession, SessionService.deleteSession.
    cbn [SessionService.sessions].
    rewrite get_delete_other by congruence. simpl.
    now rewrite get_set_other by congruence. }
  intros u s Hin Hid.
  unfold SessionService.getUserSessions in Hin.
  apply in_flat_map in Hin as [id [_ Hin]].
  unfold SessionService.deleteSession in Hin. cbn [SessionService.sessions] in Hin.
  destruct (JsMap.get _ id) as [s'|] eqn:Hget in Hin; [|destruct Hin].
  destruct Hin as [<- | []].
  destruct (string_dec id uuid) as [-> | Hne].
  - rewrite get_delete_same in Hget by apply Hk1. discriminate.
  - rewrite get_delete_other in Hget by congruence.
    pose proof (stored_keyed := proj2 Hk1). rewrite Forall_forall in stored_keyed.
    pose proof (stored_keyed _ (get_In _ _ _ Hget)) as Hkey. simpl in Hkey.
    congruence.
Qed.

Lemma session_create_delete_witness :
  SessionService.getSession
    (SessionService.deleteSession
       (snd (SessionService.createSession SessionService.empty "S1" 0 None)) "S1")
    "S1"
  = None.
Proof.
  refine (proj1 (proj2 (proj2 (proj2 (proj2 (proj2
            (session_create_delete SessionService.empty "S1" 0 None _))))))).
  split; simpl; constructor.
Defined.

(** X17.  [getOrCreateSession] returns a session that is stored under its
    own identifier.  A known, non-empty identifier yields the stored session
    and changes nothing; otherwise a session is created under a newly
    generated identifier, so that an unknown identifier that was asked for
    is not the identifier of the session returned. *)
Theorem getOrCreateSession_stored
    (ss : SessionService.t) (uuid : string) (now : Z)
    (sessionId : option string) (customerInfo : option CustomerInfo) :
  keyedBy cs_id (SessionService.sessions ss) ->
  SessionService.getSession
    (snd (SessionService.getOrCreateSession ss uuid now sessionId customerInfo))
    (cs_id (fst (SessionService.getOrCreateSession ss uuid now sessionId
                   customerInfo)))
  = Some (fst (SessionService.getOrCreateSession ss uuid now sessionId customerInfo))
  /\ (forall id session,
        sessionId = Some id -> id <> "" ->
        SessionService.getSession ss id = Some session ->
        SessionService.getOrCreateSession ss uuid now sessionId customerInfo
        = (session, ss))
  /\ (forall id,
        sessionId = Some id ->
        SessionService.getSession ss id = None ->
        cs_id (fst (SessionService.getOrCreateSession ss uuid now sessionId
                      customerInfo))
        = uuid).
Proof.
  intros Hk. unfold SessionService.getOrCreateSession. split; [|split].
  - destruct sessionId as [id|]; [destruct (String.eqb id "")|];
      try (unfold SessionService.getSession; simpl; apply get_set_same).
    destruct (SessionService.getSession ss id) as [session|] eqn:Hs;
      [|unfold SessionService.getSession; simpl; apply get_set_same].
    simpl. unfold SessionService.getSession in *.
    pose proof (proj2 Hk) as Hkey. rewrite Forall_forall in Hkey.
    pose proof (Hkey _ (get_In _ _ _ Hs)) as Hid. simpl in Hid.
    now rewrite <- Hid.
  - intros id session -> Hne Hs. apply String.eqb_neq in Hne.
    now rewrite Hne, Hs.
  - intros id -> Hs. rewrite Hs. now destruct (String.eqb id "").
Qed.

Lemma getOrCreateSession_stored_witness :
  cs_id (fst (SessionService.getOrCreateSession
                (sessionService Scenario.handedOver) "fresh" 30 (Some "S9") None))
  = "fresh".
Proof.
  refine (proj2 (proj2 (getOrCreateSession_stored
                          (sessionService Scenario.handedOver) "fresh" 30
                          (Some "S9") None _)) "S9" eq_refl _).
  - split; simpl.
    + repeat constructor; simpl; intuition discriminate.
    + repeat constructor.
  - reflexivity.
Defined.

(** ** Staff sessions *)

Section AuthFacts.
Import StaffAuth.

Lemma findByEmail_stored st email row :
  staffWf st -> StaffStore.findByEmail st email = Some row ->
  JsMap.get st (s_id (user row)) = Some row /\ s_email (user row) = email.
Proof.
  intros [Hnd Hkey] Hfind. unfold StaffStore.findByEmail in Hfind.
  destruct (find_some _ _ Hfind) as [Hin He].
  apply String.eqb_eq in He. split; [|exact He].
  apply (keyed_get_value (fun r => s_id (user r))); [now split | exact Hin].
Qed.
End AuthFacts.

(** X18.  Login and logout against a well-formed staff store.  A failed
    login (unknown e-mail or password mismatch) reports 'Invalid email or
    password' and changes nothing.  After a successful login the token
    resolves to the staff member returned, whose status is 'online'; loads
    and capacities are unchanged.  After logout with that token the token
    resolves to nothing and the staff member is 'offline'. *)
Theorem login_logout_roundtrip
    (bcryptCompare : string -> string -> bool)
    (jwtSign : string -> string -> StaffRole -> Z -> string)
    (a : StaffAuth.t) (now : Z) (email pass : string) :
  staffWf (StaffAuth.staff a) ->
  NoDup (JsMap.keys (StaffAuth.sessions a)) ->
  (forall e a',
      StaffAuth.login bcryptCompare jwtSign a now email pass = (inl e, a') ->
      e = "Invalid email or password" /\ a' = a)
  /\ (forall resp a',
        StaffAuth.login bcryptCompare jwtSign a now email pass = (inr resp, a') ->
        s_id (lr_user resp) <> "" ->
        StaffAuth.getStaffByToken a' (lr_token resp) = Some (lr_user resp)
        /\ s_status (lr_user resp) = online
        /\ s_email (lr_user resp) = email
        /\ loadsOf (StaffAuth.staff a') = loadsOf (StaffAuth.staff a)
        /\ (forall later,
              StaffAuth.getStaffByToken
                (StaffAuth.logout a' later (lr_token resp)) (lr_token resp)
              = None
              /\ option_map s_status
                   (StaffStore.findById
                      (StaffAuth.staff (StaffAuth.logout a' later (lr_token resp)))
                      (s_id (lr_user resp)))
                 = Some offline)).
Proof.
  intros Hwf Hnd. unfold StaffAuth.login.
  destruct (StaffStore.findByEmail (StaffAuth.staff a) email) as [row|] eqn:Hfind.
  2:{ split; intros ? ? H; inversion H; auto. }
  destruct (findByEmail_stored _ _ _ Hwf Hfind) as [Hget Hemail].
  destruct (negb (bcryptCompare pass (password row))).
  { split; intros ? ? H; inversion H; auto. }
  unfold StaffStore.updateStaff, StaffAuth.createSession.
  cbn [StaffAuth.staff StaffAuth.sessions]. rewrite Hget.
  split; [intros ? ? H; inversion H|].
  intros resp a' H Hid. injection H as <- <-.
  cbn [lr_user lr_token s_id s_status s_email] in *.
  set (token := jwtSign (s_id (user row)) (s_email (user row)) (s_role (user row)) now).
  set (row1 := StaffStore.applyUpdates row
                 (mkPartialStaffUser None None None None (Some online) None
                    (Some now) None None) now).
  assert (Htok : StaffAuth.getStaffByToken
                   (StaffAuth.mk (JsMap.set (StaffAuth.staff a) (s_id (user row)) row1)
                      (JsMap.set (StaffAuth.sessions a) token (s_id (user row))))
                   token
                 = Some (user row1)).
  { unfold StaffAuth.getStaffByToken. cbn [StaffAuth.staff StaffAuth.sessions].
    rewrite get_set_same. apply String.eqb_neq in Hid. rewrite Hid.
    now rewrite findById_get, get_set_same. }
  split; [exact Htok|]. split; [reflexivity|]. split; [exact Hemail|]. split.
  { unfold loadsOf, StaffService.getAllStaff, StaffStore.getAllStaff.
    cbn [StaffAuth.staff]. rewrite !map_map.
    now apply map_values_set with row. }
  intros later. unfold StaffAuth.logout. rewrite Htok.
  unfold StaffAuth.deleteSession, StaffAuth.getStaffByToken,
    StaffStore.updateStaff.
  cbn [StaffAuth.staff StaffAuth.sessions].
  replace (s_id (user row1)) with (s_id (user row)) by reflexivity.
  rewrite get_set_same. cbn [snd]. split.
  - rewrite get_delete_same; [reflexivity|]. now apply keys_set_NoDup.
  - now rewrite findById_get, get_set_same.
Qed.

(** ** The history sent to the model *)

Section HistoryFacts.
Import AIService.

Lemma filter_snoc {A} (p : A -> bool) l x :
  filter p (l ++ [x]) = filter p l ++ (if p x then [x] else []).
Proof. rewrite filter_app. reflexivity. Qed.
End HistoryFacts.

(** X19.  The history prepared for the model never has more than ten
    entries and never contains a system message: its length is the smaller
    of ten and the number of non-system messages.  Whatever the length of
    the conversation, the most recent non-system message is its last
    entry. *)
Theorem formatMessagesForAI_window (history : list ChatMessage) :
  List.length (AIService.formatMessagesForAI history)
  = Nat.min 10
      (List.length (filter (fun msg => negb (AIService.isSystem msg)) history))
  /\ (List.length (AIService.formatMessagesForAI history) <= 10)%nat
  /\ Forall (fun entry => fst entry <> role_system)
       (AIService.formatMessagesForAI history)
  /\ (forall msg,
        AIService.isSystem msg = false ->
        exists earlier,
          AIService.formatMessagesForAI (history ++ [msg])
          = earlier ++ [(m_role msg, content msg)]).
Proof.
  assert (Hlen : List.length (AIService.formatMessagesForAI history)
                 = Nat.min 10
                     (List.length
                        (filter (fun msg => negb (AIService.isSystem msg)) history))).
  { unfold AIService.formatMessagesForAI.
    now rewrite length_map, lastN_length. }
  split; [exact Hlen|]. split; [rewrite Hlen; lia|]. split.
  - unfold AIService.formatMessagesForAI. apply Forall_map.
    apply Forall_forall. intros msg Hin.
    unfold SessionService.lastN in Hin.
    assert (Hin' : In msg (filter (fun m => negb (AIService.isSystem m)) history)).
    { rewrite <- (firstn_skipn
                    (List.length
                       (filter (fun m => negb (AIService.isSystem m)) history) - 10)
                    (filter (fun m => negb (AIService.isSystem m)) history)).
      apply in_or_app. now right. }
    apply filter_In in Hin' as [_ Hns]. simpl.
    unfold AIService.isSystem in Hns. intros Hr. rewrite Hr in Hns. discriminate.
  - intros msg Hns. unfold AIService.formatMessagesForAI.
    rewrite filter_snoc, Hns. simpl.
    destruct (lastN_snoc 10
                (filter (fun m => negb (AIService.isSystem m)) history) msg)
      as [kept ->]; [lia|].
    rewrite map_app. simpl. now eexists.
Qed.

Lemma login_logout_roundtrip_witness :
  exists resp a',
    StaffAuth.login Scenario.checkPassword Scenario.tokenFor Scenario.authStore 7
      "agent@mtom-ai.com" "agent123"
    = (inr resp, a')
    /\ StaffAuth.getStaffByToken a' (lr_token resp) = Some (lr_user resp).
Proof.
  assert (Hwf : staffWf (StaffAuth.staff Scenario.authStore)).
  { split; simpl.
    - repeat constructor; simpl; intuition discriminate.
    - repeat constructor. }
  assert (Hnd : NoDup (JsMap.keys (StaffAuth.sessions Scenario.authStore)))
    by constructor.
  eexists. eexists. split; [vm_compute; reflexivity|].
  refine (proj1 (proj2 (login_logout_roundtrip Scenario.checkPassword
                          Scenario.tokenFor Scenario.authStore 7
                          "agent@mtom-ai.com" "agent123" Hwf Hnd) _ _ _ _)).
  - vm_compute. reflexivity.
  - simpl. discriminate.
Defined.

(** ** The coordinator: further handlers *)

Section HandlerFacts.

Lemma updateStatus_loadsOf st now staffId status :
  loadsOf (snd (StaffService.updateStatus st now staffId status)) = loadsOf st.
Proof.
  unfold StaffService.updateStatus, StaffStore.updateStaff.
  destruct (JsMap.get st staffId) as [row|] eqn:Hget; [|reflexivity].
  unfold loadsOf, StaffService.getAllStaff, StaffStore.getAllStaff. simpl.
  rewrite !map_map. now apply map_values_set with row.
Qed.

Lemma updateStatus_unavailable st now staffId status s :
  staffWf st -> status <> online ->
  In s (StaffService.getAvailableStaff
          (snd (StaffService.updateStatus st now staffId status))) ->
  s_id s <> staffId.
Proof.
  intros Hwf Hoff Hin Hid.
  pose proof (updateStatus_staffWf st now staffId status Hwf) as Hwf'.
  rewrite getAvailableStaff_filter in Hin. apply filter_In in Hin as [Hin Hav].
  pose proof (proj1 (staff_by_id _ staffId s Hwf') (conj Hin Hid)) as Hf.
  unfold StaffService.updateStatus, StaffStore.updateStaff in Hf.
  rewrite findById_get in Hf.
  destruct (JsMap.get st staffId) as [row|] eqn:Hget; simpl in Hf.
  - rewrite get_set_same in Hf. simpl in Hf. injection Hf as <-.
    unfold isAvailable in Hav. simpl in Hav.
    apply andb_true_iff in Hav as [Hon _]. now destruct status.
  - rewrite Hget in Hf. discriminate.
Qed.
End HandlerFacts.

(** X20.  Only a staff connection can assign, transfer or complete a chat
    or change a staff status: on a connection whose role is not 'staff'
    these four handlers return at once, leaving every service, both socket
    maps and the wire untouched. *)
Theorem staff_only_handlers
    (socket : Socket) (now : Z) (sessionId : string) (w : World) :
  isRole socket_staff (data_role socket) = false ->
  (forall staffId, run (assign_chat socket now sessionId staffId) w = w)
  /\ (forall toStaffId, run (transfer_chat socket now sessionId toStaffId) w = w)
  /\ run (complete_chat socket now sessionId) w = w
  /\ (forall status, run (staff_status_update socket now status) w = w).
Proof.
  intros Hrole.
  unfold run, assign_chat, transfer_chat, complete_chat, staff_status_update.
  rewrite Hrole. simpl. repeat split.
Qed.

Lemma staff_only_handlers_witness :
  run (complete_chat (Scenario.customerSocket "S1") 30 "S1") Scenario.handedOver
  = Scenario.handedOver.
Proof.
  exact (proj1 (proj2 (proj2 (staff_only_handlers (Scenario.customerSocket "S1") 30
                                "S1" Scenario.handedOver eq_refl)))).
Defined.

(** X21.  A disconnect never completes or reassigns anything: the queue,
    the ledger, the sessions and every staff member's load are as before.
    When the connection is an identified staff connection, that staff member
    is no longer a candidate for automatic assignment and the connection is
    no longer registered for the member. *)
Theorem disconnect_keeps_assignments (socket : Socket) (now : Z) (w : World) :
  staffWf (QueueService.staffService (queueService w)) ->
  NoDup (JsMap.keys (staffSockets w)) ->
  QueueService.store (queueService (run (disconnect socket now) w))
    = QueueService.store (queueService w)
  /\ sessionService (run (disconnect socket now) w) = sessionService w
  /\ loadsOf (QueueService.staffService
                (queueService (run (disconnect socket now) w)))
     = loadsOf (QueueService.staffService (queueService w))
  /\ (forall staffId,
        data_role socket = Some socket_staff ->
        data_staffId socket = Some staffId -> staffId <> "" ->
        (forall s,
            In s (StaffService.getAvailableStaff
                    (QueueService.staffService
                       (queueService (run (disconnect socket now) w)))) ->
            s_id s <> staffId)
        /\ JsMap.get (staffSockets (run (disconnect socket now) w)) staffId = None).
Proof.
  intros Hwf Hnd. unfold run, disconnect.
  destruct (data_role socket) as [[|]|] eqn:Hrole; cbn [isRole andb].
  - destruct (data_staffId socket) as [staffId|] eqn:Hsid; cbn [truthy].
    + destruct (String.eqb staffId "") eqn:Hempty; cbn [negb].
      * simpl. split; [reflexivity|]. split; [reflexivity|].
        split; [reflexivity|].
        intros staffId' _ Hs Hne. injection Hs as <-.
        apply String.eqb_neq in Hne. congruence.
      * unfold bind, onStaff, onQueue, emit, perform, ret. cbn [orElse].
        cbn [queueService sessionService staffSockets].
        pose proof (updateStatus_loadsOf
                      (QueueService.staffService (queueService w)) now staffId
                      offline) as Hloads.
        pose proof (fun s => updateStatus_unavailable
                      (QueueService.staffService (queueService w)) now staffId
                      offline s Hwf) as Hun.
        destruct (StaffService.updateStatus
                    (QueueService.staffService (queueService w)) now staffId
                    offline) as [u st'].
        simpl in *. split; [reflexivity|]. split; [reflexivity|].
        split; [exact Hloads|].
        intros staffId' _ Hs Hne. injection Hs as <-. split.
        -- intros s Hin. apply (Hun s); [discriminate | exact Hin].
        -- now apply get_delete_same.
    + simpl. split; [reflexivity|]. split; [reflexivity|].
      split; [reflexivity|]. intros staffId' _ Hs. discriminate.
  - destruct (truthy (data_sessionId socket)); simpl;
      (split; [reflexivity|]; split; [reflexivity|]; split; [reflexivity|]);
      intros staffId' Hr; discriminate.
  - simpl. split; [reflexivity|]. split; [reflexivity|].
    split; [reflexivity|]. intros staffId' Hr. discriminate.
Qed.

Lemma disconnect_keeps_assignments_witness :
  QueueService.getSessionAssignment
    (queueService (run (disconnect (Scenario.staffSocket "A") 40) Scenario.connectedA))
    "S1"
  = QueueService.getSessionAssignment (queueService Scenario.connectedA) "S1"
  /\ JsMap.get
       (staffSockets (run (disconnect (Scenario.staffSocket "A") 40)
                        Scenario.connectedA))
       "A"
     = None.
Proof.
  assert (Hwf : staffWf (QueueService.staffService (queueService Scenario.connectedA))).
  { split; simpl.
    - repeat constructor; simpl; intuition discriminate.
    - repeat constructor. }
  assert (Hnd : NoDup (JsMap.keys (staffSockets Scenario.connectedA))).
  { simpl. repeat constructor; simpl; intuition discriminate. }
  destruct (disconnect_keeps_assignments (Scenario.staffSocket "A") 40
              Scenario.connectedA Hwf Hnd) as (Hstore & _ & _ & Hstaff).
  split.
  - unfold QueueService.getSessionAssignment. now rewrite Hstore.
  - apply (Hstaff "A"); [reflexivity | reflexivity | discriminate].
Defined.

(** X22.  On a staff connection [complete_chat] marks a known session
    'resolved' and tells the customer so whether or not the session had an
    assignment: the result of [completeAssignment] is not looked at, and
    without an assignment the queue service is left as it was. *)
Theorem complete_chat_always_resolves
    (socket : Socket) (now : Z) (sessionId : string) (w : World)
    (session : ChatSession) :
  isRole socket_staff (data_role socket) = true ->
  SessionService.getSession (sessionService w) sessionId = Some session ->
  option_map cs_status
    (SessionService.getSession
       (sessionService (run (complete_chat socket now sessionId) w)) sessionId)
  = Some SessionStatus.resolved
  /\ In (Emit (ToRoom (sessionRoom sessionId)) "chat_completed"
           [ ("message", VString "This chat has been marked as resolved") ])
        (effects (run (complete_chat socket now sessionId) w))
  /\ (QueueService.getSessionAssignment (queueService w) sessionId = None ->
      queueService (run (complete_chat socket now sessionId) w) = queueService w).
Proof.
  intros Hrole Hs.
  remember (run (complete_chat socket now sessionId) w) as w' eqn:Hw'.
  unfold run, complete_chat in Hw'. rewrite Hrole in Hw'. cbn [negb] in Hw'.
  unfold broadcastQueueUpdate, bind, onQueue, onSessions, emit, perform,
    readWorld, ret in Hw'.
  assert (Hnone : QueueService.getSessionAssignment (queueService w) sessionId = None ->
                  QueueService.completeAssignment (queueService w) now sessionId
                  = (false, queueService w)).
  { unfold QueueService.getSessionAssignment, QueueService.completeAssignment.
    now intros ->. }
  destruct (QueueService.completeAssignment (queueService w) now sessionId)
    as [done qs'] eqn:Hdone.
  simpl in Hw'. subst w'. simpl. split; [|split].
  - now apply updateSessionStatus_getSession with session.
  - apply in_or_app. left. apply in_or_app. left. apply in_or_app. right.
    now left.
  - intros Hno. specialize (Hnone Hno). congruence.
Qed.

Lemma complete_chat_always_resolves_witness :
  option_map cs_status
    (SessionService.getSession
       (sessionService
          (run (complete_chat (Scenario.staffSocket "A") 30 "S1")
             (Scenario.world0 [Scenario.staffA 0 online])))
       "S1")
  = Some SessionStatus.resolved.
Proof.
  refine (proj1 (complete_chat_always_resolves (Scenario.staffSocket "A") 30 "S1"
                   (Scenario.world0 [Scenario.staffA 0 online]) _ _ _)).
  - reflexivity.
  - vm_compute. reflexivity.
Defined.

(** X23.  After [request_staff] a known session has status
    'waiting_for_staff' and the only events sent are the confirmation to
    the requesting connection and the queue update to the staff room.  This
    holds also when the automatic assignment that ends the handler assigns
    the session: the status is not changed to 'with_staff' and neither the
    staff member nor the customer is told of the assignment. *)
Theorem request_staff_leaves_waiting
    (socket : Socket) (now : Z) (uuid sessionId : string)
    (p : option Priority) (w : World) (session : ChatSession) :
  SessionService.getSession (sessionService w) sessionId = Some session ->
  option_map cs_status
    (SessionService.getSession
       (sessionService (run (request_staff socket now uuid sessionId p) w))
       sessionId)
  = Some SessionStatus.waiting_for_staff
  /\ exists stats,
       effects (run (request_staff socket now uuid sessionId p) w)
       = effects w
         ++ [ Emit (ToSocket (socket_id socket)) "added_to_queue"
                [ ("message",
                   VString "You have been added to the support queue. An agent will be with you shortly.") ];
              Emit (ToRoom "staff") "queue_updated" stats ].
Proof.
  intros Hs.
  remember (run (request_staff socket now uuid sessionId p) w) as w' eqn:Hw'.
  unfold run, request_staff, broadcastQueueUpdate, bind, onQueue, onSessions,
    emit, perform, readWorld, ret in Hw'.
  simpl in Hw'. subst w'. simpl. split.
  - now apply updateSessionStatus_getSession with session.
  - eexists. rewrite <- app_assoc. reflexivity.
Qed.

Lemma request_staff_leaves_waiting_witness :
  option_map cs_status
    (SessionService.getSession (sessionService Scenario.escalatedWithStaff) "S1")
  = Some SessionStatus.waiting_for_staff
  /\ option_map a_staffId
       (QueueService.getSessionAssignment
          (queueService Scenario.escalatedWithStaff) "S1")
     = Some "A".
Proof.
  split.
  - refine (proj1 (request_staff_leaves_waiting (Scenario.customerSocket "S1") 10
                     "q1" "S1" None (Scenario.world0 [Scenario.staffA 0 online])
                     _ _)).
    vm_compute. reflexivity.
  - vm_compute. reflexivity.
Defined.

(** X24.  The customer connection of a session is registered by session
    identifier only.  When a second connection joins the same session it
    replaces the first, and when the first connection then disconnects the
    session is left without a registered connection although the second is
    still connected. *)
Theorem customer_rejoin_then_disconnect
    (first second : Socket) (sessionId : string) (now : Z) (w : World) :
  NoDup (JsMap.keys (customerSockets w)) ->
  sessionId <> "" ->
  JsMap.get
    (customerSockets
       (snd (customer_join second sessionId
               (snd (customer_join first sessionId w)))))
    sessionId
  = Some (socket_id second)
  /\ JsMap.get
       (customerSockets
          (run (disconnect (fst (customer_join first sessionId w)) now)
             (snd (customer_join second sessionId
                     (snd (customer_join first sessionId w))))))
       sessionId
     = None.
Proof.
  intros Hnd Hne. unfold customer_join. cbn [fst snd customerSockets].
  split; [apply get_set_same|].
  unfold run, disconnect. cbn [data_role data_sessionId isRole andb truthy].
  apply String.eqb_neq in Hne. rewrite Hne. cbn [negb orElse].
  unfold bind, ret. simpl.
  apply get_delete_same. now do 2 apply keys_set_NoDup.
Qed.

Lemma customer_rejoin_then_disconnect_witness :
  JsMap.get
    (customerSockets
       (run (disconnect
               (fst (customer_join (Scenario.customerSocket "S1") "S1"
                       Scenario.handedOver)) 50)
          (snd (customer_join (mkSocket "socket-2" None None None) "S1"
                  (snd (customer_join (Scenario.customerSocket "S1") "S1"
                          Scenario.handedOver))))))
    "S1"
  = None.
Proof.
  refine (proj2 (customer_rejoin_then_disconnect (Scenario.customerSocket "S1")
                   (mkSocket "socket-2" None None None) "S1" 50
                   Scenario.handedOver _ _)).
  - simpl. constructor.
  - discriminate.
Defined.

Lemma formatMessagesForAI_window_witness :
  exists earlier,
    AIService.formatMessagesForAI
      ([mkChatMessage "m0" "S1" "Welcome" role_system 0 None]
       ++ [mkChatMessage "m1" "S1" "Hello" role_user 1 None])
    = earlier ++ [(role_user, "Hello")].
Proof.
  exact (proj2 (proj2 (proj2 (formatMessagesForAI_window
                                [mkChatMessage "m0" "S1" "Welcome" role_system 0 None])))
           (mkChatMessage "m1" "S1" "Hello" role_user 1 None) eq_refl).
Defined.
